(** * OctopusCopilot: query handling, deployment collection and tool wrappers

    A shallow embedding of the Python sources

      - [domain/sanitizers/dictionary_sanitizer.py]
      - [domain/tools/wrapper/deploy_release.py],
        [domain/tools/wrapper/octolint_unused_projects.py]
      - [domain/transformers/deployments_from_release.py]
      - [function_app.py] ([logs_callback], [copilot_handler_internal],
        [extract_query], [get_sse_headers], [request_config_details])

    Python values are modelled by inductive types, dictionaries that are
    used as maps by [gmap], exceptions by a sum type, and calls to the
    platform by a state-and-error monad that records every call. *)

From Stdlib Require Import ZArith List String Ascii Bool Lia.
From stdpp Require Import base option list strings gmap.

Import ListNotations.
Set Warnings "-register-all".
Local Open Scope string_scope.
Local Open Scope list_scope.
Local Open Scope Z_scope.

(* ===================================================================== *)
(** ** Python strings and sequences *)
(* ===================================================================== *)

Module Py.

(** [str.isspace] on one character (code points below 256): the ASCII
    white space 9..13 and 32, the separators 28..31, NEL (133) and the
    no-break space (160). *)
Definition isspace (c : ascii) : bool :=
  let n := nat_of_ascii c in
  ((9 <=? n)%nat && (n <=? 13)%nat) || ((28 <=? n)%nat && (n <=? 32)%nat)
  || (n =? 133)%nat || (n =? 160)%nat.

(** [s.lstrip()] *)
Fixpoint lstrip (s : string) : string :=
  match s with
  | EmptyString => EmptyString
  | String c s' => if isspace c then lstrip s' else s
  end.

(** [s.rstrip()]: a character is dropped when it is white space and
    everything after it has been dropped. *)
Fixpoint rstrip (s : string) : string :=
  match s with
  | EmptyString => EmptyString
  | String c s' =>
      match rstrip s' with
      | EmptyString => if isspace c then EmptyString else String c EmptyString
      | r => String c r
      end
  end.

(** [s.strip()] *)
Definition strip (s : string) : string := rstrip (lstrip s).

(** Truthiness of a [str]: [bool(s)]. *)
Definition truthy_str (s : string) : bool :=
  match s with EmptyString => false | _ => true end.

(** The index a slice bound denotes in a sequence of length [len]:
    a negative bound counts from the end, and the result is clamped to
    [0..len] (CPython's [PySlice_AdjustIndices] for a step of 1). *)
Definition adjust_index (len : nat) (i : Z) : nat :=
  if i <? 0 then Z.to_nat (Z.max 0 (Z.of_nat len + i))
  else Z.to_nat (Z.min i (Z.of_nat len)).

(** [l[start:]] *)
Definition slice_from {A} (start : Z) (l : list A) : list A :=
  drop (adjust_index (length l) start) l.

(** [l[:stop]] *)
Definition slice_to {A} (stop : Z) (l : list A) : list A :=
  take (adjust_index (length l) stop) l.

(** [s[start:]] on a [str]. *)
Definition str_slice_from (start : Z) (s : string) : string :=
  string_of_list_ascii (slice_from start (list_ascii_of_string s)).

(** [bytes.strip()] removes ASCII white space only. *)
Definition isspace_bytes (c : ascii) : bool :=
  let n := nat_of_ascii c in
  ((9 <=? n)%nat && (n <=? 13)%nat) || (n =? 32)%nat.

Fixpoint bytes_lstrip (s : string) : string :=
  match s with
  | EmptyString => EmptyString
  | String c s' => if isspace_bytes c then bytes_lstrip s' else s
  end.

Fixpoint bytes_rstrip (s : string) : string :=
  match s with
  | EmptyString => EmptyString
  | String c s' =>
      match bytes_rstrip s' with
      | EmptyString => if isspace_bytes c then EmptyString else String c EmptyString
      | r => String c r
      end
  end.

Definition bytes_strip (s : string) : string := bytes_rstrip (bytes_lstrip s).

(** [needle in s] for two [str]: [needle] occurs in [s]. *)
Fixpoint str_contains (needle s : string) : bool :=
  String.prefix needle s
  || match s with
     | EmptyString => false
     | String _ s' => str_contains needle s'
     end.

(** The Python values handled by the code: what [json.loads] builds and
    what a tool call is given as arguments.  A [dict] is a finite map
    with [str] keys; a [float] is kept as mantissa and exponent. *)
Inductive value : Type :=
  | VNone
  | VBool (b : bool)
  | VInt (z : Z)
  | VFloat (m e : Z)
  | VStr (s : string)
  | VList (l : list value)
  | VDict (d : gmap string value).

(** [bool(v)] *)
Definition truthy (v : value) : bool :=
  match v with
  | VNone => false
  | VBool b => b
  | VInt z => negb (z =? 0)
  | VFloat m _ => negb (m =? 0)
  | VStr s => truthy_str s
  | VList l => match l with [] => false | _ => true end
  | VDict d => negb (bool_decide (d = ∅))
  end.

(** [len(v)]: defined on sized values only ([None] stands for the
    [TypeError] of the others). *)
Definition len (v : value) : option nat :=
  match v with
  | VStr s => Some (String.length s)
  | VList l => Some (length l)
  | VDict d => Some (size d)
  | VNone | VBool _ | VInt _ | VFloat _ _ => None
  end.

End Py.

(* ===================================================================== *)
(** ** domain/sanitizers/dictionary_sanitizer.py *)
(* ===================================================================== *)

Module DictionarySanitizer.
Import Py.

(** The exceptions the function can leave with. *)
Inductive exc : Type :=
  | KeyError (key : string)
  | TypeError.

(** What a call does: it returns a value or raises. *)
Inductive outcome : Type :=
  | Returns (v : value)
  | Raises (e : exc).

(**
<<
def dictionary_has_value(key, dictionary):
    if dictionary is None:
        return False

    if isinstance(dictionary, dict):
        if not dictionary[key]:
            return False

        value = dictionary[key]
        return len(value) > 0
>>
    [dictionary[key]] raises [KeyError] when the key is absent, [len]
    raises [TypeError] on a value without a length, and a body that ends
    without [return] returns [None]. *)
Definition dictionary_has_value (key : string) (dictionary : value) : outcome :=
  match dictionary with
  | VNone => Returns (VBool false)
  | VDict d =>
      match d !! key with
      | None => Raises (KeyError key)
      | Some v =>
          if negb (truthy v) then Returns (VBool false)
          else
            match len v with
            | Some n => Returns (VBool (0 <? n)%nat)
            | None => Raises TypeError
            end
      end
  | _ => Returns VNone
  end.

End DictionarySanitizer.

(* ===================================================================== *)
(** ** domain/tools/wrapper: deploy_release, octolint_unused_projects *)
(* ===================================================================== *)

Module Wrappers.
Import Py.

(** The keyword arguments a function is called with (the dictionary that
    is unpacked into the call), in the order of the dictionary. *)
Abbreviation arguments := (list (string * value)).

(** The value a declared parameter is bound to; every parameter of the
    wrappers defaults to [None]. *)
Fixpoint bound (name : string) (args : arguments) : value :=
  match args with
  | [] => VNone
  | (k, v) :: rest => if String.eqb k name then v else bound name rest
  end.

(** What [**kwargs] collects: the arguments that name no declared
    parameter. *)
Definition collect_kwargs (declared : list string) (args : arguments) : arguments :=
  filter (λ kv, kv.1 ∉ declared) args.

(** The arguments that do name a declared parameter. *)
Definition declared_only (declared : list string) (args : arguments) : arguments :=
  filter (λ kv, kv.1 ∈ declared) args.

Section Wrapper.
(** [L]: what one call of the logger writes; [R]: what the callback
    does (the value it returns or the exception it raises).  The logger
    is optional ([if logging:]) and only writes. *)
Context {L R : Type}.
Variable logging : option (string → string → L).

(**
<<
      for key, value in kwargs.items():
          if logging:
              logging(f"Unexpected Key: {key}", "Value: {value}")
>>
    The second argument is a plain literal in the source, not an
    f-string. *)
Definition log_unexpected (kwargs : arguments) : list L :=
  flat_map (λ kv : string * value,
              match logging with
              | Some log => [log ("Unexpected Key: " +:+ kv.1) "Value: {value}"]
              | None => []
              end) kwargs.

(** [deploy_release_wrapper(query, callback, logging)] returns the
    function [deploy_release]; the pair is what the call logs and what
    the callback does. *)
Definition deploy_release_declared : list string :=
  ["space_name"; "project_name"; "release_version"; "environment_name"; "tenant_name"]%string.

Definition deploy_release_wrapper {Q : Type} (query : Q)
    (callback : Q → value → value → value → value → value → R)
    (args : arguments) : list L * R :=
  let space_name := bound "space_name" args in
  let project_name := bound "project_name" args in
  let release_version := bound "release_version" args in
  let environment_name := bound "environment_name" args in
  let tenant_name := bound "tenant_name" args in
  let kwargs := collect_kwargs deploy_release_declared args in
  let entered :=
    match logging with
    | Some log => [log "Enter:" "deploy_release"]
    | None => []
    end in
  (entered ++ log_unexpected kwargs,
   callback query space_name project_name release_version environment_name tenant_name).

(** [octolint_unused_projects_wrapper(callback, logging)] returns the
    function [octolint_unused_projects]. *)
Definition octolint_unused_projects_declared : list string := ["space"].

Definition octolint_unused_projects_wrapper
    (callback : value → R) (args : arguments) : list L * R :=
  let space := bound "space" args in
  let kwargs := collect_kwargs octolint_unused_projects_declared args in
  (log_unexpected kwargs, callback space).

End Wrapper.

End Wrappers.

(* ===================================================================== *)
(** ** function_app.py: logs_callback, from the fetch of the log on *)
(* ===================================================================== *)

Module Logs.

(** The variables handed to the language model. *)
Record context := { context_input : string; context_context : string }.

Section LogsCallback.
(** [max_chars] is imported from [domain.context.octopus_context]; its
    value is a configuration constant. *)
Variable max_chars : Z.

(**
<<
      # Get the end of the logs if we have exceeded our context limit
      logs = logs[-max_chars:]
>>
*)
Definition truncate_logs (logs : string) : string :=
  Py.str_slice_from (- max_chars) logs.

(**
<<
      processed_query = update_query(original_query, sanitized_projects)
      context = {"input": processed_query, "context": logs}
      return llm_message_query(messages, context, log_query)
>>
    [logs] is what [get_deployment_logs] returned and [processed_query]
    what [update_query] returned. *)
Definition logs_callback {Msgs Answer : Type}
    (llm_message_query : Msgs → context → Answer)
    (messages : Msgs) (processed_query logs : string) : Answer :=
  let logs := truncate_logs logs in
  let context := {| context_input := processed_query; context_context := logs |} in
  llm_message_query messages context.

End LogsCallback.

(** The final [n] characters of a text: the text with its first
    [length - n] characters removed (the whole text when it is shorter). *)
Definition final_chars (n : nat) (s : string) : string :=
  string_of_list_ascii (drop (String.length s - n) (list_ascii_of_string s)).

End Logs.

(* ===================================================================== *)
(** ** State and exceptions *)
(* ===================================================================== *)

(** A computation reads and writes a state [S] and either returns a value
    or raises an exception [E]; the state written before the exception
    is kept. *)
Module Eff.

Section Monad.
Context {S E : Type}.

Definition M (A : Type) : Type := S → S * (E + A).

Definition ret {A} (a : A) : M A := λ s, (s, inr a).

Definition raise {A} (e : E) : M A := λ s, (s, inl e).

Definition bind {A B} (m : M A) (k : A → M B) : M B :=
  λ s, match m s with
       | (s', inl e) => (s', inl e)
       | (s', inr a) => k a s'
       end.

(** A step that cannot touch the state. *)
Definition lift {A} (r : E + A) : M A := λ s, (s, r).

(** [list(map(f, l))] for an effectful [f]. *)
Fixpoint map_m {A B} (f : A → M B) (l : list A) : M (list B) :=
  match l with
  | [] => ret []
  | a :: l' => bind (f a) (λ b, bind (map_m f l') (λ bs, ret (b :: bs)))
  end.
End Monad.

Arguments M : clear implicits.

Module Notations.
  Notation "'let*' x ':=' m 'in' k" := (bind m (λ x, k))
    (at level 10, x name, m at level 100, k at level 200, only parsing).
  Notation "m ';;' k" := (bind m (λ _, k))
    (at level 100, k at level 200, right associativity, only parsing).
End Notations.

End Eff.

(* ===================================================================== *)
(** ** domain/transformers/deployments_from_release.py *)
(* ===================================================================== *)

Module Deployments.
Import Eff Eff.Notations.

(** *** The payloads of the platform's REST API

    The resources have the shape the platform gives them: every key the
    code indexes is present, and a key the platform may leave null is an
    option. *)

Record Project := { project_Id : string; project_Name : string }.

Record Release := {
  release_Id : string;
  release_Version : string;
  release_ReleaseNotes : option string }.

(** [TenantId] is null for an untenanted deployment, and [TaskId] and
    [DeployedBy] may be null. *)
Record Deployment := {
  deployment_Id : string;
  deployment_EnvironmentId : string;
  deployment_TenantId : option string;
  deployment_Created : string;
  deployment_TaskId : option string;
  deployment_ChannelId : string;
  deployment_ReleaseId : string;
  deployment_DeployedBy : option string }.

Record Task := { task_State : string; task_Duration : string }.

Record Channel := { channel_Id : string; channel_Name : string }.

(** An environment or a tenant. *)
Record Resource := { resource_Id : string; resource_Name : option string }.

(** One entry of the returned list: the dictionary built at the end of
    the inner loop. *)
Record DeploymentRecord := {
  SpaceId : string;
  ProjectId : string;
  ProjectName : string;
  ReleaseVersion : string;
  DeploymentId : string;
  TaskId : option string;
  TenantId : option string;
  TenantName : option string;
  ReleaseId : string;
  EnvironmentId : string;
  EnvironmentName : option string;
  ChannelId : string;
  ChannelName : string;
  Created : string;
  TaskState : option string;
  TaskDuration : option string;
  ReleaseNotes : option string;
  DeployedBy : option string }.

(** The returned dictionary, with its one key. *)
Record Result := { Deployments : list DeploymentRecord }.

(** *** Exceptions, platform and recorded calls *)

Inductive exc : Type :=
  | ValueError (message : string)
  | StopIteration
  | Raised (name : string).

#[export] Instance exc_eq_dec : EqDecision exc.
Proof. solve_decision. Defined.

(** The functions of [infrastructure.octopus] the module calls.  Each is
    given the space id first; the API key and the server URL, which every
    call passes on unchanged, are left out. *)
Inductive ApiCall : Type :=
  | CallGetProject (space_id project_name : string)
  | CallGetProjectReleases (space_id project_id : string) (take : Z)
  | CallGetEnvironmentCached (space_id name : string)
  | CallGetTenantCached (space_id name : string)
  | CallGetReleaseDeployments (space_id release_id : string)
  | CallGetTask (space_id task_id : string)
  | CallGetChannelCached (space_id channel_id : string).

(** The platform: what each function answers (the [Items] of a
    collection) or raises. *)
Record Platform := {
  get_project : string → string → exc + Project;
  get_project_releases : string → string → Z → exc + list Release;
  get_environment_cached : string → string → exc + Resource;
  get_tenant_cached : string → string → exc + Resource;
  get_release_deployments : string → string → exc + list Deployment;
  get_task : string → string → exc + Task;
  get_channel_cached : string → string → exc + Channel }.

(** The state a call runs in: the platform with its payloads, and the
    calls made so far. *)
Record World := { platform : Platform; calls : list ApiCall }.

Definition M := Eff.M World exc.

(** One call of a platform function: it is recorded, and answers from
    the platform's payloads. *)
Definition api {A} (c : ApiCall) (answer : Platform → exc + A) : M A :=
  λ w, ({| platform := platform w; calls := calls w ++ [c] |}, answer (platform w)).

(** The helpers imported from modules that are not part of the sources:
    [sanitize_list], [parse_unknown_format_date] (a parsed date is a point
    in time, counted in microseconds), [get_key_or_none],
    [strip_markdown_urls] and [ensure_string_not_empty]. *)
Class Helpers := {
  Names : Type;
  sanitize_list : Names → list string;
  parse_unknown_format_date : string → exc + Z;
  get_key_or_none : Resource → string → option string;
  strip_markdown_urls : option string → option string;
  ensure_string_not_empty : string → string → exc + unit }.

Section GetDeploymentsForProject.
Context `{Helpers}.

(** [min(a, b)] and [max(a, b)]: the first argument unless the second
    is smaller (larger). *)
Definition py_min (a b : Z) : Z := if b <? a then b else a.
Definition py_max (a b : Z) : Z := if a <? b then b else a.

(** Truthiness of [deployment.get("TaskId")]. *)
Definition has_task (deployment : Deployment) : option string :=
  match deployment_TaskId deployment with
  | Some t => if Py.truthy_str t then Some t else None
  | None => None
  end.

(**
<<
          if len(environments) != 0 and len(
                  list(filter(lambda x: x["Id"] == deployment["EnvironmentId"], environments))) == 0:
              continue
>>
*)
Definition environment_mismatch (environments : list Resource) (deployment : Deployment) : bool :=
  negb (length environments =? 0)%nat
  && (length (filter (λ x, resource_Id x = deployment_EnvironmentId deployment) environments) =? 0)%nat.

(**
<<
          if len(tenants) != 0 and len(list(filter(lambda x: x["Id"] == deployment["TenantId"], tenants))) == 0:
              continue
>>
*)
Definition tenant_mismatch (tenants : list Resource) (deployment : Deployment) : bool :=
  negb (length tenants =? 0)%nat
  && (length (filter (λ x, Some (resource_Id x) = deployment_TenantId deployment) tenants) =? 0)%nat.

(**
<<
          if dates and isinstance(dates, list) and len(dates) == 2:
              created = parse_unknown_format_date(deployment["Created"])
              date1 = parse_unknown_format_date(dates[0])
              date2 = parse_unknown_format_date(dates[1])

              if created < min(date1, date2) or created > max(date1, date2):
                  continue
>>
    [dates] is [None] (or anything that is not a list) or a list. *)
Definition outside_dates (dates : option (list string)) (deployment : Deployment) : exc + bool :=
  match dates with
  | Some [d1; d2] =>
      match parse_unknown_format_date (deployment_Created deployment) with
      | inl e => inl e
      | inr created =>
          match parse_unknown_format_date d1 with
          | inl e => inl e
          | inr date1 =>
              match parse_unknown_format_date d2 with
              | inl e => inl e
              | inr date2 =>
                  inr ((created <? py_min date1 date2) || (py_max date1 date2 <? created))
              end
          end
      end
  | _ => inr false
  end.

(** [next(filter(pred, resources))]: the first match, or
    [StopIteration]. *)
Definition next_match (P : Resource → Prop) `{∀ x, Decision (P x)}
    (resources : list Resource) : exc + Resource :=
  match filter P resources with
  | r :: _ => inr r
  | [] => inl StopIteration
  end.

(** [get_key_or_none(next(filter(...)), "Name") if resources else None] *)
Definition name_of_match (P : Resource → Prop) `{∀ x, Decision (P x)}
    (resources : list Resource) : M (option string) :=
  match resources with
  | [] => ret None
  | _ => let* r := lift (next_match P resources) in ret (get_key_or_none r "Name")
  end.

Variable space_id : string.
Variable project : Project.
Variable environments tenants : list Resource.
Variable dates : option (list string).
Variable max_results : Z.

(** Lines 69 to 98: the task and channel lookups and the dictionary
    appended to [deployments]. *)
Definition enrich (release : Release) (deployment : Deployment) : M DeploymentRecord :=
  let* task :=
    match has_task deployment with
    | Some task_id =>
        let* t := api (CallGetTask space_id task_id) (λ p, get_task p space_id task_id) in
        ret (Some t)
    | None => ret None
    end in
  let* channel :=
    api (CallGetChannelCached space_id (deployment_ChannelId deployment))
        (λ p, get_channel_cached p space_id (deployment_ChannelId deployment)) in
  let* tenant_name :=
    name_of_match (λ tenant, Some (resource_Id tenant) = deployment_TenantId deployment) tenants in
  let* environment_name :=
    name_of_match (λ env, resource_Id env = deployment_EnvironmentId deployment) environments in
  ret {| SpaceId := space_id;
         ProjectId := project_Id project;
         ProjectName := project_Name project;
         ReleaseVersion := release_Version release;
         DeploymentId := deployment_Id deployment;
         TaskId := deployment_TaskId deployment;
         TenantId := deployment_TenantId deployment;
         TenantName := tenant_name;
         ReleaseId := deployment_ReleaseId deployment;
         EnvironmentId := deployment_EnvironmentId deployment;
         EnvironmentName := environment_name;
         ChannelId := deployment_ChannelId deployment;
         ChannelName := channel_Name channel;
         Created := deployment_Created deployment;
         TaskState := task_State <$> task;
         TaskDuration := task_Duration <$> task;
         ReleaseNotes := strip_markdown_urls (release_ReleaseNotes release);
         DeployedBy := deployment_DeployedBy deployment |}.

(** [len(deployments) >= max_results] *)
Definition cap_reached (deployments : list DeploymentRecord) : bool :=
  max_results <=? Z.of_nat (length deployments).

(** The inner loop, [for deployment in release_deployments["Items"]],
    from the deployments still to visit and the list built so far.
    [continue] goes on with the rest, [break] returns. *)
Fixpoint scan_deployments (release : Release) (items : list Deployment)
    (deployments : list DeploymentRecord) : M (list DeploymentRecord) :=
  match items with
  | [] => ret deployments
  | deployment :: rest =>
      if environment_mismatch environments deployment then
        scan_deployments release rest deployments
      else if tenant_mismatch tenants deployment then
        scan_deployments release rest deployments
      else
        let* outside := lift (outside_dates dates deployment) in
        if (outside : bool) then scan_deployments release rest deployments
        else
          let* record := enrich release deployment in
          let deployments := deployments ++ [record] in
          if cap_reached deployments then ret deployments
          else scan_deployments release rest deployments
  end.

(** The outer loop, [for release in releases["Items"]]. *)
Fixpoint scan_releases (releases : list Release)
    (deployments : list DeploymentRecord) : M (list DeploymentRecord) :=
  match releases with
  | [] => ret deployments
  | release :: rest =>
      let* release_deployments :=
        api (CallGetReleaseDeployments space_id (release_Id release))
            (λ p, get_release_deployments p space_id (release_Id release)) in
      let* deployments := scan_deployments release release_deployments deployments in
      if cap_reached deployments then ret deployments
      else scan_releases rest deployments
  end.

End GetDeploymentsForProject.

Section EntryPoint.
Context `{Helpers}.

(** [list(map(lambda n: lookup(space_id, n, ...), names)) if names else []] *)
Definition resolve_names (call : string → ApiCall) (lookup : Platform → string → exc + Resource)
    (names : list string) : M (list Resource) :=
  match names with
  | [] => ret []
  | _ => map_m (λ n, api (call n) (λ p, lookup p n)) names
  end.

(** [get_deployments_for_project(space_id, project_name,
    environment_names, tenant_names, api_key, octopus_url, dates,
    max_results)] *)
Definition get_deployments_for_project (space_id project_name : string)
    (environment_names tenant_names : Names) (api_key octopus_url : string)
    (dates : option (list string)) (max_results : Z) : M Result :=
  lift (ensure_string_not_empty space_id
          "space_id must be a non-empty string (get_deployments_for_project).");;
  lift (ensure_string_not_empty project_name
          "project_name must be a non-empty string (get_deployments_for_project).");;
  lift (ensure_string_not_empty api_key
          "api_key must be a non-empty string (get_deployments_for_project).");;
  lift (ensure_string_not_empty octopus_url
          "octopus_url must be a non-empty string (get_deployments_for_project).");;
  let* project :=
    api (CallGetProject space_id project_name) (λ p, get_project p space_id project_name) in
  let* releases :=
    api (CallGetProjectReleases space_id (project_Id project) 100)
        (λ p, get_project_releases p space_id (project_Id project) 100) in
  let environment_names := sanitize_list environment_names in
  let tenant_names := sanitize_list tenant_names in
  let* environments :=
    resolve_names (CallGetEnvironmentCached space_id)
                  (λ p, get_environment_cached p space_id) environment_names in
  let* tenants :=
    resolve_names (CallGetTenantCached space_id)
                  (λ p, get_tenant_cached p space_id) tenant_names in
  let* deployments :=
    scan_releases space_id project environments tenants dates max_results releases [] in
  ret {| Deployments := Py.slice_to max_results deployments |}.

End EntryPoint.

(** *** Notions used to state the properties *)

(** The enrichments among recorded calls: every enriched deployment has
    its channel looked up exactly once. *)
Definition is_enrichment (c : ApiCall) : bool :=
  match c with CallGetChannelCached _ _ => true | _ => false end.

Definition enrichments (cs : list ApiCall) : nat := length (List.filter is_enrichment cs).

(** The releases whose deployments were fetched, in the order of the
    calls. *)
Definition fetched_releases (cs : list ApiCall) : list string :=
  omap (λ c, match c with CallGetReleaseDeployments _ r => Some r | _ => None end) cs.

(** A computation that only reads the platform: started on a platform
    [p], it leaves [p] as it is, and the calls it adds and what it
    returns or raises depend on [p] alone, not on the calls made
    before. *)
Definition reads_only {A} (m : M A) : Prop :=
  ∀ p : Platform, ∃ (new : list ApiCall) (r : exc + A),
    ∀ before : list ApiCall,
      m {| platform := p; calls := before |}
      = ({| platform := p; calls := before ++ new |}, r).

(** Two runs that end alike: both raise, or both return the same
    value. *)
Definition same_outcome {A} (r1 r2 : exc + A) : Prop :=
  match r1, r2 with
  | inr a1, inr a2 => a1 = a2
  | inl _, inl _ => True
  | _, _ => False
  end.

(** Two runs that agree: the same state at the end (platform and
    recorded calls) and the same outcome. *)
Definition agree {A} (x y : World * (exc + A)) : Prop :=
  x.1 = y.1 ∧ same_outcome x.2 y.2.

Section Stream.
Context `{Helpers}.

(** The deployments of the releases, release by release, as the
    platform lists them (a release whose fetch fails has none). *)
Definition stream (p : Platform) (space_id : string) (releases : list Release)
    : list Deployment :=
  flat_map (λ r, match get_release_deployments p space_id (release_Id r) with
                 | inr items => items
                 | inl _ => []
                 end) releases.

(** The three filters of the inner loop on one deployment: true when
    none of them skips it. *)
Definition passes (environments tenants : list Resource) (dates : option (list string))
    (deployment : Deployment) : bool :=
  negb (environment_mismatch environments deployment)
  && negb (tenant_mismatch tenants deployment)
  && match outside_dates dates deployment with
     | inr outside => negb outside
     | inl _ => false
     end.

(** The filters in the words of the specification.  A deployment is
    kept by a filter set when the set is empty or holds its
    environment (tenant); it is kept by two dates when its creation
    time lies between the earlier and the later one, bounds
    included. *)
Definition requested (ids : list string) (id : option string) : Prop :=
  ids = [] ∨ id ∈ map Some ids.

Definition in_closed_range (date1 date2 created : Z) : Prop :=
  Z.min date1 date2 <= created <= Z.max date1 date2.

Definition created_between (date1 date2 : string) (deployment : Deployment) : Prop :=
  match parse_unknown_format_date date1, parse_unknown_format_date date2,
        parse_unknown_format_date (deployment_Created deployment) with
  | inr t1, inr t2, inr created => in_closed_range t1 t2 created
  | _, _, _ => False
  end.

Definition kept_by_sets (environments tenants : list Resource) (deployment : Deployment) : Prop :=
  requested (map resource_Id environments) (Some (deployment_EnvironmentId deployment))
  ∧ requested (map resource_Id tenants) (deployment_TenantId deployment).

#[export] Instance requested_dec ids id : Decision (requested ids id).
Proof. unfold requested. apply _. Defined.

#[export] Instance in_closed_range_dec t1 t2 c : Decision (in_closed_range t1 t2 c).
Proof. unfold in_closed_range. apply _. Defined.

#[export] Instance created_between_dec date1 date2 deployment :
  Decision (created_between date1 date2 deployment).
Proof.
  unfold created_between.
  destruct (parse_unknown_format_date date1); [apply _|].
  destruct (parse_unknown_format_date date2); [apply _|].
  destruct (parse_unknown_format_date _); apply _.
Defined.

#[export] Instance kept_by_sets_dec environments tenants deployment :
  Decision (kept_by_sets environments tenants deployment).
Proof. unfold kept_by_sets. apply _. Defined.

End Stream.

End Deployments.

(* ===================================================================== *)
(** ** function_app.py: copilot_handler_internal and extract_query *)
(* ===================================================================== *)

Module FunctionApp.
Import Py.

(** *** Exceptions *)

(** The exception classes the handler names, those the interpreter raises
    inside [extract_query], and any other class. *)
Inductive cls : Type :=
  | UserNotLoggedIn | OctopusRequestFailed | GitHubRequestFailed | NotAuthorized
  | SpaceNotFound | ResourceNotFound | UserNotConfigured | OctopusApiKeyInvalid
  | ValueError | TypeError | AttributeError | KeyError | IndexError
  | Exception | BaseException
  | OtherClass (name : string).

#[export] Instance cls_eq_dec : EqDecision cls.
Proof. solve_decision. Defined.

(** An exception instance: the classes it is an instance of (its own
    class and all its bases), and the attributes the handlers read. *)
Record exc := {
  exc_classes : list cls;
  space_name : string;
  resource_type : string;
  resource_name : string }.

(** [isinstance(e, c)], which decides whether [except c] catches [e]. *)
Definition isinstance (e : exc) (c : cls) : bool := bool_decide (c ∈ exc_classes e).

(** An exception raised by the interpreter itself. *)
Definition builtin (c : cls) : exc :=
  {| exc_classes := [c; Exception; BaseException];
     space_name := ""; resource_type := ""; resource_name := "" |}.

(** *** Requests, responses and what a call leaves behind *)

Record HttpRequest := {
  params : gmap string string;
  body : string }.

Record HttpResponse := {
  response_body : string;
  status_code : Z;
  headers : gmap string string }.

(** [func.HttpResponse(body, headers=headers)]: the status defaults to
    200. *)
Definition http_response (body : string) (headers : gmap string string) : HttpResponse :=
  {| response_body := body; status_code := 200; headers := headers |}.

(** What the handler does besides returning: lines written through
    [logger.info], errors handed to [handle_error], and queries
    dispatched to the language model with the tool catalogue. *)
Inductive event : Type :=
  | LoggerInfo (message : string)
  | HandleError (e : exc)
  | LlmToolQuery (query : string).

(** The imported functions and constants that are not part of the
    sources.  [llm_tool_query q] stands for
    [llm_tool_query(q, build_form_tools, log_query).call_function()]: the
    model picks a tool and its handler runs. *)
Class Collaborators := {
  convert_to_sse_response : string → string;
  NO_FUNCTION_RESPONSE : string;
  json_loads : string → exc + value;
  llm_tool_query : string → exc + string;
  environ : gmap string string;
  quote : string → string }.

(** *** Characters that cannot be written inside a string literal *)

Definition dq : string := String (ascii_of_nat 34) EmptyString.
Definition nl : string := String (ascii_of_nat 10) EmptyString.

(**
<<
def get_sse_headers():
    return {
        'Content-Type': 'text/event-stream',
        'Cache-Control': 'no-cache'
    }
>>
*)
Definition get_sse_headers : gmap string string :=
  <["Cache-Control" := "no-cache"]> (<["Content-Type" := "text/event-stream"]> ∅).

(** *** Operations of the interpreter on the parsed body *)

(** [key in v] for a [str] key. *)
Definition contains (key : string) (v : value) : exc + bool :=
  match v with
  | VDict d => inr (bool_decide (is_Some (d !! key)))
  | VList l => inr (existsb (λ x, match x with VStr s => String.eqb s key | _ => false end) l)
  | VStr s => inr (str_contains key s)
  | _ => inl (builtin TypeError)
  end.

(** [v.get(key)]: only a [dict] has the method. *)
Definition dict_get (key : string) (v : value) : exc + value :=
  match v with
  | VDict d => inr (default VNone (d !! key))
  | _ => inl (builtin AttributeError)
  end.

(** [len(v)] *)
Definition py_len (v : value) : exc + nat :=
  match len v with
  | Some n => inr n
  | None => inl (builtin TypeError)
  end.

(** The last character of a [str], as a [str]. *)
Fixpoint last_char (s : string) : option string :=
  match s with
  | EmptyString => None
  | String c EmptyString => Some (String c EmptyString)
  | String _ s' => last_char s'
  end.

(** [v[-1]] *)
Definition index_last (v : value) : exc + value :=
  match v with
  | VList l =>
      match last l with
      | Some x => inr x
      | None => inl (builtin IndexError)
      end
  | VStr s =>
      match last_char s with
      | Some c => inr (VStr c)
      | None => inl (builtin IndexError)
      end
  | VDict _ => inl (builtin KeyError)
  | _ => inl (builtin TypeError)
  end.

(** [v.strip()]: only a [str] has the method (among the values
    [json.loads] builds). *)
Definition py_strip (v : value) : exc + string :=
  match v with
  | VStr s => inr (strip s)
  | _ => inl (builtin AttributeError)
  end.

(** Sequencing of steps that may raise. *)
Definition and_then {A B} (r : exc + A) (k : A → exc + B) : exc + B :=
  match r with
  | inl e => inl e
  | inr a => k a
  end.

Local Notation "'let?' x ':=' r 'in' k" := (and_then r (λ x, k))
  (at level 10, x name, r at level 100, k at level 200, only parsing).

Section Handler.
Context `{Collaborators}.

(** The [try] block of [extract_query]: the content of the last
    message, stripped ([Some]), or nothing to return ([None]), in which
    case the function goes on to its final [return] of the empty
    string.
<<
      body = json.loads(body_raw)
      if 'messages' in body and len(body.get('messages')) != 0:
          message = body.get('messages')[-1]
          if 'content' in message:
              return message.get('content').strip()
>>
*)
Definition last_message_content (body_raw : string) : exc + option string :=
  let? body := json_loads body_raw in
  let? has_messages := contains "messages" body in
  if (has_messages : bool) then
    let? messages := dict_get "messages" body in
    let? n := py_len messages in
    if negb (n =? 0)%nat then
      let? messages := dict_get "messages" body in
      let? message := index_last messages in
      let? has_content := contains "content" message in
      if (has_content : bool) then
        let? content := dict_get "content" message in
        let? stripped := py_strip content in
        inr (Some stripped)
      else inr None
    else inr None
  else inr None.

(** [extract_query(req)]: the [message] parameter of a form request,
    else the last message of a Copilot request body.  An [Exception]
    raised while the body is read is handed to [handle_error] and the
    query is empty; anything else leaves the function. *)
Definition extract_query (req : HttpRequest) : list event * (exc + string) :=
  let from_body :=
    let body_raw := body req in
    if negb (truthy_str body_raw) || negb (truthy_str (bytes_strip body_raw)) then
      ([], inr "")
    else
      match last_message_content body_raw with
      | inr (Some content) => ([], inr content)
      | inr None => ([], inr "")
      | inl e =>
          if isinstance e Exception then ([HandleError e], inr "")
          else ([], inl e)
      end in
  match params req !! "message" with
  | Some query => if truthy_str query then ([], inr (strip query)) else from_body
  | None => from_body
  end.

(** The answer to an empty query. *)
Definition sample_question : string :=
  "Ask a question like " +:+ dq +:+ "What are the projects in the space called Default?" +:+ dq.

(** The sample question, as a response. *)
Definition sample_response : HttpResponse :=
  http_response (convert_to_sse_response sample_question) get_sse_headers.

(** [str(os.environ.get(name))] inside an f-string. *)
Definition environ_str (name : string) : string :=
  default "None" (environ !! name).

(** [request_config_details()]: [urllib.parse.quote] raises a
    [TypeError] when the redirect address is not configured, and the
    function then answers with status 500. *)
Definition request_config_details : list event * HttpResponse :=
  let info := LoggerInfo "User has not configured Octopus instance" in
  match environ !! "GITHUB_CLIENT_REDIRECT" with
  | Some redirect =>
      ([info],
       {| response_body :=
            convert_to_sse_response
              ("To continue chatting please [log in](https://github.com/login/oauth/authorize?"
               +:+ "client_id=" +:+ environ_str "GITHUB_CLIENT_ID"
               +:+ "&redirect_url=" +:+ quote redirect
               +:+ "&scope=user&allow_signup=false)");
          status_code := 200;
          headers := get_sse_headers |})
  | None =>
      ([info; HandleError (builtin TypeError)],
       {| response_body :=
            "data: An exception was raised. See the logs for more details." +:+ nl +:+ nl;
          status_code := 500;
          headers := get_sse_headers |})
  end.

(** The [try] block of [copilot_handler_internal]. *)
Definition handler_body (req : HttpRequest) : list event * (exc + HttpResponse) :=
  match extract_query req with
  | (ev, inl e) => (ev, inl e)
  | (ev, inr query) =>
      let ev := ev ++ [LoggerInfo ("Query: " +:+ query)] in
      if negb (truthy_str (strip query)) then
        (ev, inr (http_response (convert_to_sse_response sample_question) get_sse_headers))
      else
        match llm_tool_query query with
        | inl e => (ev ++ [LlmToolQuery query], inl e)
        | inr result =>
            (ev ++ [LlmToolQuery query],
             inr (http_response (convert_to_sse_response result) get_sse_headers))
        end
  end.

(** A handler that answers with a message. *)
Definition answer (message : string) : HttpResponse :=
  http_response (convert_to_sse_response message) get_sse_headers.

(** The [except] clauses of [copilot_handler_internal], tried in the
    order they are written; an exception that none of them names
    leaves the function. *)
Definition handle_exception (e : exc) : list event * (exc + HttpResponse) :=
  if isinstance e UserNotLoggedIn then
    ([], inr (answer "Your GitHub token is invalid."))
  else if isinstance e OctopusRequestFailed then
    ([HandleError e],
     inr (answer ("The request to the Octopus API failed. "
                  +:+ "Either your API key is invalid, or there was an issue contacting the server.")))
  else if isinstance e GitHubRequestFailed then
    ([HandleError e],
     inr (answer ("The request to the GitHub API failed. "
                  +:+ "Your GitHub token is likely to be invalid.")))
  else if isinstance e NotAuthorized then
    ([], inr (answer "You are not authorized."))
  else if isinstance e SpaceNotFound then
    ([], inr (answer ("The space " +:+ dq +:+ space_name e +:+ dq +:+ " was not found. "
                      +:+ "Either the space does not exist or the API key does not "
                      +:+ "have permissions to access it.")))
  else if isinstance e ResourceNotFound then
    ([], inr (answer ("The " +:+ resource_type e +:+ " " +:+ dq +:+ resource_name e +:+ dq
                      +:+ " was not found. "
                      +:+ "Either the resource does not exist or the API key does not "
                      +:+ "have permissions to access it.")))
  else if isinstance e UserNotConfigured || isinstance e OctopusApiKeyInvalid then
    let '(ev, response) := request_config_details in (ev, inr response)
  else if isinstance e ValueError then
    ([], inr (answer NO_FUNCTION_RESPONSE))
  else if isinstance e Exception then
    ([HandleError e],
     inr (answer "An unexpected error was thrown. This error has been logged. I'm sorry for the inconvenience."))
  else ([], inl e).

(** [copilot_handler_internal(req)] *)
Definition copilot_handler_internal (req : HttpRequest) : list event * (exc + HttpResponse) :=
  match handler_body req with
  | (ev, inr response) => (ev, inr response)
  | (ev, inl e) =>
      let '(ev', r) := handle_exception e in (ev ++ ev', r)
  end.

End Handler.

(** *** The error taxonomy *)

(** The classes the [except] clauses name, the last one catching every
    other [Exception]. *)
Definition taxonomy : list cls :=
  [UserNotLoggedIn; OctopusRequestFailed; GitHubRequestFailed; NotAuthorized;
   SpaceNotFound; ResourceNotFound; UserNotConfigured; OctopusApiKeyInvalid;
   ValueError; Exception].

(** No query was dispatched to the language model. *)
Definition no_dispatch (events : list event) : Prop :=
  ∀ query, LlmToolQuery query ∉ events.

(** *** The streaming wire format *)

(** A body is framed as an event stream when it is made of [data:]
    lines and ends with the blank line that closes an event. *)
Definition sse_framed (body : string) : Prop :=
  String.prefix "data: " body = true ∧ ∃ front, body = front +:+ nl +:+ nl.

(** A well-formed stream response. *)
Definition stream_response (r : HttpResponse) : Prop :=
  sse_framed (response_body r)
  ∧ headers r !! "Content-Type" = Some "text/event-stream"
  ∧ headers r !! "Cache-Control" = Some "no-cache".

End FunctionApp.

(* ===================================================================== *)
(** ** A small platform to run the code on *)
(* ===================================================================== *)

Module Demo.
Import Deployments.

(** Dates are written year-month-day; the digits, read as a number,
    order them.  Anything else does not parse. *)
Fixpoint parse_digits (s : string) (acc : Z) : exc + Z :=
  match s with
  | EmptyString => inr acc
  | String c s' =>
      let n := Z.of_nat (nat_of_ascii c) in
      if (n =? 45) then parse_digits s' acc
      else if (48 <=? n) && (n <=? 57) then parse_digits s' (10 * acc + (n - 48))
      else inl (Raised "ParserError")
  end.

#[export] Instance helpers : Helpers := {|
  Names := list string;
  sanitize_list := λ names, names;
  parse_unknown_format_date := λ s, parse_digits s 0;
  get_key_or_none := λ r _, resource_Name r;
  strip_markdown_urls := λ notes, notes;
  ensure_string_not_empty := λ s message,
    if Py.truthy_str s then inr tt else inl (ValueError message) |}.

Definition release1 : Release :=
  {| release_Id := "Releases-1"; release_Version := "1.0.0"; release_ReleaseNotes := None |}.
Definition release2 : Release :=
  {| release_Id := "Releases-2"; release_Version := "1.0.1"; release_ReleaseNotes := Some "fix" |}.
Definition release3 : Release :=
  {| release_Id := "Releases-3"; release_Version := "1.1.0"; release_ReleaseNotes := None |}.

Definition deployment (id env : string) (tenant : option string) (created : string)
    : Deployment :=
  {| deployment_Id := id;
     deployment_EnvironmentId := env;
     deployment_TenantId := tenant;
     deployment_Created := created;
     deployment_TaskId := Some "ServerTasks-1";
     deployment_ChannelId := "Channels-1";
     deployment_ReleaseId := "Releases";
     deployment_DeployedBy := Some "admin" |}.

Definition d1 := deployment "Deployments-1" "Environments-1" None "2024-01-01".
Definition d2 := deployment "Deployments-2" "Environments-2" None "2024-01-05".
Definition d3 := deployment "Deployments-3" "Environments-1" (Some "Tenants-1") "2024-01-10".
Definition d4 := deployment "Deployments-4" "Environments-1" None "2024-01-20".
Definition d5 := deployment "Deployments-5" "Environments-2" None "not a date".

Definition server : Platform := {|
  get_project := λ _ name, inr {| project_Id := "Projects-1"; project_Name := name |};
  get_project_releases := λ _ _ _, inr [release1; release2; release3];
  get_environment_cached := λ _ name,
    if String.eqb name "Dev" then
      inr {| resource_Id := "Environments-1"; resource_Name := Some "Dev" |}
    else if String.eqb name "Prod" then
      inr {| resource_Id := "Environments-2"; resource_Name := Some "Prod" |}
    else inl (Raised "ResourceNotFound");
  get_tenant_cached := λ _ name,
    if String.eqb name "Contoso" then
      inr {| resource_Id := "Tenants-1"; resource_Name := Some "Contoso" |}
    else inl (Raised "ResourceNotFound");
  get_release_deployments := λ _ release_id,
    if String.eqb release_id "Releases-1" then inr [d1; d2]
    else if String.eqb release_id "Releases-2" then inr [d3; d4]
    else if String.eqb release_id "Releases-3" then inr [d5]
    else inl (Raised "OctopusRequestFailed");
  get_task := λ _ _, inr {| task_State := "Success"; task_Duration := "1 minute" |};
  get_channel_cached := λ _ id, inr {| channel_Id := id; channel_Name := "Default" |} |}.

Definition start : World := {| platform := server; calls := [] |}.

(** A call for the project [Web] in the space [Spaces-1]. *)
Definition run (environment_names tenant_names : list string)
    (dates : option (list string)) (max_results : Z) : World * (exc + Result) :=
  get_deployments_for_project "Spaces-1" "Web" environment_names tenant_names
    "API-KEY" "https://octopus.example" dates max_results start.

End Demo.

(* ===================================================================== *)
(** ** Collaborators to run the handler with *)
(* ===================================================================== *)

Module DemoApp.
Import Py FunctionApp.

(** An instance of a class of the taxonomy, derived from [Exception]. *)
Definition raised (c : cls) (space type name : string) : exc :=
  {| exc_classes := [c; Exception; BaseException];
     space_name := space; resource_type := type; resource_name := name |}.

(** One event with one [data:] line. *)
Definition one_event (message : string) : string :=
  "data: " +:+ message +:+ nl +:+ nl.

(** A parser that knows two bodies: a chat with one blank message and a
    chat that asks for the projects; anything else is malformed. *)
Definition parse_body (body_raw : string) : exc + value :=
  if String.eqb body_raw "{blank}" then
    inr (VDict {[ "messages" := VList [VDict {[ "content" := VStr "   " ]}] ]})
  else if String.eqb body_raw "{projects}" then
    inr (VDict {[ "messages" := VList [VDict {[ "content" := VStr " List projects " ]}] ]})
  else inl (raised ValueError "" "" "").

(** A dispatcher whose tool fails to find the space of every query but
    one. *)
Definition dispatch (query : string) : exc + string :=
  if String.eqb query "List projects" then inr "Project1"
  else inl (raised SpaceNotFound "Nowhere" "" "").

#[export] Instance collaborators : Collaborators := {|
  convert_to_sse_response := one_event;
  NO_FUNCTION_RESPONSE := "Sorry, I did not understand that request.";
  json_loads := parse_body;
  llm_tool_query := dispatch;
  environ := ∅;
  quote := λ s, s |}.

Definition post (body_raw : string) : HttpRequest :=
  {| params := ∅; body := body_raw |}.

Definition form (message : string) : HttpRequest :=
  {| params := {[ "message" := message ]}; body := "" |}.

End DemoApp.

(** The same platform, except that the payload of an environment has
    no name. *)

Module DemoNameless.
Import Deployments.

Definition server : Platform := {|
  get_project := get_project Demo.server;
  get_project_releases := get_project_releases Demo.server;
  get_environment_cached := λ _ name,
    inr {| resource_Id := "Environments-1"; resource_Name := None |};
  get_tenant_cached := get_tenant_cached Demo.server;
  get_release_deployments := get_release_deployments Demo.server;
  get_task := get_task Demo.server;
  get_channel_cached := get_channel_cached Demo.server |}.

Definition run (environment_names tenant_names : list string)
    (dates : option (list string)) (max_results : Z) : World * (exc + Result) :=
  get_deployments_for_project (H := Demo.helpers) "Spaces-1" "Web"
    environment_names tenant_names "API-KEY" "https://octopus.example" dates max_results
    {| platform := server; calls := [] |}.

End DemoNameless.

(* ===================================================================== *)
(** ** get_deployments_for_project: further notions *)
(* ===================================================================== *)

Module DeploymentsNotions.
Import Deployments.

Section Notions.
Context `{Helpers}.

(** What [get_key_or_none(next(filter(pred, resources)), "Name") if
    resources else None] evaluates to. *)
Definition name_value (P : Resource → Prop) `{∀ x, Decision (P x)}
    (resources : list Resource) : exc + option string :=
  match resources with
  | [] => inr None
  | _ =>
      match filter P resources with
      | r :: _ => inr (get_key_or_none r "Name")
      | [] => inl StopIteration
      end
  end.


(** The environment and tenant names a record carries, given the
    resources the requested names were resolved to. *)
Definition names_filled (environments tenants : list Resource) (record : DeploymentRecord)
    : Prop :=
  name_value (λ env, resource_Id env = EnvironmentId record) environments
    = inr (EnvironmentName record)
  ∧ name_value (λ tenant, Some (resource_Id tenant) = TenantId record) tenants
    = inr (TenantName record).

(** The lookups of the enrichment among recorded calls: those of a
    task and those of a channel. *)
Definition is_lookup (c : ApiCall) : bool :=
  match c with
  | CallGetTask _ _ | CallGetChannelCached _ _ => true
  | _ => false
  end.

Definition lookups (cs : list ApiCall) : list ApiCall := List.filter is_lookup cs.

(** The lookups that the enrichment of one deployment makes, read off
    the record built from it: that of its task, when it has a task id
    that is not empty, and then that of its channel. *)
Definition lookups_of (space_id : string) (record : DeploymentRecord) : list ApiCall :=
  match TaskId record with
  | Some task_id =>
      if Py.truthy_str task_id then [CallGetTask space_id task_id] else []
  | None => []
  end
  ++ [CallGetChannelCached space_id (ChannelId record)].

(** A record was built from one deployment of one release: it copies
    their fields, the name of the deployment's channel and, when the
    deployment has a task, the state and the duration of that task, as
    the platform [p] reports them. *)
Definition built_from (p : Platform) (space_id : string) (release : Release)
    (deployment : Deployment) (record : DeploymentRecord) : Prop :=
  ReleaseVersion record = release_Version release
  ∧ ReleaseNotes record = strip_markdown_urls (release_ReleaseNotes release)
  ∧ DeploymentId record = deployment_Id deployment
  ∧ ReleaseId record = deployment_ReleaseId deployment
  ∧ TaskId record = deployment_TaskId deployment
  ∧ ChannelId record = deployment_ChannelId deployment
  ∧ Created record = deployment_Created deployment
  ∧ DeployedBy record = deployment_DeployedBy deployment
  ∧ (∃ channel,
       get_channel_cached p space_id (deployment_ChannelId deployment) = inr channel
       ∧ ChannelName record = channel_Name channel)
  ∧ match has_task deployment with
    | Some task_id =>
        ∃ task, get_task p space_id task_id = inr task
                ∧ TaskState record = Some (task_State task)
                ∧ TaskDuration record = Some (task_Duration task)
    | None => TaskState record = None ∧ TaskDuration record = None
    end.

(** A record joins a release of the project with a deployment that the
    platform lists under that release. *)
Definition joins_release_and_deployment (p : Platform) (space_id project_name : string)
    (record : DeploymentRecord) : Prop :=
  ∃ project releases release items deployment,
    get_project p space_id project_name = inr project
    ∧ get_project_releases p space_id (project_Id project) 100 = inr releases
    ∧ release ∈ releases
    ∧ get_release_deployments p space_id (release_Id release) = inr items
    ∧ deployment ∈ items
    ∧ built_from p space_id release deployment record.

End Notions.

End DeploymentsNotions.

(* ===================================================================== *)
(** ** Python strings: further notions *)
(* ===================================================================== *)

Module PyNotions.
Import Py.

(** A text that is empty or starts with a character that is not white
    space. *)
Definition starts_clean (s : string) : Prop :=
  match s with
  | EmptyString => True
  | String c _ => isspace c = false
  end.

End PyNotions.

(** ** A deployment without credentials *)

(** Collaborators of a deployment in which no user has stored
    credentials and no redirect address is configured: every dispatch
    raises [UserNotConfigured]. *)

Module DemoNotConfigured.
Import Py FunctionApp.

Definition dispatch (query : string) : exc + string :=
  inl (DemoApp.raised UserNotConfigured "" "" "").

Definition collaborators : Collaborators := {|
  convert_to_sse_response := DemoApp.one_event;
  NO_FUNCTION_RESPONSE := "Sorry, I did not understand that request.";
  json_loads := DemoApp.parse_body;
  llm_tool_query := dispatch;
  environ := ∅;
  quote := λ s, s |}.

End DemoNotConfigured.

(* ===================================================================== *)
(** ** Functions that call imported functions and may raise *)
(* ===================================================================== *)

(** The functions of [function_app.py] below are modelled as
    computations that append to the list of the calls made so far and
    return a value or raise. *)

Module Calls.
Import FunctionApp.
Import Eff.

Section Calls.
Context {call : Type}.

Definition M : Type → Type := Eff.M (list call) exc.

(** One call of an imported function. *)
Definition invoke {A} (c : call) (r : exc + A) : M A := λ made, (made ++ [c], r).

(** [try: m except c as e: handler]: only an instance of [c] is
    caught, and the handler runs after what [m] did. *)
Definition try_except {A} (m : M A) (c : cls) (handler : exc → M A) : M A :=
  λ made,
    match m made with
    | (made', inl e) => if isinstance e c then handler e made' else (made', inl e)
    | done => done
    end.

(** The handler of the first [except] clause that names a class of the
    exception; a clause may name several classes. *)
Fixpoint first_clause {A} (e : exc) (clauses : list (list cls * (exc → M A)))
    : option (exc → M A) :=
  match clauses with
  | [] => None
  | (classes, handler) :: rest =>
      if existsb (isinstance e) classes then Some handler else first_clause e rest
  end.

(** [try: m except ... : ... except ... : ...]: an exception raised by
    a handler is not caught by a later clause. *)
Definition try_clauses {A} (m : M A) (clauses : list (list cls * (exc → M A))) : M A :=
  λ made,
    match m made with
    | (made', inl e) =>
        match first_clause e clauses with
        | Some handler => handler e made'
        | None => (made', inl e)
        end
    | done => done
    end.

End Calls.

Arguments M : clear implicits.

End Calls.

(* ===================================================================== *)
(** ** function_app.py: get_api_key_and_url *)
(* ===================================================================== *)

Module Credentials.
Import Py FunctionApp.
Import Eff Eff.Notations Calls.

(** [azure.core.exceptions.HttpResponseError] *)
Definition HttpResponseError : cls := OtherClass "HttpResponseError".

(** The calls the function makes, with their arguments, and the lines
    it writes through [logger.info]. *)
Inductive call : Type :=
  | GetGithubUser (token : option string)
  | GetFunctionsConnectionString
  | GetUsersDetails (github_username : value) (connection_string : string)
  | GeneratePassword (password salt : option string)
  | DecryptEax (password api_key tag nonce : value) (salt : option string)
  | Info (message : string).

(** The imported functions, the process environment and the bases of
    the exception classes, none of which is part of the sources. *)
Class Services := {
  bases : cls → list cls;
  get_github_user : option string → exc + value;
  get_functions_connection_string : exc + string;
  get_users_details : value → string → exc + gmap string value;
  generate_password : option string → option string → exc + value;
  decrypt_eax : value → value → value → value → option string → exc + value;
  environ_get : string → option string }.

Abbreviation M := (Calls.M call).

(** [logger.info(message)] *)
Definition logger_info (message : string) : M unit := invoke (Info message) (inr tt).

(** [bool(headers.get(name))]: a header that is absent or empty is
    falsy. *)
Definition truthy_header (v : option string) : bool :=
  match v with
  | Some s => truthy_str s
  | None => false
  end.

(** [d[key]] on the stored record. *)
Definition subscript (d : gmap string value) (key : string) : M value :=
  match d !! key with
  | Some v => ret v
  | None => raise (builtin KeyError)
  end.

Section GetApiKeyAndUrl.
Context `{Services}.
(** [req.headers], with the header names as the function spells
    them. *)
Variable headers : gmap string string.

(** [C()]: a new instance of an exception class, which is an instance
    of the class and of all its bases. *)
Definition new (c : cls) : exc :=
  {| exc_classes := c :: bases c;
     space_name := ""; resource_type := ""; resource_name := "" |}.

(**
<<
    def get_apikey_and_server():
        api_key = req.headers.get("X-Octopus-ApiKey")
        server = req.headers.get("X-Octopus-Server")
        return api_key, server
>>
*)
Definition get_apikey_and_server : option string * option string :=
  (headers !! "X-Octopus-ApiKey", headers !! "X-Octopus-Server").

(**
<<
    def get_github_token():
        return req.headers.get("X-GitHub-Token")

    def get_github_user_from_form():
        return get_github_user(get_github_token())
>>
*)
Definition get_github_token : option string := headers !! "X-GitHub-Token".

Definition get_github_user_from_form : M value :=
  invoke (GetGithubUser get_github_token) (get_github_user get_github_token).

(** One of the four keys is not in the stored record. *)
Definition not_configured (github_user : gmap string value) : bool :=
  negb (bool_decide (is_Some (github_user !! "OctopusUrl")))
  || negb (bool_decide (is_Some (github_user !! "OctopusApiKey")))
  || negb (bool_decide (is_Some (github_user !! "EncryptionTag")))
  || negb (bool_decide (is_Some (github_user !! "EncryptionNonce"))).

(** The inner [try] block:
<<
            try:
                github_user = get_users_details(github_username, get_functions_connection_string())
                if "OctopusUrl" not in github_user or "OctopusApiKey" not in github_user or "EncryptionTag" not in github_user or "EncryptionNonce" not in github_user:
                    logger.info("No OctopusUrl, OctopusApiKey, EncryptionTag, or EncryptionNonce")
                    raise UserNotConfigured()
            except HttpResponseError as e:
                raise UserNotConfigured()
>>
*)
Definition stored_details (github_username : value) : M (gmap string value) :=
  try_except
    (let* connection_string :=
       invoke GetFunctionsConnectionString get_functions_connection_string in
     let* github_user :=
       invoke (GetUsersDetails github_username connection_string)
              (get_users_details github_username connection_string) in
     if not_configured github_user then
       logger_info "No OctopusUrl, OctopusApiKey, EncryptionTag, or EncryptionNonce" ;;
       raise (new UserNotConfigured)
     else ret github_user)
    HttpResponseError
    (λ _, raise (new UserNotConfigured)).

(** The outer [try] block.  A header that is truthy is present, so the
    defaults of the first branch are never used. *)
Definition lookup : M (value * value) :=
  let '(api_key, server) := get_apikey_and_server in
  if truthy_header api_key && truthy_header server then
    ret (VStr (default "" api_key), VStr (default "" server))
  else
    let* github_username := get_github_user_from_form in
    if negb (truthy github_username) then raise (new UserNotLoggedIn)
    else
      let* github_user := stored_details github_username in
      let* tag := subscript github_user "EncryptionTag" in
      let* nonce := subscript github_user "EncryptionNonce" in
      let* api_key := subscript github_user "OctopusApiKey" in
      let password := environ_get "ENCRYPTION_PASSWORD" in
      let salt := environ_get "ENCRYPTION_SALT" in
      let* generated := invoke (GeneratePassword password salt) (generate_password password salt) in
      let* decrypted_api_key :=
        invoke (DecryptEax generated api_key tag nonce salt)
               (decrypt_eax generated api_key tag nonce salt) in
      let* url := subscript github_user "OctopusUrl" in
      ret (decrypted_api_key, url).

(**
<<
    def get_api_key_and_url():
        try:
            ...
        except ValueError as e:
            logger.info("Encryption password must have changed because the api key could not be decrypted")
            raise OctopusApiKeyInvalid()
>>
*)
Definition get_api_key_and_url : M (value * value) :=
  try_except lookup ValueError
    (λ _,
       logger_info
         "Encryption password must have changed because the api key could not be decrypted" ;;
       raise (new OctopusApiKeyInvalid)).

End GetApiKeyAndUrl.

(** *** Notions used by the properties *)

Section Notions.
Context `{Services}.

(** An exception one of the imported functions raised. *)
Definition from_service (e : exc) : Prop :=
  (∃ token, get_github_user token = inl e)
  ∨ get_functions_connection_string = inl e
  ∨ (∃ username connection, get_users_details username connection = inl e)
  ∨ (∃ password salt, generate_password password salt = inl e)
  ∨ (∃ password api_key tag nonce salt, decrypt_eax password api_key tag nonce salt = inl e).

(** The stored key was handed to the decryption. *)
Definition is_decryption (c : call) : bool :=
  match c with
  | GeneratePassword _ _ | DecryptEax _ _ _ _ _ => true
  | _ => false
  end.

(** The key and the address are those stored for the GitHub user of the
    token: the user was identified, a complete record was fetched for
    that user, and the key is the stored key, decrypted with the
    password and the salt of the environment.  [calls] are the calls
    this takes, in order. *)
Definition from_store (headers : gmap string string) (key url : value)
    (calls : list call) : Prop :=
  let token := headers !! "X-GitHub-Token" in
  let password := environ_get "ENCRYPTION_PASSWORD" in
  let salt := environ_get "ENCRYPTION_SALT" in
  ∃ username connection_string github_user generated api_key tag nonce,
    get_github_user token = inr username
    ∧ truthy username = true
    ∧ get_functions_connection_string = inr connection_string
    ∧ get_users_details username connection_string = inr github_user
    ∧ github_user !! "OctopusUrl" = Some url
    ∧ github_user !! "OctopusApiKey" = Some api_key
    ∧ github_user !! "EncryptionTag" = Some tag
    ∧ github_user !! "EncryptionNonce" = Some nonce
    ∧ generate_password password salt = inr generated
    ∧ decrypt_eax generated api_key tag nonce salt = inr key
    ∧ calls = [GetGithubUser token; GetFunctionsConnectionString;
               GetUsersDetails username connection_string;
               GeneratePassword password salt;
               DecryptEax generated api_key tag nonce salt].

(** Both credential headers are present and not empty. *)
Definition credentials_in_headers (headers : gmap string string) : bool :=
  truthy_header (headers !! "X-Octopus-ApiKey") && truthy_header (headers !! "X-Octopus-Server").

(** The request without the two headers that carry credentials. *)
Definition without_credentials (headers : gmap string string) : gmap string string :=
  delete "X-Octopus-ApiKey" (delete "X-Octopus-Server" headers).

End Notions.

End Credentials.

(** A store with one configured user, one user without a record and a
    token the lookup of the user rejects. *)

Module DemoCredentials.
Import Py FunctionApp Credentials.

Definition demo_bases (c : cls) : list cls := [Exception; BaseException].

Definition lookup_user (token : option string) : exc + value :=
  match token with
  | Some "token-ada" => inr (VStr "ada")
  | Some "token-bob" => inr (VStr "bob")
  | Some "token-eve" => inr (VStr "eve")
  | Some _ => inl (DemoApp.raised GitHubRequestFailed "" "" "")
  | None => inl (builtin ValueError)
  end.

Definition ada : gmap string value :=
  {[ "OctopusUrl" := VStr "https://ada.example.org";
     "OctopusApiKey" := VStr "c2VjcmV0";
     "EncryptionTag" := VStr "tag";
     "EncryptionNonce" := VStr "nonce" ]}.

Definition details (username : value) (connection : string) : exc + gmap string value :=
  match username with
  | VStr "ada" => inr ada
  | VStr "bob" => inr {[ "OctopusUrl" := VStr "https://bob.example.org" ]}
  | _ => inl (DemoApp.raised HttpResponseError "" "" "")
  end.

Definition decrypt (password api_key tag nonce : value) (salt : option string) : exc + value :=
  match password with
  | VStr "pw/salt" => inr (VStr "API-ADA")
  | _ => inl (builtin ValueError)
  end.

Definition services (password : option string) : Services := {|
  bases := demo_bases;
  get_github_user := lookup_user;
  get_functions_connection_string := inr "UseDevelopmentStorage=true";
  get_users_details := details;
  generate_password := λ password salt,
    inr (VStr (default "" password +:+ "/" +:+ default "" salt));
  decrypt_eax := decrypt;
  environ_get := λ name,
    if String.eqb name "ENCRYPTION_PASSWORD" then password
    else if String.eqb name "ENCRYPTION_SALT" then Some "salt" else None |}.

Definition token (t : string) : gmap string string := {[ "X-GitHub-Token" := t ]}.

End DemoCredentials.

(* ===================================================================== *)
(** ** function_app.py: login_submit *)
(* ===================================================================== *)

Module Login.
Import Py FunctionApp.
Import Eff Eff.Notations Calls.

(** The calls [login_submit] makes, with their arguments;
    [ErrorHandled e] is [handle_error(e)], which logs and returns. *)
Inductive call : Type :=
  | ExtractSessionBlob (state password salt : option string)
  | GetCurrentUser (api url : value)
  | CreateLimitedApiKey (user api url : value)
  | GetFunctionsConnectionString
  | SaveUsersOctopusUrlFromLogin (user_id url api_key : value) (password salt : option string)
      (connection_string : string)
  | ErrorHandled (e : exc).

(** The imported functions and the process environment. *)
Class Services := {
  json_loads : string → exc + value;
  extract_session_blob : option string → option string → option string → exc + value;
  get_current_user : value → value → exc + value;
  create_limited_api_key : value → value → value → exc + value;
  get_functions_connection_string : exc + string;
  save_users_octopus_url_from_login :
    value → value → value → option string → option string → string → exc + unit;
  environ_get : string → option string }.

Abbreviation M := (Calls.M call).

(** [v[key]] for a [str] key: a [dict] without the key raises
    [KeyError]; a [list] and a [str] take no [str] index and the other
    values take no index at all, which are [TypeError]s. *)
Definition getitem (v : value) (key : string) : M value :=
  match v with
  | VDict d =>
      match d !! key with
      | Some x => ret x
      | None => raise (builtin KeyError)
      end
  | _ => raise (builtin TypeError)
  end.

(** [v != s] for a [str] [s]: a value that is not a [str] differs from
    every [str]. *)
Definition differs (v : value) (s : string) : bool :=
  match v with
  | VStr t => negb (String.eqb t s)
  | _ => true
  end.

(** [func.HttpResponse(body, status_code=status)] *)
Definition plain_response (body : string) (status : Z) : HttpResponse :=
  {| response_body := body; status_code := status; headers := ∅ |}.

Section LoginSubmit.
Context `{Services}.

(** The [try] block:
<<
        body = json.loads(req.get_body())
        user_id = extract_session_blob(req.params.get("state"),
                                       os.environ.get("ENCRYPTION_PASSWORD"),
                                       os.environ.get("ENCRYPTION_SALT"))
        user = get_current_user(body['api'], body['url'])
        api_key = create_limited_api_key(user, body['api'], body['url']) if body['api'] != "API-GUEST" else "API-GUEST"
        save_users_octopus_url_from_login(user_id,
                                          body['url'],
                                          api_key,
                                          os.environ.get("ENCRYPTION_PASSWORD"),
                                          os.environ.get("ENCRYPTION_SALT"),
                                          get_functions_connection_string())
        return func.HttpResponse(status_code=201)
>>
*)
Definition submit (req : HttpRequest) : M HttpResponse :=
  let password := environ_get "ENCRYPTION_PASSWORD" in
  let salt := environ_get "ENCRYPTION_SALT" in
  let* body := lift (json_loads (FunctionApp.body req)) in
  let* user_id :=
    invoke (ExtractSessionBlob (params req !! "state") password salt)
           (extract_session_blob (params req !! "state") password salt) in
  let* api := getitem body "api" in
  let* url := getitem body "url" in
  let* user := invoke (GetCurrentUser api url) (get_current_user api url) in
  let* api := getitem body "api" in
  let* api_key :=
    if differs api "API-GUEST" then
      let* api := getitem body "api" in
      let* url := getitem body "url" in
      invoke (CreateLimitedApiKey user api url) (create_limited_api_key user api url)
    else ret (VStr "API-GUEST") in
  let* url := getitem body "url" in
  let* connection_string :=
    invoke GetFunctionsConnectionString get_functions_connection_string in
  invoke (SaveUsersOctopusUrlFromLogin user_id url api_key password salt connection_string)
         (save_users_octopus_url_from_login user_id url api_key password salt connection_string) ;;
  ret (plain_response "" 201).

(** [handle_error(e)] followed by a response. *)
Definition failed (body : string) (status : Z) (e : exc) : M HttpResponse :=
  invoke (ErrorHandled e) (inr tt) ;;
  ret (plain_response body status).

(**
<<
    try:
        ...
    except (OctopusRequestFailed, OctopusApiKeyInvalid, ValueError) as e:
        handle_error(e)
        return func.HttpResponse("Failed to generate temporary key", status_code=400)
    except Exception as e:
        handle_error(e)
        return func.HttpResponse("Failed to read form HTML", status_code=500)
>>
*)
Definition login_submit (req : HttpRequest) : M HttpResponse :=
  try_clauses (submit req)
    [([OctopusRequestFailed; OctopusApiKeyInvalid; ValueError],
      failed "Failed to generate temporary key" 400);
     ([Exception], failed "Failed to read form HTML" 500)].

End LoginSubmit.

(** *** Notions used by the properties *)

(** A call that stores credentials. *)
Definition is_save (c : call) : bool :=
  match c with
  | SaveUsersOctopusUrlFromLogin _ _ _ _ _ _ => true
  | _ => false
  end.

(** A call that creates a temporary key. *)
Definition is_create (c : call) : bool :=
  match c with
  | CreateLimitedApiKey _ _ _ => true
  | _ => false
  end.

(** An error handed to [handle_error]. *)
Definition is_error (c : call) : bool :=
  match c with
  | ErrorHandled _ => true
  | _ => false
  end.

Section Notions.
Context `{Services}.

(** An exception one of the imported functions raised. *)
Definition from_service (e : exc) : Prop :=
  (∃ body_raw, json_loads body_raw = inl e)
  ∨ (∃ state password salt, extract_session_blob state password salt = inl e)
  ∨ (∃ api url, get_current_user api url = inl e)
  ∨ (∃ user api url, create_limited_api_key user api url = inl e)
  ∨ get_functions_connection_string = inl e
  ∨ (∃ user_id url api_key password salt connection_string,
       save_users_octopus_url_from_login user_id url api_key password salt connection_string
       = inl e).

(** The calls of a submission that reaches the store, and the facts
    about their arguments: the key and the address were read from the
    parsed body, the user was identified with them, and the key that
    is stored is the guest key for a guest and otherwise the temporary
    key that was created for the user. *)
Definition reaches_store (req : HttpRequest) (calls : list call) (save : call) : Prop :=
  let password := environ_get "ENCRYPTION_PASSWORD" in
  let salt := environ_get "ENCRYPTION_SALT" in
  ∃ (d : gmap string value) api url user_id user api_key connection_string,
    json_loads (body req) = inr (VDict d)
    ∧ d !! "api" = Some api
    ∧ d !! "url" = Some url
    ∧ extract_session_blob (params req !! "state") password salt = inr user_id
    ∧ get_current_user api url = inr user
    ∧ (if differs api "API-GUEST"
       then create_limited_api_key user api url = inr api_key
       else api = VStr "API-GUEST" ∧ api_key = VStr "API-GUEST")
    ∧ get_functions_connection_string = inr connection_string
    ∧ save = SaveUsersOctopusUrlFromLogin user_id url api_key password salt connection_string
    ∧ calls = [ExtractSessionBlob (params req !! "state") password salt;
               GetCurrentUser api url]
              ++ (if differs api "API-GUEST" then [CreateLimitedApiKey user api url] else [])
              ++ [GetFunctionsConnectionString; save].

(** What storing the credentials returned or raised. *)
Definition save_outcome (save : call) : exc + unit :=
  match save with
  | SaveUsersOctopusUrlFromLogin user_id url api_key password salt connection_string =>
      save_users_octopus_url_from_login user_id url api_key password salt connection_string
  | _ => inr tt
  end.

End Notions.

End Login.

(** A server that knows one API key and accepts guests. *)

Module DemoLogin.
Import Py FunctionApp Login.

Definition parse (body_raw : string) : exc + value :=
  if String.eqb body_raw "{ada}" then
    inr (VDict {[ "api" := VStr "API-ADA"; "url" := VStr "https://ada.example.org" ]})
  else if String.eqb body_raw "{guest}" then
    inr (VDict {[ "api" := VStr "API-GUEST"; "url" := VStr "https://demo.example.org" ]})
  else if String.eqb body_raw "{no-url}" then
    inr (VDict {[ "api" := VStr "API-ADA" ]})
  else inl (DemoApp.raised ValueError "" "" "").

Definition current_user (api url : value) : exc + value :=
  match api with
  | VStr "API-ADA" => inr (VStr "Users-1")
  | VStr "API-GUEST" => inr (VStr "Users-guest")
  | _ => inl (DemoApp.raised OctopusRequestFailed "" "" "")
  end.

#[export] Instance services : Services := {|
  json_loads := parse;
  extract_session_blob := λ state _ _,
    match state with
    | Some s => inr (VStr s)
    | None => inl (builtin ValueError)
    end;
  get_current_user := current_user;
  create_limited_api_key := λ user api url, inr (VStr "API-TEMPORARY");
  get_functions_connection_string := inr "UseDevelopmentStorage=true";
  save_users_octopus_url_from_login := λ _ _ _ _ _ _, inr tt;
  environ_get := λ name, Some "secret" |}.

Definition form (state body_raw : string) : HttpRequest :=
  {| params := {[ "state" := state ]}; body := body_raw |}.

End DemoLogin.

(* ===================================================================== *)
(** ** function_app.py: submit_query and query_parse *)
(* ===================================================================== *)

Module Handlers.
Import Py FunctionApp.
Import Eff Eff.Notations Calls.

(** [domain.exceptions.openai_error] *)
Definition OpenAIContentFilter : cls := OtherClass "OpenAIContentFilter".
Definition OpenAITokenLengthExceeded : cls := OtherClass "OpenAITokenLengthExceeded".

(** The dispatch of a query to the language model with the tools of
    each handler, [llm_tool_query(query, tools, log_query).call_function()],
    and [json.dumps]. *)
Class Tools := {
  submit_query_tools : string → exc + string;
  query_parse_tools : string → exc + value;
  json_dumps : value → exc + string }.

Abbreviation M := (Calls.M event).

(** A response and the [mimetype] it was built with, if any. *)
Record Response := {
  http : HttpResponse;
  mimetype : option string }.

Section Handlers.
Context `{Collaborators} `{Tools}.

(** [extract_query(req)], after what was done before. *)
Definition extract (req : HttpRequest) : M string :=
  λ made, let '(events, r) := extract_query req in (made ++ events, r).

(** [handle_error(e)] followed by [func.HttpResponse(body, status_code=status)]. *)
Definition failed (body : string) (status : Z) (e : exc) : M HttpResponse :=
  invoke (HandleError e) (inr tt) ;;
  ret {| response_body := body; status_code := status; headers := ∅ |}.

(**
<<
    try:
        query = extract_query(req)

        if not query.strip():
            return func.HttpResponse(
                convert_to_sse_response("Ask a question like \"What are the projects in the space called Default?\""),
                headers=get_sse_headers())
        ...
        result = llm_tool_query(query, get_tools, log_query).call_function()
        return func.HttpResponse(result)
    except OpenAIContentFilter as e:
        handle_error(e)
        return func.HttpResponse(NO_FUNCTION_RESPONSE, status_code=400)
    except OpenAITokenLengthExceeded as e:
        handle_error(e)
        return func.HttpResponse("The query and context exceeded the context window size. This error has been logged.",
                                 status_code=500)
    except Exception as e:
        handle_error(e)
        return func.HttpResponse("An exception was raised. See the logs for more details.",
                                 status_code=500)
>>
*)
Definition submit_query (req : HttpRequest) : M HttpResponse :=
  try_clauses
    (let* query := extract req in
     if negb (truthy_str (strip query)) then
       ret (http_response (convert_to_sse_response sample_question) get_sse_headers)
     else
       let* result := invoke (LlmToolQuery query) (submit_query_tools query) in
       ret (http_response result ∅))
    [([OpenAIContentFilter], failed NO_FUNCTION_RESPONSE 400);
     ([OpenAITokenLengthExceeded],
      failed ("The query and context exceeded the context window size. "
              +:+ "This error has been logged.") 500);
     ([Exception], failed "An exception was raised. See the logs for more details." 500)].

(**
<<
    try:
        query = extract_query(req)

        if not query.strip():
            return func.HttpResponse(
                convert_to_sse_response("Ask a question like \"What are the projects in the space called Default?\""),
                headers=get_sse_headers())
        ...
        result = llm_tool_query(query, lambda q: tools, log_query).call_function()

        return func.HttpResponse(json.dumps(result), mimetype="application/json")
    except Exception as e:
        handle_error(e)
        return func.HttpResponse("An exception was raised. See the logs for more details.",
                                 status_code=500)
>>
*)
Definition query_parse (req : HttpRequest) : M Response :=
  try_clauses
    (let* query := extract req in
     if negb (truthy_str (strip query)) then
       ret {| http := http_response (convert_to_sse_response sample_question) get_sse_headers;
              mimetype := None |}
     else
       let* result := invoke (LlmToolQuery query) (query_parse_tools query) in
       let* dumped := lift (json_dumps result) in
       ret {| http := http_response dumped ∅; mimetype := Some "application/json" |})
    [([Exception],
      λ e, let* response := failed "An exception was raised. See the logs for more details." 500 e in
           ret {| http := response; mimetype := None |})].

End Handlers.

End Handlers.

(** Tools that fail for one query each. *)

Module DemoTools.
Import Py FunctionApp Handlers.

Definition submit (query : string) : exc + string :=
  if String.eqb query "List projects" then inr "Project1"
  else if String.eqb query "Say something rude" then
    inl (DemoApp.raised OpenAIContentFilter "" "" "")
  else inl (DemoApp.raised SpaceNotFound "Nowhere" "" "").

#[export] Instance tools : Tools := {|
  submit_query_tools := submit;
  query_parse_tools := λ query, inr (VDict {[ "space_name" := VStr "Default" ]});
  json_dumps := λ v, inr "{...}" |}.

End DemoTools.

(* ===================================================================== *)
(** ** domain/slack/slack_urls.py *)
(* ===================================================================== *)

Module SlackUrls.
Import Py.

(** The exception the function can leave with. *)
Inductive exc : Type :=
  | TypeError.

Section GenerateSlackLogin.
(** [os.environ] and [urllib.parse.quote] on a [str]. *)
Variable environ : gmap string string.
Variable quote : string → string.

(** [os.environ.get(name)] inside an f-string: an unset variable is
    formatted as [None]. *)
Definition environ_str (name : string) : string :=
  default "None" (environ !! name).

Definition nl : string := String (ascii_of_nat 10) EmptyString.

(**
<<
def generate_slack_login(github_user):
    return (
        f"Log in to Slack to include Slack messages in the context:\n\n[log in](https://slack.com/oauth/v2/authorize?"
        + f"client_id={os.environ.get('SLACK_CLIENT_ID')}"
        + f"&redirect_url={urllib.parse.quote(os.environ.get('SLACK_CLIENT_REDIRECT'))}"
        + f"&user_scope=search:read"
        + f"&state={github_user}"
    )
>>
    [github_user] stands for the text the f-string formats it to.
    [urllib.parse.quote(None)] raises a [TypeError], and nothing
    catches it. *)
Definition generate_slack_login (github_user : string) : exc + string :=
  match environ !! "SLACK_CLIENT_REDIRECT" with
  | None => inl TypeError
  | Some redirect =>
      inr ("Log in to Slack to include Slack messages in the context:" +:+ nl +:+ nl
           +:+ "[log in](https://slack.com/oauth/v2/authorize?"
           +:+ "client_id=" +:+ environ_str "SLACK_CLIENT_ID"
           +:+ "&redirect_url=" +:+ quote redirect
           +:+ "&user_scope=search:read"
           +:+ "&state=" +:+ github_user)
  end.

End GenerateSlackLogin.

(** How often a character occurs in a text. *)
Fixpoint count_char (c : ascii) (s : string) : nat :=
  match s with
  | EmptyString => 0
  | String c' s' => (if Ascii.eqb c c' then 1 else 0) + count_char c s'
  end.

Definition opening : ascii := ascii_of_nat 40.
Definition closing : ascii := ascii_of_nat 41.

(** A percent-encoding of the two characters that matter here. *)
Fixpoint quote_parentheses (s : string) : string :=
  match s with
  | EmptyString => EmptyString
  | String c s' =>
      if Ascii.eqb c opening then "%28" +:+ quote_parentheses s'
      else if Ascii.eqb c closing then "%29" +:+ quote_parentheses s'
      else String c (quote_parentheses s')
  end.

End SlackUrls.

(* ===================================================================== *)
(** ** get_deployments_for_project on the objects of the interpreter *)
(* ===================================================================== *)

(** The payloads of the platform are [dict] and [list] objects that the
    function is handed by reference, and that a caller or a cache may
    hold as well.  This second embedding of the function keeps them in
    a store of objects, so that changing an object in place is a step
    a function can take, on any object it can reach: [list.append]
    writes the list it is applied to.  The store holds the objects the
    function can reach; what the imported functions keep to themselves
    is not part of it. *)

Module DeploymentsHeap.
Import Eff Eff.Notations.

(** Objects are reached by their address. *)
Definition loc : Type := positive.

(** A value is a scalar or a reference to an object. *)
Inductive val : Type :=
  | VNone
  | VBool (b : bool)
  | VInt (z : Z)
  | VFloat (m e : Z)
  | VStr (s : string)
  | VRef (l : loc).

Inductive obj : Type :=
  | ODict (d : gmap string val)
  | OList (items : list val).

Abbreviation store := (gmap loc obj).

Inductive exc : Type :=
  | KeyError (key : string)
  | TypeError
  | AttributeError
  | StopIteration
  | Raised (name : string).

(** What the function itself does to the store: it creates an object
    or changes one in place. *)
Inductive event : Type :=
  | Allocated (l : loc)
  | Wrote (l : loc).

Record State := {
  objects : store;
  events : list event }.

Definition M : Type → Type := Eff.M State exc.

(** *** Steps *)

(** A step that reads the store. *)
Definition read {A} (f : store → exc + A) : M A := λ s, (s, f (objects s)).

(** A call of an imported function, which may create objects. *)
Definition imported {A} (f : store → store * (exc + A)) : M A :=
  λ s, let '(σ, r) := f (objects s) in ({| objects := σ; events := events s |}, r).

(** A [dict] or [list] display: a new object at an address that is not
    in use. *)
Definition alloc (o : obj) : M val :=
  λ s, let l := fresh (dom (objects s)) in
       ({| objects := <[l := o]> (objects s); events := events s ++ [Allocated l] |},
        inr (VRef l)).

(** [target.append(x)]: the list [target] refers to is changed in
    place; only a [list] has the method. *)
Definition append (target x : val) : M unit :=
  λ s, match target with
       | VRef l =>
           match objects s !! l with
           | Some (OList items) =>
               ({| objects := <[l := OList (items ++ [x])]> (objects s);
                   events := events s ++ [Wrote l] |}, inr tt)
           | _ => (s, inl AttributeError)
           end
       | _ => (s, inl AttributeError)
       end.

(** [target[key] = x], the other update in place of a payload that
    Python has; [get_deployments_for_project] has no such statement,
    and the step is here to say what the function does not do. *)
Definition setitem (target : val) (key : string) (x : val) : M unit :=
  λ s, match target with
       | VRef l =>
           match objects s !! l with
           | Some (ODict fields) =>
               ({| objects := <[l := ODict (<[key := x]> fields)]> (objects s);
                   events := events s ++ [Wrote l] |}, inr tt)
           | _ => (s, inl TypeError)
           end
       | _ => (s, inl TypeError)
       end.

(** *** Reading values *)

(** [v[key]] for a [str] key. *)
Definition getitem (v : val) (key : string) (σ : store) : exc + val :=
  match v with
  | VRef l =>
      match σ !! l with
      | Some (ODict d) =>
          match d !! key with
          | Some x => inr x
          | None => inl (KeyError key)
          end
      | _ => inl TypeError
      end
  | _ => inl TypeError
  end.

(** [v.get(key)] *)
Definition dict_get (v : val) (key : string) (σ : store) : exc + val :=
  match v with
  | VRef l =>
      match σ !! l with
      | Some (ODict d) => inr (default VNone (d !! key))
      | _ => inl AttributeError
      end
  | _ => inl AttributeError
  end.

(** [bool(v)] *)
Definition truthy (v : val) (σ : store) : bool :=
  match v with
  | VNone => false
  | VBool b => b
  | VInt z => negb (z =? 0)
  | VFloat m _ => negb (m =? 0)
  | VStr s => Py.truthy_str s
  | VRef l =>
      match σ !! l with
      | Some (ODict d) => negb (bool_decide (d = ∅))
      | Some (OList []) => false
      | _ => true
      end
  end.

(** [len(v)] *)
Definition len (v : val) (σ : store) : exc + nat :=
  match v with
  | VStr s => inr (String.length s)
  | VRef l =>
      match σ !! l with
      | Some (ODict d) => inr (size d)
      | Some (OList items) => inr (length items)
      | None => inl TypeError
      end
  | _ => inl TypeError
  end.

(** The characters of a [str], each a [str]. *)
Fixpoint characters (s : string) : list val :=
  match s with
  | EmptyString => []
  | String c s' => VStr (String c EmptyString) :: characters s'
  end.

(** What [for x in v] visits: the items of a [list], the keys of a
    [dict], the characters of a [str].  The keys come in the order of
    the map, not in the order they were inserted in; every key is a
    [str], and the loops of the function raise on the first [str] they
    visit whichever it is.  The items are those the list has when the
    loop starts: the loops append to no list they iterate over. *)
Definition iterate (v : val) (σ : store) : exc + list val :=
  match v with
  | VStr s => inr (characters s)
  | VRef l =>
      match σ !! l with
      | Some (OList items) => inr items
      | Some (ODict d) => inr (VStr <$> (map_to_list d).*1)
      | None => inl TypeError
      end
  | _ => inl TypeError
  end.

(** [v[:stop]] on a [list] (the one slice the function takes). *)
Definition slice_to (v : val) (stop : Z) (σ : store) : exc + list val :=
  match v with
  | VRef l =>
      match σ !! l with
      | Some (OList items) => inr (Py.slice_to stop items)
      | _ => inl TypeError
      end
  | _ => inl TypeError
  end.

(** *** What lies outside the sources *)

(** The imported functions, and the comparison [==] of two values of a
    payload, which reads them and answers.  A function that is handed a
    value of a payload, or that returns a payload, works on the store;
    the others are handed the arguments of the call only. *)
Class Imports := {
  Names : Type;
  sanitize_list : Names → list string;
  ensure_string_not_empty : string → string → exc + unit;
  py_eq : val → val → store → bool;
  parse_unknown_format_date : val → store → store * (exc + Z);
  get_key_or_none : val → string → store → store * (exc + val);
  strip_markdown_urls : val → store → store * (exc + val);
  get_project : string → string → store → store * (exc + val);
  get_project_releases : string → val → Z → store → store * (exc + val);
  get_environment_cached : string → string → store → store * (exc + val);
  get_tenant_cached : string → string → store → store * (exc + val);
  get_release_deployments : string → val → store → store * (exc + val);
  get_task : string → val → store → store * (exc + val);
  get_channel_cached : string → val → store → store * (exc + val) }.

Section GetDeploymentsForProject.
Context `{Imports}.

(** [lambda x: x["Id"] == deployment[key]] *)
Definition matching_id (key : string) (deployment x : val) : M bool :=
  let* id := read (getitem x "Id") in
  let* wanted := read (getitem deployment key) in
  read (λ σ, inr (py_eq id wanted σ)).

(** [list(filter(pred, l))] *)
Fixpoint filter_m (pred : val → M bool) (l : list val) : M (list val) :=
  match l with
  | [] => ret []
  | x :: rest =>
      let* keep := pred x in
      let* kept := filter_m pred rest in
      ret (if (keep : bool) then x :: kept else kept)
  end.

(** [next(filter(pred, l))]: the predicate is applied up to the first
    match. *)
Fixpoint next_filter (pred : val → M bool) (l : list val) : M val :=
  match l with
  | [] => raise StopIteration
  | x :: rest =>
      let* keep := pred x in
      if (keep : bool) then ret x else next_filter pred rest
  end.

(** [list(map(lambda n: lookup(space_id, n, ...), names)) if names else []] *)
Definition resolve_names (lookup : string → store → store * (exc + val))
    (names : list string) : M (list val) :=
  match names with
  | [] => ret []
  | _ => map_m (λ n, imported (lookup n)) names
  end.

(**
<<
          if len(resources) != 0 and len(
                  list(filter(lambda x: x["Id"] == deployment[key], resources))) == 0:
              continue
>>
*)
Definition mismatch (key : string) (resources : list val) (deployment : val) : M bool :=
  if negb (length resources =? 0)%nat then
    let* found := filter_m (matching_id key deployment) resources in
    ret (length found =? 0)%nat
  else ret false.

(**
<<
          if dates and isinstance(dates, list) and len(dates) == 2:
              created = parse_unknown_format_date(deployment["Created"])
              date1 = parse_unknown_format_date(dates[0])
              date2 = parse_unknown_format_date(dates[1])

              if created < min(date1, date2) or created > max(date1, date2):
                  continue
>>
*)
Definition outside_dates (dates : option (list string)) (deployment : val) : M bool :=
  match dates with
  | Some [d1; d2] =>
      let* text := read (getitem deployment "Created") in
      let* created := imported (parse_unknown_format_date text) in
      let* date1 := imported (parse_unknown_format_date (VStr d1)) in
      let* date2 := imported (parse_unknown_format_date (VStr d2)) in
      ret ((created <? Deployments.py_min date1 date2)
           || (Deployments.py_max date1 date2 <? created))
  | _ => ret false
  end.

(** [get_key_or_none(next(filter(lambda r: r["Id"] == deployment[key], resources)), "Name")
    if resources else None] *)
Definition name_of_match (key : string) (resources : list val) (deployment : val) : M val :=
  match resources with
  | [] => ret VNone
  | _ =>
      let* r := next_filter (matching_id key deployment) resources in
      imported (get_key_or_none r "Name")
  end.

Variable space_id : string.
Variable project : val.
Variable environments tenants : list val.
Variable dates : option (list string).
Variable max_results : Z.
(** The list that line 46 creates. *)
Variable deployments : val.

(** Lines 69 to 98: the task and channel lookups, the values of the
    dictionary in the order they are written, the dictionary, and its
    append to [deployments]. *)
Definition enrich (release deployment : val) : M unit :=
  let* task_id := read (dict_get deployment "TaskId") in
  let* has_task := read (λ σ, inr (truthy task_id σ)) in
  let* task :=
    if (has_task : bool) then
      let* task_id := read (getitem deployment "TaskId") in
      imported (get_task space_id task_id)
    else ret VNone in
  let* channel_id := read (getitem deployment "ChannelId") in
  let* channel := imported (get_channel_cached space_id channel_id) in
  let* ProjectId := read (getitem project "Id") in
  let* ProjectName := read (getitem project "Name") in
  let* ReleaseVersion := read (getitem release "Version") in
  let* DeploymentId := read (getitem deployment "Id") in
  let* TaskId := read (getitem deployment "TaskId") in
  let* TenantId := read (getitem deployment "TenantId") in
  let* TenantName := name_of_match "TenantId" tenants deployment in
  let* ReleaseId := read (getitem deployment "ReleaseId") in
  let* EnvironmentId := read (getitem deployment "EnvironmentId") in
  let* EnvironmentName := name_of_match "EnvironmentId" environments deployment in
  let* ChannelId := read (getitem deployment "ChannelId") in
  let* ChannelName := read (getitem channel "Name") in
  let* Created := read (getitem deployment "Created") in
  let* task_found := read (λ σ, inr (truthy task σ)) in
  let* TaskState := if (task_found : bool) then read (getitem task "State") else ret VNone in
  let* task_found := read (λ σ, inr (truthy task σ)) in
  let* TaskDuration :=
    if (task_found : bool) then read (getitem task "Duration") else ret VNone in
  let* notes := read (getitem release "ReleaseNotes") in
  let* ReleaseNotes := imported (strip_markdown_urls notes) in
  let* DeployedBy := read (getitem deployment "DeployedBy") in
  let* record :=
    alloc (ODict (list_to_map
      [("SpaceId", VStr space_id); ("ProjectId", ProjectId); ("ProjectName", ProjectName);
       ("ReleaseVersion", ReleaseVersion); ("DeploymentId", DeploymentId);
       ("TaskId", TaskId); ("TenantId", TenantId); ("TenantName", TenantName);
       ("ReleaseId", ReleaseId); ("EnvironmentId", EnvironmentId);
       ("EnvironmentName", EnvironmentName); ("ChannelId", ChannelId);
       ("ChannelName", ChannelName); ("Created", Created); ("TaskState", TaskState);
       ("TaskDuration", TaskDuration); ("ReleaseNotes", ReleaseNotes);
       ("DeployedBy", DeployedBy)])) in
  append deployments record.

(** [len(deployments) >= max_results] *)
Definition cap_reached : M bool :=
  let* n := read (len deployments) in
  ret (max_results <=? Z.of_nat n).

(** The inner loop, over the items it has still to visit. *)
Fixpoint scan_deployments (release : val) (items : list val) : M unit :=
  match items with
  | [] => ret tt
  | deployment :: rest =>
      let* other_environment := mismatch "EnvironmentId" environments deployment in
      if (other_environment : bool) then scan_deployments release rest
      else
        let* other_tenant := mismatch "TenantId" tenants deployment in
        if (other_tenant : bool) then scan_deployments release rest
        else
          let* outside := outside_dates dates deployment in
          if (outside : bool) then scan_deployments release rest
          else
            enrich release deployment ;;
            let* reached := cap_reached in
            if (reached : bool) then ret tt else scan_deployments release rest
  end.

(** The outer loop. *)
Fixpoint scan_releases (releases : list val) : M unit :=
  match releases with
  | [] => ret tt
  | release :: rest =>
      let* release_id := read (getitem release "Id") in
      let* release_deployments := imported (get_release_deployments space_id release_id) in
      let* items := read (getitem release_deployments "Items") in
      let* items := read (iterate items) in
      scan_deployments release items ;;
      let* reached := cap_reached in
      if (reached : bool) then ret tt else scan_releases rest
  end.

End GetDeploymentsForProject.

Section EntryPoint.
Context `{Imports}.

(** [get_deployments_for_project(space_id, project_name,
    environment_names, tenant_names, api_key, octopus_url, dates,
    max_results)] *)
Definition get_deployments_for_project (space_id project_name : string)
    (environment_names tenant_names : Names) (api_key octopus_url : string)
    (dates : option (list string)) (max_results : Z) : M val :=
  lift (ensure_string_not_empty space_id
          "space_id must be a non-empty string (get_deployments_for_project).");;
  lift (ensure_string_not_empty project_name
          "project_name must be a non-empty string (get_deployments_for_project).");;
  lift (ensure_string_not_empty api_key
          "api_key must be a non-empty string (get_deployments_for_project).");;
  lift (ensure_string_not_empty octopus_url
          "octopus_url must be a non-empty string (get_deployments_for_project).");;
  let* project := imported (get_project space_id project_name) in
  let* project_id := read (getitem project "Id") in
  let* releases := imported (get_project_releases space_id project_id 100) in
  let environment_names := sanitize_list environment_names in
  let tenant_names := sanitize_list tenant_names in
  let* environments := resolve_names (get_environment_cached space_id) environment_names in
  let* tenants := resolve_names (get_tenant_cached space_id) tenant_names in
  let* deployments := alloc (OList []) in
  let* items := read (getitem releases "Items") in
  let* items := read (iterate items) in
  scan_releases space_id project environments tenants dates max_results deployments items ;;
  let* first := read (slice_to deployments max_results) in
  let* first := alloc (OList first) in
  alloc (ODict {[ "Deployments" := first ]}).

End EntryPoint.

(** *** Notions used to state the property *)

(** An imported function leaves every object of the store as it is; it
    may add objects. *)
Definition preserves {A} (f : store → store * (exc + A)) : Prop :=
  ∀ σ, σ ⊆ (f σ).1.

(** The imported functions that work on the store leave its objects as
    they are. *)
Class Preserving `{Imports} : Prop := {
  parse_unknown_format_date_preserves : ∀ v, preserves (parse_unknown_format_date v);
  get_key_or_none_preserves : ∀ v key, preserves (get_key_or_none v key);
  strip_markdown_urls_preserves : ∀ v, preserves (strip_markdown_urls v);
  get_project_preserves : ∀ a b, preserves (get_project a b);
  get_project_releases_preserves : ∀ a b n, preserves (get_project_releases a b n);
  get_environment_cached_preserves : ∀ a b, preserves (get_environment_cached a b);
  get_tenant_cached_preserves : ∀ a b, preserves (get_tenant_cached a b);
  get_release_deployments_preserves : ∀ a b, preserves (get_release_deployments a b);
  get_task_preserves : ∀ a b, preserves (get_task a b);
  get_channel_cached_preserves : ∀ a b, preserves (get_channel_cached a b) }.

(** The objects a sequence of steps created. *)
Fixpoint allocated (es : list event) : gset loc :=
  match es with
  | [] => ∅
  | Allocated l :: es' => {[ l ]} ∪ allocated es'
  | Wrote _ :: es' => allocated es'
  end.

(** Every write of a sequence of steps is to an object of [owned] or to
    an object that an earlier step of the sequence created. *)
Fixpoint disciplined (owned : gset loc) (es : list event) : Prop :=
  match es with
  | [] => True
  | Allocated l :: es' => disciplined ({[ l ]} ∪ owned) es'
  | Wrote l :: es' => l ∈ owned ∧ disciplined owned es'
  end.

(** The result is made of objects of [owned]: a [dict] whose one key
    holds a [list] of [dict]s. *)
Definition built_new (σ : store) (owned : gset loc) (result : val) : Prop :=
  ∃ l_result l_list records,
    result = VRef l_result
    ∧ l_result ∈ owned
    ∧ σ !! l_result = Some (ODict {[ "Deployments" := VRef l_list ]})
    ∧ l_list ∈ owned
    ∧ σ !! l_list = Some (OList records)
    ∧ Forall (λ v, ∃ l d, v = VRef l ∧ l ∈ owned ∧ σ !! l = Some (ODict d)) records.

(** A computation that makes no write and creates no object of its
    own: the store can only have grown, by what the imported functions
    added. *)
Definition quiet {A} (m : M A) : Prop :=
  ∀ s s' r, m s = (s', r) → events s' = events s ∧ objects s ⊆ objects s'.

(** A computation that may append to the list at [d] and writes no
    other object: what it appends are dictionaries it has created. *)
Definition tidy {A} (d : loc) (m : M A) : Prop :=
  ∀ s s' r, m s = (s', r) →
    ∃ new added,
      events s' = events s ++ new
      ∧ disciplined {[ d ]} new
      ∧ (∀ l, l ∈ allocated new → objects s !! l = None)
      ∧ (∀ l o, l ≠ d → objects s !! l = Some o → objects s' !! l = Some o)
      ∧ (∀ l, is_Some (objects s !! l) → is_Some (objects s' !! l))
      ∧ (∀ records, objects s !! d = Some (OList records) →
           objects s' !! d = Some (OList (records ++ added)))
      ∧ Forall (λ v, ∃ l fields, v = VRef l ∧ l ∈ allocated new ∧ l ≠ d
                                 ∧ objects s' !! l = Some (ODict fields)) added.

(** A computation that writes no object but those it has created, and
    returns a result made of such objects: every object of the store it
    started in is as it was. *)
Definition never_writes_payloads (m : M val) : Prop :=
  ∀ s s' r, m s = (s', r) →
    ∃ new,
      events s' = events s ++ new
      ∧ disciplined ∅ new
      ∧ (∀ l, l ∈ allocated new → objects s !! l = None)
      ∧ (∀ l o, objects s !! l = Some o → objects s' !! l = Some o)
      ∧ (∀ result, r = inr result → built_new (objects s') (allocated new) result).

End DeploymentsHeap.

(** A platform with two releases, whose payloads are in the store when
    the call starts, except for the tasks: every lookup of a task makes
    a new dictionary. *)

Module DemoHeap.
Import DeploymentsHeap.

Definition deployment (id env created : string) : obj :=
  ODict (list_to_map
    [("Id", VStr id); ("EnvironmentId", VStr env); ("TenantId", VNone);
     ("Created", VStr created); ("TaskId", VStr "ServerTasks-1");
     ("ChannelId", VStr "Channels-1"); ("ReleaseId", VStr "Releases");
     ("DeployedBy", VStr "admin")]).

Definition release (id version : string) : obj :=
  ODict (list_to_map
    [("Id", VStr id); ("Version", VStr version); ("ReleaseNotes", VNone)]).

Definition payloads : store :=
  list_to_map
    [(1%positive, ODict (list_to_map [("Id", VStr "Projects-1"); ("Name", VStr "Web")]));
     (2%positive, ODict {[ "Items" := VRef 3%positive ]});
     (3%positive, OList [VRef 4%positive; VRef 5%positive]);
     (4%positive, release "Releases-1" "1.0.0");
     (5%positive, release "Releases-2" "1.0.1");
     (6%positive, ODict (list_to_map [("Id", VStr "Environments-1"); ("Name", VStr "Dev")]));
     (7%positive, ODict {[ "Items" := VRef 8%positive ]});
     (8%positive, OList [VRef 9%positive; VRef 10%positive]);
     (9%positive, deployment "Deployments-1" "Environments-1" "2024-01-01");
     (10%positive, deployment "Deployments-2" "Environments-2" "2024-01-05");
     (11%positive, ODict {[ "Items" := VRef 12%positive ]});
     (12%positive, OList [VRef 13%positive]);
     (13%positive, deployment "Deployments-3" "Environments-1" "2024-01-10");
     (14%positive, ODict (list_to_map [("Id", VStr "Channels-1"); ("Name", VStr "Default")]))].

#[export] Instance val_eq_dec : EqDecision val.
Proof. solve_decision. Defined.

#[export] Instance imports : Imports := {|
  Names := list string;
  sanitize_list := λ names, names;
  ensure_string_not_empty := λ s message,
    if Py.truthy_str s then inr tt else inl (Raised "ValueError");
  py_eq := λ a b _, bool_decide (a = b);
  parse_unknown_format_date := λ v σ,
    (σ, match v with
        | VStr s => inr (Z.of_nat (String.length s))
        | _ => inl TypeError
        end);
  get_key_or_none := λ v key σ,
    (σ, match dict_get v key σ with
        | inr x => inr x
        | inl _ => inr VNone
        end);
  strip_markdown_urls := λ v σ, (σ, inr v);
  get_project := λ _ _ σ, (σ, inr (VRef 1%positive));
  get_project_releases := λ _ _ _ σ, (σ, inr (VRef 2%positive));
  get_environment_cached := λ _ name σ,
    (σ, if String.eqb name "Dev" then inr (VRef 6%positive) else inl (Raised "ResourceNotFound"));
  get_tenant_cached := λ _ _ σ, (σ, inl (Raised "ResourceNotFound"));
  get_release_deployments := λ _ release_id σ,
    (σ, if bool_decide (release_id = VStr "Releases-1") then inr (VRef 7%positive)
        else if bool_decide (release_id = VStr "Releases-2") then inr (VRef 11%positive)
        else inl (Raised "OctopusRequestFailed"));
  get_task := λ _ _ σ,
    let l := fresh (dom σ) in
    (<[l := ODict (list_to_map [("State", VStr "Success"); ("Duration", VStr "1 minute")])]> σ,
     inr (VRef l));
  get_channel_cached := λ _ _ σ, (σ, inr (VRef 14%positive)) |}.

Definition start : State := {| objects := payloads; events := [] |}.

(** A call for the project [Web] in the space [Spaces-1]. *)
Definition run (environment_names : list string) (max_results : Z) : State * (exc + val) :=
  get_deployments_for_project "Spaces-1" "Web" environment_names [] "API-KEY"
    "https://octopus.example" None max_results start.

End DemoHeap.

(* ===================================================================== *)
(** * Properties *)
(* ===================================================================== *)

(** ** Slices and strings *)

Module PyFacts.
Import Py.

Lemma adjust_index_le len i : (adjust_index len i <= len)%nat.
Proof. unfold adjust_index. destruct (i <? 0) eqn:E; lia. Qed.

Lemma slice_to_length {A} (n : Z) (l : list A) :
  0 <= n → Z.of_nat (length (slice_to n l)) <= n.
Proof.
  intros Hn. unfold slice_to, adjust_index.
  destruct (n <? 0) eqn:E; [lia|].
  rewrite length_take. lia.
Qed.

Lemma slice_to_take {A} (n : Z) (l : list A) :
  0 <= n → slice_to n l = take (Z.to_nat n) l.
Proof.
  intros Hn. unfold slice_to, adjust_index.
  destruct (n <? 0) eqn:E; [lia|].
  destruct (Z.le_ge_cases n (Z.of_nat (length l))) as [Hle|Hge].
  - f_equal. lia.
  - rewrite !take_ge by lia. reflexivity.
Qed.

Lemma slice_to_all {A} (n : Z) (l : list A) :
  Z.of_nat (length l) <= n → slice_to n l = l.
Proof.
  intros Hn. rewrite slice_to_take by lia. apply take_ge. lia.
Qed.

(** A negative bound drops that many items from the end. *)
Lemma slice_to_negative {A} (n : Z) (l : list A) :
  n < 0 → (length l <= 1)%nat → slice_to n l = [].
Proof.
  intros Hn Hl. unfold slice_to, adjust_index.
  destruct (n <? 0) eqn:E; [|lia].
  replace (Z.to_nat (Z.max 0 (Z.of_nat (length l) + n))) with 0%nat by lia.
  reflexivity.
Qed.

(** [l[-n:]] for a positive [n] keeps the last [n] items. *)
Lemma slice_from_tail {A} (n : Z) (l : list A) :
  0 < n → slice_from (- n) l = drop (length l - Z.to_nat n) l.
Proof.
  intros Hn. unfold slice_from, adjust_index.
  destruct (- n <? 0) eqn:E; [|lia].
  f_equal. lia.
Qed.

(** [l[-0:]] is [l[0:]]: the whole list. *)
Lemma slice_from_zero {A} (l : list A) : slice_from (- 0) l = l.
Proof.
  unfold slice_from, adjust_index. simpl.
  replace (Z.to_nat (Z.min (- 0) (Z.of_nat (length l)))) with 0%nat by lia.
  reflexivity.
Qed.

Lemma length_list_ascii_of_string s :
  length (list_ascii_of_string s) = String.length s.
Proof. induction s as [|c s IH]; simpl; congruence. Qed.

Lemma length_string_of_list_ascii l :
  String.length (string_of_list_ascii l) = length l.
Proof. induction l as [|c l IH]; simpl; congruence. Qed.

Lemma string_of_list_ascii_app l1 l2 :
  string_of_list_ascii (l1 ++ l2) = string_of_list_ascii l1 +:+ string_of_list_ascii l2.
Proof.
  induction l1 as [|c l1 IH]; [reflexivity|].
  cbn [app string_of_list_ascii String.append]. rewrite IH. reflexivity.
Qed.

Lemma strip_empty : strip "" = "".
Proof. reflexivity. Qed.

Example strip_both_ends : strip "  why did it fail?  " = "why did it fail?".
Proof. vm_compute. reflexivity. Qed.

Example strip_blank : strip "   " = "".
Proof. vm_compute. reflexivity. Qed.

Example slice_to_cap : slice_to 2 [1; 2; 3] = [1; 2].
Proof. reflexivity. Qed.

Example slice_to_negative_bound : slice_to (-1) [1; 2; 3] = [1; 2].
Proof. reflexivity. Qed.

Example slice_from_tail_of_four : slice_from (- 3) [1; 2; 3; 4] = [2; 3; 4].
Proof. reflexivity. Qed.

End PyFacts.

(** ** dictionary_has_value *)

Module DictionarySanitizerSpec.
Import Py DictionarySanitizer.

(** C9.  [dictionary_has_value(k, d)] returns [False] when [d] is [None];
    raises [KeyError] when [d] is a dict without the key [k]; and returns
    [None], not a boolean, when [d] is neither [None] nor a dict. *)
Theorem dictionary_has_value_none_missing_other (k : string) :
  dictionary_has_value k VNone = Returns (VBool false)
  ∧ (∀ d : gmap string value,
       d !! k = None → dictionary_has_value k (VDict d) = Raises (KeyError k))
  ∧ (∀ v : value,
       v ≠ VNone → (∀ d, v ≠ VDict d) → dictionary_has_value k v = Returns VNone).
Proof.
  split; [reflexivity|]. split.
  - intros d Hd. simpl. rewrite Hd. reflexivity.
  - intros v Hnone Hdict. destruct v; try reflexivity.
    + congruence.
    + exfalso. eapply Hdict. reflexivity.
Qed.

Lemma dictionary_has_value_cases_witness :
  dictionary_has_value "b" VNone = Returns (VBool false)
  ∧ dictionary_has_value "b" (VDict {[ "a" := VStr "x" ]}) = Raises (KeyError "b")
  ∧ dictionary_has_value "b" (VList [VStr "b"]) = Returns VNone.
Proof.
  destruct (dictionary_has_value_none_missing_other "b") as (H1 & H2 & H3).
  split; [exact H1|]. split.
  - apply H2. vm_compute. reflexivity.
  - apply H3; [discriminate | intros d; discriminate].
Defined.

(** With the key present the answer is [False] for a falsy value and
    [len(value) > 0] otherwise. *)
Example dictionary_has_value_present :
  dictionary_has_value "a" (VDict {[ "a" := VStr "x" ]}) = Returns (VBool true).
Proof. vm_compute. reflexivity. Qed.

Example dictionary_has_value_empty_string :
  dictionary_has_value "a" (VDict {[ "a" := VStr "" ]}) = Returns (VBool false).
Proof. vm_compute. reflexivity. Qed.

Example dictionary_has_value_number :
  dictionary_has_value "a" (VDict {[ "a" := VInt 5 ]}) = Raises TypeError.
Proof. vm_compute. reflexivity. Qed.

End DictionarySanitizerSpec.

(** ** The tool wrappers *)

Module WrappersSpec.
Import Py Wrappers.

Lemma bound_declared_only (declared : list string) (name : string) (args : arguments) :
  name ∈ declared → bound name (declared_only declared args) = bound name args.
Proof.
  intros Hin. unfold declared_only.
  induction args as [|[k v] rest IH]; [reflexivity|].
  rewrite filter_cons. simpl. destruct (decide (k ∈ declared)) as [Hk|Hk].
  - simpl. destruct (String.eqb k name); [reflexivity | exact IH].
  - destruct (String.eqb_spec k name) as [->|Hne]; [contradiction | exact IH].
Qed.

Lemma collect_kwargs_declared_only (declared : list string) (args : arguments) :
  collect_kwargs declared (declared_only declared args) = [].
Proof.
  unfold collect_kwargs, declared_only.
  induction args as [|[k v] rest IH]; [reflexivity|].
  rewrite filter_cons. simpl. destruct (decide (k ∈ declared)) as [Hk|Hk]; [|exact IH].
  rewrite filter_cons. simpl. destruct (decide (k ∉ declared)); [contradiction | exact IH].
Qed.

(** Without a logger nothing is written. *)
Lemma log_unexpected_no_logger {L} (kwargs : arguments) :
  @log_unexpected L None kwargs = [].
Proof. induction kwargs as [|kv rest IH]; [reflexivity | exact IH]. Qed.

(** With a logger one line is written per unexpected key. *)
Lemma log_unexpected_length {L} (log : string → string → L) (kwargs : arguments) :
  length (log_unexpected (Some log) kwargs) = length kwargs.
Proof. induction kwargs as [|kv rest IH]; simpl; congruence. Qed.

(** C6.  For both wrappers and every argument dictionary, whatever keys
    it holds besides the declared parameters: what the call does (the
    value returned or the exception raised, which is the callback's) is
    what the call without the undeclared keys does, namely the callback
    applied to the declared parameters; the undeclared keys add one log
    line each when a logger is supplied and nothing otherwise. *)
Theorem wrappers_accept_unknown_keys {L R Q : Type}
    (logging : option (string → string → L)) (query : Q)
    (deploy : Q → value → value → value → value → value → R)
    (lint : value → R) (args : arguments) :
  let known := declared_only deploy_release_declared args in
  let unknown := collect_kwargs deploy_release_declared args in
  let known' := declared_only octolint_unused_projects_declared args in
  let unknown' := collect_kwargs octolint_unused_projects_declared args in
  (deploy_release_wrapper logging query deploy args).2
    = (deploy_release_wrapper logging query deploy known).2
  ∧ (deploy_release_wrapper logging query deploy args).2
    = deploy query (bound "space_name" known) (bound "project_name" known)
        (bound "release_version" known) (bound "environment_name" known)
        (bound "tenant_name" known)
  ∧ (deploy_release_wrapper logging query deploy args).1
    = (deploy_release_wrapper logging query deploy known).1 ++ log_unexpected logging unknown
  ∧ (octolint_unused_projects_wrapper logging lint args).2
    = (octolint_unused_projects_wrapper logging lint known').2
  ∧ (octolint_unused_projects_wrapper logging lint args).2 = lint (bound "space" known')
  ∧ (octolint_unused_projects_wrapper logging lint args).1
    = (octolint_unused_projects_wrapper logging lint known').1 ++ log_unexpected logging unknown'
  ∧ (logging = None →
     (deploy_release_wrapper logging query deploy args).1 = []
     ∧ (octolint_unused_projects_wrapper logging lint args).1 = []).
Proof.
  intros known unknown known' unknown'.
  assert (Hd : ∀ name, name ∈ deploy_release_declared → bound name known = bound name args).
  { intros name Hin. apply bound_declared_only. exact Hin. }
  assert (Hl : bound "space" known' = bound "space" args).
  { apply bound_declared_only. unfold octolint_unused_projects_declared. set_solver. }
  assert (H1 : bound "space_name" known = bound "space_name" args)
    by (apply Hd; unfold deploy_release_declared; set_solver).
  assert (H2 : bound "project_name" known = bound "project_name" args)
    by (apply Hd; unfold deploy_release_declared; set_solver).
  assert (H3 : bound "release_version" known = bound "release_version" args)
    by (apply Hd; unfold deploy_release_declared; set_solver).
  assert (H4 : bound "environment_name" known = bound "environment_name" args)
    by (apply Hd; unfold deploy_release_declared; set_solver).
  assert (H5 : bound "tenant_name" known = bound "tenant_name" args)
    by (apply Hd; unfold deploy_release_declared; set_solver).
  unfold deploy_release_wrapper, octolint_unused_projects_wrapper. cbn [fst snd].
  fold known known'. rewrite H1, H2, H3, H4, H5, Hl.
  unfold known at 1, known' at 1. rewrite !collect_kwargs_declared_only.
  cbn [log_unexpected flat_map]. rewrite !app_nil_r.
  repeat split; try reflexivity.
  - subst logging. rewrite log_unexpected_no_logger. reflexivity.
  - subst logging. apply log_unexpected_no_logger.
Qed.

(** A call of [deploy_release] with two keys the function does not
    declare, one of them before the declared ones. *)
Example deploy_release_with_unknown_keys :
  deploy_release_wrapper (Some (λ a b : string, (a, b))) "q"
    (λ q s p r e t, (q, s, p, r, e, t))
    [("verbose", VBool true); ("space_name", VStr "Default"); ("project_name", VStr "Web");
     ("channel", VStr "Hotfix")]
  = ([("Enter:", "deploy_release");
      ("Unexpected Key: verbose", "Value: {value}");
      ("Unexpected Key: channel", "Value: {value}")],
     ("q", VStr "Default", VStr "Web", VNone, VNone, VNone)).
Proof. vm_compute. reflexivity. Qed.

Lemma wrappers_accept_unknown_keys_witness :
  (octolint_unused_projects_wrapper (Some (λ a b : string, (a, b))) (λ s, s)
     [("space", VStr "Default"); ("fix", VBool true)]).2 = VStr "Default"
  ∧ (octolint_unused_projects_wrapper (Some (λ a b : string, (a, b))) (λ s, s)
     [("space", VStr "Default"); ("fix", VBool true)]).1
    = [("Unexpected Key: fix", "Value: {value}")].
Proof.
  pose proof (wrappers_accept_unknown_keys (Some (λ a b : string, (a, b))) tt
                (λ _ _ _ _ _ _, VNone) (λ s, s)
                [("space", VStr "Default"); ("fix", VBool true)]) as Hw.
  cbv zeta in Hw. destruct Hw as (_ & _ & _ & _ & H5 & H6 & _).
  split.
  - rewrite H5. vm_compute. reflexivity.
  - rewrite H6. vm_compute. reflexivity.
Defined.

End WrappersSpec.

(** ** The tail of the deployment log *)

Module LogsSpec.
Import Py PyFacts Logs.

(** With a positive budget the slice is the final characters of the
    log. *)
Lemma truncate_logs_final_chars (max_chars : Z) (logs : string) :
  0 < max_chars → truncate_logs max_chars logs = final_chars (Z.to_nat max_chars) logs.
Proof.
  intros Hpos. unfold truncate_logs, str_slice_from, final_chars.
  rewrite slice_from_tail by exact Hpos.
  rewrite length_list_ascii_of_string. reflexivity.
Qed.

Lemma final_chars_length (n : nat) (s : string) :
  (n <= String.length s)%nat → String.length (final_chars n s) = n.
Proof.
  intros Hn. unfold final_chars.
  rewrite length_string_of_list_ascii, length_drop, length_list_ascii_of_string. lia.
Qed.

Lemma final_chars_suffix (n : nat) (s : string) :
  ∃ front, s = front +:+ final_chars n s
           ∧ String.length front = (String.length s - n)%nat.
Proof.
  exists (string_of_list_ascii (take (String.length s - n) (list_ascii_of_string s))).
  unfold final_chars. split.
  - rewrite <- string_of_list_ascii_app, take_drop.
    symmetry. apply string_of_list_ascii_of_string.
  - rewrite length_string_of_list_ascii, length_take, length_list_ascii_of_string. lia.
Qed.

Lemma final_chars_all (n : nat) (s : string) :
  (String.length s <= n)%nat → final_chars n s = s.
Proof.
  intros Hn. unfold final_chars.
  replace (String.length s - n)%nat with 0%nat by lia.
  rewrite drop_0. apply string_of_list_ascii_of_string.
Qed.

(** A budget of zero keeps the whole log: [logs[-0:]] is [logs[0:]]. *)
Lemma truncate_logs_zero (logs : string) : truncate_logs 0 logs = logs.
Proof.
  unfold truncate_logs, str_slice_from. rewrite slice_from_zero.
  apply string_of_list_ascii_of_string.
Qed.

(** C3.  For a positive character budget [max_chars], the context that
    [logs_callback] hands to the language model holds [kept], where
    [kept] is exactly the final [max_chars] characters of the fetched
    log when the log is longer than the budget (it has [max_chars]
    characters and the log is some front part followed by it), and the
    unchanged log when it is not. *)
Theorem logs_callback_keeps_tail {Msgs Answer : Type}
    (llm_message_query : Msgs → context → Answer) (messages : Msgs)
    (max_chars : Z) (processed_query logs : string) :
  0 < max_chars →
  ∃ kept : string,
    logs_callback max_chars llm_message_query messages processed_query logs
      = llm_message_query messages
          {| context_input := processed_query; context_context := kept |}
    ∧ (max_chars < Z.of_nat (String.length logs) →
         Z.of_nat (String.length kept) = max_chars
         ∧ ∃ front, logs = front +:+ kept)
    ∧ (Z.of_nat (String.length logs) <= max_chars → kept = logs).
Proof.
  intros Hpos. exists (final_chars (Z.to_nat max_chars) logs).
  split; [|split].
  - unfold logs_callback. rewrite truncate_logs_final_chars by exact Hpos. reflexivity.
  - intros Hlong. split.
    + rewrite final_chars_length by lia. lia.
    + destruct (final_chars_suffix (Z.to_nat max_chars) logs) as (front & Hfront & _).
      exists front. exact Hfront.
  - intros Hshort. apply final_chars_all. lia.
Qed.

Example logs_callback_tail_of_a_log :
  logs_callback 5 (λ (_ : unit) c, c) tt "why?" "step 1 ok; step 2 failed"
  = {| context_input := "why?"; context_context := "ailed" |}.
Proof. vm_compute. reflexivity. Qed.

Lemma logs_callback_keeps_tail_witness :
  ∃ kept : string,
    logs_callback 5 (λ (_ : unit) c, c) tt "why?" "step 1 ok; step 2 failed"
      = {| context_input := "why?"; context_context := kept |}
    ∧ (5 < Z.of_nat (String.length "step 1 ok; step 2 failed") →
         Z.of_nat (String.length kept) = 5
         ∧ ∃ front, "step 1 ok; step 2 failed" = front +:+ kept)
    ∧ (Z.of_nat (String.length "step 1 ok; step 2 failed") <= 5 →
         kept = "step 1 ok; step 2 failed").
Proof.
  apply (logs_callback_keeps_tail (λ (_ : unit) c, c) tt 5 "why?" "step 1 ok; step 2 failed").
  lia.
Defined.

End LogsSpec.

(** ** get_deployments_for_project *)

Module DeploymentsSpec.
Import Py PyFacts Eff Deployments.

(** *** Computations that only read the platform *)

Section ReadsOnly.

Lemma reads_only_ret {A} (a : A) : reads_only (ret a : M A).
Proof. intros p. exists [], (inr a). intros before. rewrite app_nil_r. reflexivity. Qed.

Lemma reads_only_lift {A} (r : exc + A) : reads_only (lift r : M A).
Proof. intros p. exists [], r. intros before. rewrite app_nil_r. reflexivity. Qed.

Lemma reads_only_api {A} (c : ApiCall) (answer : Platform → exc + A) :
  reads_only (api c answer).
Proof. intros p. exists [c], (answer p). intros before. reflexivity. Qed.

Lemma reads_only_bind {A B} (m : M A) (k : A → M B) :
  reads_only m → (∀ a, reads_only (k a)) → reads_only (bind m k : M B).
Proof.
  intros Hm Hk p. destruct (Hm p) as (new1 & r1 & H1).
  destruct r1 as [e|a].
  - exists new1, (inl e). intros before. unfold bind. rewrite H1. reflexivity.
  - destruct (Hk a p) as (new2 & r2 & H2).
    exists (new1 ++ new2), r2. intros before. unfold bind.
    rewrite H1, H2, app_assoc. reflexivity.
Qed.

Lemma reads_only_map_m {A B} (f : A → M B) (l : list A) :
  (∀ a, reads_only (f a)) → reads_only (map_m f l).
Proof.
  intros Hf. induction l as [|a l IH]; simpl.
  - apply reads_only_ret.
  - apply reads_only_bind; [apply Hf|]. intros b.
    apply reads_only_bind; [exact IH|]. intros bs. apply reads_only_ret.
Qed.

(** What reading only means for one run. *)
Lemma reads_only_run {A} (m : M A) (w w' : World) (r : exc + A) :
  reads_only m → m w = (w', r) →
  platform w' = platform w ∧ ∃ new, calls w' = calls w ++ new.
Proof.
  intros Hm Hrun. destruct (Hm (platform w)) as (new & r' & Hnew).
  destruct w as [p before]. simpl in *. rewrite Hnew in Hrun.
  injection Hrun as <- <-. simpl. eauto.
Qed.

End ReadsOnly.

Section Loops.
Context `{Helpers}.
Variable space_id : string.
Variable project : Project.
Variable environments tenants : list Resource.
Variable dates : option (list string).
Variable max_results : Z.

Local Abbreviation enrich := (enrich space_id project environments tenants).
Local Abbreviation cap_reached := (cap_reached max_results).
Local Abbreviation scan_deployments :=
  (scan_deployments space_id project environments tenants dates max_results).
Local Abbreviation scan_releases :=
  (scan_releases space_id project environments tenants dates max_results).

(** *** The loops, one iteration at a time *)

Lemma scan_deployments_cons (release : Release) (deployment : Deployment)
    (rest : list Deployment) (deployments : list DeploymentRecord) (w : World) :
  scan_deployments release (deployment :: rest) deployments w =
    if environment_mismatch environments deployment then
      scan_deployments release rest deployments w
    else if tenant_mismatch tenants deployment then
      scan_deployments release rest deployments w
    else
      match outside_dates dates deployment with
      | inl e => (w, inl e)
      | inr true => scan_deployments release rest deployments w
      | inr false =>
          match enrich release deployment w with
          | (w1, inl e) => (w1, inl e)
          | (w1, inr record) =>
              if cap_reached (deployments ++ [record]) then (w1, inr (deployments ++ [record]))
              else scan_deployments release rest (deployments ++ [record]) w1
          end
      end.
Proof.
  simpl. destruct (environment_mismatch _ _); [reflexivity|].
  destruct (tenant_mismatch _ _); [reflexivity|].
  unfold bind at 1, lift. destruct (outside_dates _ _) as [e|[|]]; try reflexivity.
  unfold bind at 1. destruct (Deployments.enrich _ _ _ _ _ _ w) as [w1 [e|record]]; [reflexivity|].
  destruct (cap_reached _); reflexivity.
Qed.

Lemma scan_releases_cons (release : Release) (rest : list Release)
    (deployments : list DeploymentRecord) (w : World) :
  scan_releases (release :: rest) deployments w =
    let w0 := {| platform := platform w;
                 calls := calls w ++ [CallGetReleaseDeployments space_id (release_Id release)] |} in
    match get_release_deployments (platform w) space_id (release_Id release) with
    | inl e => (w0, inl e)
    | inr items =>
        match scan_deployments release items deployments w0 with
        | (w1, inl e) => (w1, inl e)
        | (w1, inr collected) =>
            if cap_reached collected then (w1, inr collected)
            else scan_releases rest collected w1
        end
    end.
Proof.
  simpl. unfold bind at 1, api.
  destruct (get_release_deployments _ _ _) as [e|items]; [reflexivity|].
  unfold bind at 1.
  destruct (Deployments.scan_deployments _ _ _ _ _ _ _ _ _ _) as [w1 [e|collected]]; [reflexivity|].
  destruct (cap_reached _); reflexivity.
Qed.

(** *** Every step only reads the platform *)

Lemma reads_only_name_of_match (P : Resource → Prop) `{∀ x, Decision (P x)}
    (resources : list Resource) :
  reads_only (name_of_match P resources).
Proof.
  destruct resources as [|r resources]; simpl; [apply reads_only_ret|].
  apply reads_only_bind; [apply reads_only_lift|]. intros a. apply reads_only_ret.
Qed.

Lemma reads_only_enrich (release : Release) (deployment : Deployment) :
  reads_only (enrich release deployment).
Proof.
  unfold Deployments.enrich.
  apply reads_only_bind.
  { destruct (has_task deployment) as [task_id|]; [|apply reads_only_ret].
    apply reads_only_bind; [apply reads_only_api|]. intros t. apply reads_only_ret. }
  intros task. apply reads_only_bind; [apply reads_only_api|].
  intros channel. apply reads_only_bind; [apply reads_only_name_of_match|].
  intros tenant_name. apply reads_only_bind; [apply reads_only_name_of_match|].
  intros environment_name. apply reads_only_ret.
Qed.

Lemma reads_only_scan_deployments (release : Release) (items : list Deployment)
    (deployments : list DeploymentRecord) :
  reads_only (scan_deployments release items deployments).
Proof.
  revert deployments. induction items as [|deployment rest IH]; intros deployments; simpl.
  - apply reads_only_ret.
  - destruct (environment_mismatch _ _); [apply IH|].
    destruct (tenant_mismatch _ _); [apply IH|].
    apply reads_only_bind; [apply reads_only_lift|]. intros [|]; [apply IH|].
    apply reads_only_bind; [apply reads_only_enrich|]. intros record.
    destruct (cap_reached _); [apply reads_only_ret | apply IH].
Qed.

Lemma reads_only_scan_releases (releases : list Release)
    (deployments : list DeploymentRecord) :
  reads_only (scan_releases releases deployments).
Proof.
  revert deployments. induction releases as [|release rest IH]; intros deployments; simpl.
  - apply reads_only_ret.
  - apply reads_only_bind; [apply reads_only_api|]. intros items.
    apply reads_only_bind; [apply reads_only_scan_deployments|]. intros collected.
    destruct (cap_reached _); [apply reads_only_ret | apply IH].
Qed.

(** The platform is the same after a run of the inner loop. *)
Lemma scan_deployments_platform (release : Release) (items : list Deployment)
    (deployments : list DeploymentRecord) (w w' : World) r :
  scan_deployments release items deployments w = (w', r) → platform w' = platform w.
Proof.
  intros Hrun. eapply reads_only_run in Hrun; [|apply reads_only_scan_deployments].
  apply Hrun.
Qed.

(** *** What an enrichment does *)

Lemma enrichments_app (cs1 cs2 : list ApiCall) :
  enrichments (cs1 ++ cs2) = (enrichments cs1 + enrichments cs2)%nat.
Proof. unfold enrichments. rewrite List.filter_app, length_app. reflexivity. Qed.

Lemma fetched_releases_app (cs1 cs2 : list ApiCall) :
  fetched_releases (cs1 ++ cs2) = fetched_releases cs1 ++ fetched_releases cs2.
Proof. unfold fetched_releases. apply omap_app. Qed.

Lemma fetched_releases_fetch (s r : string) (cs : list ApiCall) :
  fetched_releases (CallGetReleaseDeployments s r :: cs) = r :: fetched_releases cs.
Proof. reflexivity. Qed.

Lemma name_of_match_run (P : Resource → Prop) `{∀ x, Decision (P x)}
    (resources : list Resource) (w : World) :
  ∃ r, name_of_match P resources w = (w, r).
Proof.
  destruct resources as [|x resources]; simpl; [eexists; reflexivity|].
  unfold bind, lift, ret. destruct (next_match _ _); eexists; reflexivity.
Qed.

(** A successful enrichment looks the channel up exactly once, leaves
    the platform alone and copies the identifiers of the deployment. *)
Lemma enrich_returns (release : Release) (deployment : Deployment) (w w1 : World)
    (record : DeploymentRecord) :
  enrich release deployment w = (w1, inr record) →
  DeploymentId record = deployment_Id deployment
  ∧ platform w1 = platform w
  ∧ ∃ new, calls w1 = calls w ++ new ∧ enrichments new = 1%nat
           ∧ fetched_releases new = [].
Proof.
  unfold Deployments.enrich. intros Hrun.
  unfold bind at 1 in Hrun.
  destruct (has_task deployment) as [task_id|].
  - unfold bind at 1, api, ret in Hrun. simpl in Hrun.
    destruct (get_task _ _ _) as [e|t]; [discriminate|].
    unfold bind at 1 in Hrun. simpl in Hrun.
    destruct (get_channel_cached _ _ _) as [e|channel]; [discriminate|].
    unfold bind at 1 in Hrun.
    match type of Hrun with context [name_of_match ?P tenants ?w0] =>
      destruct (name_of_match_run P tenants w0) as [tn Htn]; rewrite Htn in Hrun end.
    destruct tn as [e|tenant_name]; [discriminate|].
    unfold bind at 1 in Hrun.
    match type of Hrun with context [name_of_match ?P environments ?w0] =>
      destruct (name_of_match_run P environments w0) as [en Hen]; rewrite Hen in Hrun end.
    destruct en as [e|environment_name]; [discriminate|].
    unfold ret in Hrun. injection Hrun as <- <-. simpl.
    split; [reflexivity|]. split; [reflexivity|].
    eexists. rewrite <- app_assoc. split; [reflexivity | split; reflexivity].
  - unfold ret at 1 in Hrun. unfold bind at 1, api in Hrun. simpl in Hrun.
    destruct (get_channel_cached _ _ _) as [e|channel]; [discriminate|].
    unfold bind at 1 in Hrun.
    match type of Hrun with context [name_of_match ?P tenants ?w0] =>
      destruct (name_of_match_run P tenants w0) as [tn Htn]; rewrite Htn in Hrun end.
    destruct tn as [e|tenant_name]; [discriminate|].
    unfold bind at 1 in Hrun.
    match type of Hrun with context [name_of_match ?P environments ?w0] =>
      destruct (name_of_match_run P environments w0) as [en Hen]; rewrite Hen in Hrun end.
    destruct en as [e|environment_name]; [discriminate|].
    unfold ret in Hrun. injection Hrun as <- <-. simpl.
    split; [reflexivity|]. split; [reflexivity|].
    eexists. split; [reflexivity | split; reflexivity].
Qed.

(** *** Early exit *)



(** *** What the loops collect *)

(** The inner loop only appends; every appended record was enriched
    (one channel lookup each); and the list grows past the cap by at
    most the one record appended before the first check. *)
Lemma scan_deployments_collects (release : Release) (items : list Deployment)
    (deployments collected : list DeploymentRecord) (w w' : World) :
  scan_deployments release items deployments w = (w', inr collected) →
  ∃ added new,
    collected = deployments ++ added
    ∧ calls w' = calls w ++ new
    ∧ enrichments new = length added
    ∧ fetched_releases new = []
    ∧ Z.of_nat (length collected) <= Z.max max_results (Z.of_nat (length deployments) + 1).
Proof.
  revert deployments w. induction items as [|deployment rest IH]; intros deployments w Hrun.
  - simpl in Hrun. injection Hrun as <- <-. exists [], [].
    rewrite !app_nil_r. repeat split; try reflexivity. lia.
  - rewrite scan_deployments_cons in Hrun.
    destruct (environment_mismatch _ _); [apply IH; assumption|].
    destruct (tenant_mismatch _ _); [apply IH; assumption|].
    destruct (outside_dates _ _) as [e|[|]]; [discriminate | apply IH; assumption |].
    destruct (enrich release deployment w) as [w1 [e|record]] eqn:Henrich; [discriminate|].
    apply enrich_returns in Henrich as (_ & _ & new1 & Hcalls1 & Hcount1 & Hfetch1).
    unfold Deployments.cap_reached in Hrun.
    destruct (Z.leb_spec max_results (Z.of_nat (length (deployments ++ [record])))) as [Hreached|Hbelow].
    + injection Hrun as <- <-. exists [record], new1.
      rewrite length_app in *. simpl in *. repeat split; try assumption; lia.
    + apply IH in Hrun as (added & new & -> & Hcalls & Hcount & Hfetch & Hlen).
      exists (record :: added), (new1 ++ new).
      rewrite enrichments_app, Hcount1, Hcount, Hcalls, Hcalls1.
      rewrite <- !app_assoc. rewrite fetched_releases_app, Hfetch1, Hfetch.
      simpl. repeat split; try reflexivity.
      rewrite !length_app in *. simpl in *. lia.
Qed.

(** The same for the outer loop; the releases fetched are the first
    ones of the list, in order. *)
Lemma scan_releases_collects (releases : list Release)
    (deployments collected : list DeploymentRecord) (w w' : World) :
  scan_releases releases deployments w = (w', inr collected) →
  ∃ added new,
    collected = deployments ++ added
    ∧ calls w' = calls w ++ new
    ∧ enrichments new = length added
    ∧ fetched_releases new `prefix_of` map release_Id releases
    ∧ Z.of_nat (length collected) <= Z.max max_results (Z.of_nat (length deployments) + 1).
Proof.
  revert deployments w. induction releases as [|release rest IH]; intros deployments w Hrun.
  - simpl in Hrun. injection Hrun as <- <-. exists [], [].
    rewrite !app_nil_r. repeat split; try reflexivity. lia.
  - rewrite scan_releases_cons in Hrun. cbv zeta in Hrun.
    destruct (get_release_deployments _ _ _) as [e|items]; [discriminate|].
    destruct (scan_deployments release items deployments _) as [w1 [e|collected1]] eqn:Hinner;
      [discriminate|].
    apply scan_deployments_collects in Hinner
      as (added1 & new1 & -> & Hcalls1 & Hcount1 & Hfetch1 & Hlen1).
    simpl in Hcalls1. unfold Deployments.cap_reached in Hrun.
    destruct (Z.leb_spec max_results (Z.of_nat (length (deployments ++ added1)))) as [Hreached|Hbelow].
    + injection Hrun as <- <-.
      exists added1, (CallGetReleaseDeployments space_id (release_Id release) :: new1).
      split; [reflexivity|]. split; [rewrite Hcalls1, <- app_assoc; reflexivity|].
      split; [exact Hcount1|]. split; [|exact Hlen1].
      rewrite fetched_releases_fetch, Hfetch1. simpl.
      apply prefix_cons, prefix_nil.
    + apply IH in Hrun as (added & new & -> & Hcalls & Hcount & Hfetch & Hlen).
      exists (added1 ++ added), (CallGetReleaseDeployments space_id (release_Id release) :: new1 ++ new).
      split; [rewrite app_assoc; reflexivity|].
      split; [rewrite Hcalls, Hcalls1, <- !app_assoc; reflexivity|].
      split.
      { change (enrichments (?c :: ?l)) with (enrichments l).
        rewrite enrichments_app, Hcount1, Hcount, length_app. reflexivity. }
      split.
      { rewrite fetched_releases_fetch, fetched_releases_app, Hfetch1. simpl.
        apply prefix_cons. exact Hfetch. }
      rewrite !length_app in *. lia.
Qed.

(** *** The records collected are those of the deployments that pass the
    filters, in the order of the stream, up to the cap *)

Local Abbreviation passes := (passes environments tenants dates).

Lemma scan_deployments_ids (release : Release) (items : list Deployment)
    (deployments collected : list DeploymentRecord) (w w' : World) :
  scan_deployments release items deployments w = (w', inr collected) →
  Z.of_nat (length deployments) < max_results →
  ∃ seen unseen,
    items = seen ++ unseen
    ∧ map DeploymentId collected
      = map DeploymentId deployments ++ map deployment_Id (List.filter passes seen)
    ∧ (Z.of_nat (length collected) < max_results → unseen = [])
    ∧ Z.of_nat (length collected) <= max_results.
Proof.
  revert deployments w. induction items as [|deployment rest IH]; intros deployments w Hrun Hlt.
  - simpl in Hrun. injection Hrun as <- <-. exists [], [].
    simpl. rewrite app_nil_r. repeat split; try reflexivity. lia.
  - rewrite scan_deployments_cons in Hrun.
    assert (Hskip : passes deployment = false →
                    scan_deployments release rest deployments w = (w', inr collected) →
                    ∃ seen unseen,
                      deployment :: rest = seen ++ unseen
                      ∧ map DeploymentId collected
                        = map DeploymentId deployments ++ map deployment_Id (List.filter passes seen)
                      ∧ (Z.of_nat (length collected) < max_results → unseen = [])
                      ∧ Z.of_nat (length collected) <= max_results).
    { intros Hpass Hrest. apply IH in Hrest as (seen & unseen & -> & Hids & Hall & Hlen); [|exact Hlt].
      exists (deployment :: seen), unseen. simpl. rewrite Hpass. auto. }
    destruct (environment_mismatch environments deployment) eqn:Henv.
    { apply Hskip; [unfold Deployments.passes; rewrite Henv; reflexivity | exact Hrun]. }
    destruct (tenant_mismatch tenants deployment) eqn:Hten.
    { apply Hskip; [unfold Deployments.passes; rewrite Henv, Hten; reflexivity | exact Hrun]. }
    destruct (outside_dates dates deployment) as [e|[|]] eqn:Hdates; [discriminate | |].
    { apply Hskip; [unfold Deployments.passes; rewrite Henv, Hten, Hdates; reflexivity | exact Hrun]. }
    clear Hskip.
    assert (Hpass : passes deployment = true)
      by (unfold Deployments.passes; rewrite Henv, Hten, Hdates; reflexivity).
    destruct (enrich release deployment w) as [w1 [e|record]] eqn:Henrich; [discriminate|].
    apply enrich_returns in Henrich as (Hid & _).
    unfold Deployments.cap_reached in Hrun.
    destruct (Z.leb_spec max_results (Z.of_nat (length (deployments ++ [record])))) as [Hreached|Hbelow].
    + injection Hrun as <- <-. exists [deployment], rest. simpl. rewrite Hpass. simpl.
      rewrite map_app. simpl. rewrite Hid.
      assert (Hone : Z.of_nat (length (deployments ++ [record])) = max_results)
        by (rewrite length_app in *; simpl in *; lia).
      split; [reflexivity|]. split; [reflexivity|]. split; [intros Hc; lia | lia].
    + apply IH in Hrun as (seen & unseen & -> & Hids & Hall & Hlen); [|exact Hbelow].
      exists (deployment :: seen), unseen. simpl. rewrite Hpass. simpl.
      rewrite Hids, map_app. simpl. rewrite Hid, <- app_assoc. auto.
Qed.

Lemma scan_releases_ids (releases : list Release)
    (deployments collected : list DeploymentRecord) (w w' : World) :
  scan_releases releases deployments w = (w', inr collected) →
  Z.of_nat (length deployments) < max_results →
  ∃ seen unseen,
    stream (platform w) space_id releases = seen ++ unseen
    ∧ map DeploymentId collected
      = map DeploymentId deployments ++ map deployment_Id (List.filter passes seen)
    ∧ (Z.of_nat (length collected) < max_results → unseen = [])
    ∧ Z.of_nat (length collected) <= max_results.
Proof.
  revert deployments w. induction releases as [|release rest IH]; intros deployments w Hrun Hlt.
  - simpl in Hrun. injection Hrun as <- <-. exists [], [].
    simpl. rewrite app_nil_r. repeat split; try reflexivity. lia.
  - rewrite scan_releases_cons in Hrun. cbv zeta in Hrun. simpl.
    destruct (get_release_deployments _ _ _) as [e|items]; [discriminate|].
    destruct (scan_deployments release items deployments _) as [w1 [e|collected1]] eqn:Hinner;
      [discriminate|].
    pose proof (scan_deployments_platform _ _ _ _ _ _ Hinner) as Hplatform. simpl in Hplatform.
    apply scan_deployments_ids in Hinner as (seen1 & unseen1 & -> & Hids1 & Hall1 & Hlen1);
      [|exact Hlt].
    unfold Deployments.cap_reached in Hrun.
    destruct (Z.leb_spec max_results (Z.of_nat (length collected1))) as [Hreached|Hbelow].
    + injection Hrun as <- <-.
      exists seen1, (unseen1 ++ stream (platform w) space_id rest).
      rewrite <- app_assoc. repeat split; try assumption; try reflexivity. lia.
    + rewrite (Hall1 Hbelow), app_nil_r.
      apply IH in Hrun as (seen & unseen & Hstream & Hids & Hall & Hlen); [|exact Hbelow].
      rewrite Hplatform in Hstream.
      exists (seen1 ++ seen), unseen. rewrite Hstream, <- app_assoc.
      rewrite Hids, Hids1, List.filter_app, map_app, <- app_assoc. auto.
Qed.

End Loops.

(** *** The filters, one deployment at a time *)

Section Filters.
Context `{Helpers}.

Lemma py_min_min (a b : Z) : py_min a b = Z.min a b.
Proof. unfold py_min. destruct (Z.ltb_spec b a); lia. Qed.

Lemma py_max_max (a b : Z) : py_max a b = Z.max a b.
Proof. unfold py_max. destruct (Z.ltb_spec a b); lia. Qed.

Lemma filter_length_zero {A} (P : A → Prop) `{∀ x, Decision (P x)} (l : list A) :
  (length (filter P l) =? 0)%nat = false ↔ ∃ x, x ∈ l ∧ P x.
Proof.
  rewrite Nat.eqb_neq. split.
  - intros Hne. destruct (filter P l) as [|x l'] eqn:Hf; [contradiction|].
    exists x. assert (Hx : x ∈ filter P l) by (rewrite Hf; left).
    apply list_elem_of_filter in Hx. tauto.
  - intros (x & Hx & HP) Hlen.
    assert (Hin : x ∈ filter P l) by (apply list_elem_of_filter; tauto).
    destruct (filter P l); [inversion Hin | discriminate].
Qed.

(** The environment filter keeps a deployment exactly when no
    environment was requested or its environment is a requested one. *)
Lemma environment_mismatch_requested (environments : list Resource) (deployment : Deployment) :
  environment_mismatch environments deployment = false
  ↔ requested (map resource_Id environments) (Some (deployment_EnvironmentId deployment)).
Proof.
  unfold environment_mismatch, requested.
  destruct environments as [|e environments]; [simpl; tauto|].
  change (negb (length (e :: environments) =? 0)%nat) with true. rewrite andb_true_l.
  rewrite filter_length_zero. split.
  - intros (x & Hx & Hid). right. rewrite <- Hid.
    apply list_elem_of_fmap_2, list_elem_of_fmap_2. exact Hx.
  - intros [Hnil|Hin]; [discriminate|].
    apply list_elem_of_fmap in Hin as (i & Hi & Hin). injection Hi as ->.
    apply list_elem_of_fmap in Hin as (x & -> & Hx). eauto.
Qed.

(** The tenant filter follows the same rule. *)
Lemma tenant_mismatch_requested (tenants : list Resource) (deployment : Deployment) :
  tenant_mismatch tenants deployment = false
  ↔ requested (map resource_Id tenants) (deployment_TenantId deployment).
Proof.
  unfold tenant_mismatch, requested.
  destruct tenants as [|t tenants]; [simpl; tauto|].
  change (negb (length (t :: tenants) =? 0)%nat) with true. rewrite andb_true_l.
  rewrite filter_length_zero. split.
  - intros (x & Hx & Hid). right. rewrite <- Hid.
    apply list_elem_of_fmap_2, list_elem_of_fmap_2. exact Hx.
  - intros [Hnil|Hin]; [discriminate|].
    apply list_elem_of_fmap in Hin as (i & Hi & Hin).
    apply list_elem_of_fmap in Hin as (x & -> & Hx). eauto.
Qed.

(** With two dates that parse, a deployment whose creation time parses
    is outside exactly when it is not in the closed range. *)
Lemma outside_dates_closed_range (date1 date2 : string) (deployment : Deployment)
    (t1 t2 created : Z) :
  parse_unknown_format_date date1 = inr t1 →
  parse_unknown_format_date date2 = inr t2 →
  parse_unknown_format_date (deployment_Created deployment) = inr created →
  outside_dates (Some [date1; date2]) deployment
  = inr (negb (bool_decide (in_closed_range t1 t2 created))).
Proof.
  intros H1 H2 Hc. unfold outside_dates. rewrite Hc, H1, H2.
  rewrite py_min_min, py_max_max. f_equal. unfold in_closed_range.
  destruct (Z.ltb_spec created (Z.min t1 t2)), (Z.ltb_spec (Z.max t1 t2) created);
    simpl; symmetry.
  1-3: apply negb_true_iff, bool_decide_eq_false; lia.
  apply negb_false_iff, bool_decide_eq_true; lia.
Qed.

(** The order of the two dates does not matter. *)
Lemma outside_dates_swap (date1 date2 : string) (deployment : Deployment) :
  same_outcome (outside_dates (Some [date1; date2]) deployment)
               (outside_dates (Some [date2; date1]) deployment).
Proof.
  unfold outside_dates.
  destruct (parse_unknown_format_date (deployment_Created deployment)) as [e|created];
    [exact I|].
  destruct (parse_unknown_format_date date1) as [e1|t1],
           (parse_unknown_format_date date2) as [e2|t2]; simpl; try exact I.
  rewrite !py_min_min, !py_max_max, (Z.min_comm t2 t1), (Z.max_comm t2 t1). reflexivity.
Qed.

(** A deployment passes the three filters exactly when it is kept by
    both sets and, with two dates, created between them. *)
Lemma passes_two_dates (environments tenants : list Resource) (date1 date2 : string)
    (deployment : Deployment) :
  passes environments tenants (Some [date1; date2]) deployment = true
  ↔ kept_by_sets environments tenants deployment ∧ created_between date1 date2 deployment.
Proof.
  unfold passes, kept_by_sets.
  rewrite <- environment_mismatch_requested, <- tenant_mismatch_requested.
  rewrite !andb_true_iff, !negb_true_iff.
  assert (Hdate : match outside_dates (Some [date1; date2]) deployment with
                  | inl _ => false
                  | inr outside => negb outside
                  end = true ↔ created_between date1 date2 deployment); [|tauto].
  unfold created_between.
  destruct (parse_unknown_format_date date1) as [e1|t1] eqn:H1.
  { unfold outside_dates. rewrite H1.
    destruct (parse_unknown_format_date (deployment_Created deployment)); simpl; split; easy. }
  destruct (parse_unknown_format_date date2) as [e2|t2] eqn:H2.
  { unfold outside_dates. rewrite H1, H2.
    destruct (parse_unknown_format_date (deployment_Created deployment)); simpl; split; easy. }
  destruct (parse_unknown_format_date (deployment_Created deployment)) as [e|created] eqn:Hc.
  { unfold outside_dates. rewrite Hc. simpl. split; easy. }
  rewrite (outside_dates_closed_range _ _ _ _ _ _ H1 H2 Hc), negb_involutive.
  apply bool_decide_eq_true.
Qed.

Lemma passes_no_dates (environments tenants : list Resource) (deployment : Deployment) :
  passes environments tenants None deployment = true
  ↔ kept_by_sets environments tenants deployment.
Proof.
  unfold passes, kept_by_sets.
  rewrite <- environment_mismatch_requested, <- tenant_mismatch_requested.
  simpl. rewrite andb_true_r, !andb_true_iff, !negb_true_iff. tauto.
Qed.

Lemma filter_bool_prop {A} (f : A → bool) (P : A → Prop) `{∀ x, Decision (P x)} (l : list A) :
  (∀ x, f x = true ↔ P x) → List.filter f l = filter P l.
Proof.
  intros Hf. induction l as [|x l IH]; [reflexivity|].
  simpl. rewrite filter_cons, IH.
  destruct (decide (P x)) as [HP|HP].
  - apply Hf in HP. rewrite HP. reflexivity.
  - destruct (f x) eqn:Hfx; [apply Hf in Hfx; contradiction | reflexivity].
Qed.

Lemma passes_kept (environments tenants : list Resource) (dates : option (list string))
    (deployment : Deployment) :
  passes environments tenants dates deployment = true
  ↔ kept_by_sets environments tenants deployment
    ∧ outside_dates dates deployment = inr false.
Proof.
  unfold passes, kept_by_sets.
  rewrite <- environment_mismatch_requested, <- tenant_mismatch_requested.
  rewrite !andb_true_iff, !negb_true_iff.
  destruct (outside_dates dates deployment) as [e|[|]]; simpl; split; intros Hp;
    try tauto; try (destruct Hp as [_ Hp]; discriminate).
Qed.

End Filters.

(** *** Runs that agree *)

Section Agreement.
Context `{Helpers}.
Variable space_id : string.
Variable project : Project.
Variable environments tenants : list Resource.
Variable dates dates' : option (list string).
Variable max_results : Z.

Lemma agree_refl {A} (x : World * (exc + A)) : agree x x.
Proof. split; [reflexivity|]. destruct (x.2); simpl; auto. Qed.

Lemma agree_bind_same {A B} (m : M A) (k k' : A → M B) (w : World) :
  (∀ a w1, agree (k a w1) (k' a w1)) → agree (bind m k w) (bind m k' w).
Proof.
  intros Hk. unfold bind. destruct (m w) as [w1 [e|a]]; [apply agree_refl | apply Hk].
Qed.

Lemma agree_bind_ret {A B} (m m' : M A) (f : A → B) (w : World) :
  agree (m w) (m' w) →
  agree (bind m (λ a, ret (f a)) w) (bind m' (λ a, ret (f a)) w).
Proof.
  unfold agree, bind, ret.
  destruct (m w) as [w1 [e|a]], (m' w) as [w2 [e'|a']]; simpl; intros [-> Ho];
    try contradiction; split; simpl; congruence.
Qed.

Lemma scan_deployments_agree (release : Release) (items : list Deployment)
    (deployments : list DeploymentRecord) (w : World) :
  (∀ d, same_outcome (outside_dates dates d) (outside_dates dates' d)) →
  agree (scan_deployments space_id project environments tenants dates max_results
           release items deployments w)
        (scan_deployments space_id project environments tenants dates' max_results
           release items deployments w).
Proof.
  intros Hsame. revert deployments w.
  induction items as [|deployment rest IH]; intros deployments w; [apply agree_refl|].
  rewrite !scan_deployments_cons.
  destruct (environment_mismatch _ _); [apply IH|].
  destruct (tenant_mismatch _ _); [apply IH|].
  specialize (Hsame deployment).
  destruct (outside_dates dates deployment) as [e|outside],
           (outside_dates dates' deployment) as [e'|outside']; simpl in Hsame;
    try contradiction.
  - split; simpl; auto.
  - subst outside'. destruct outside; [apply IH|].
    destruct (enrich _ _ _ _ _ _ w) as [w1 [e|record]]; [apply agree_refl|].
    destruct (cap_reached _ _); [apply agree_refl | apply IH].
Qed.

Lemma scan_releases_agree (releases : list Release)
    (deployments : list DeploymentRecord) (w : World) :
  (∀ d, same_outcome (outside_dates dates d) (outside_dates dates' d)) →
  agree (scan_releases space_id project environments tenants dates max_results
           releases deployments w)
        (scan_releases space_id project environments tenants dates' max_results
           releases deployments w).
Proof.
  intros Hsame. revert deployments w.
  induction releases as [|release rest IH]; intros deployments w; [apply agree_refl|].
  rewrite !scan_releases_cons. cbv zeta.
  destruct (get_release_deployments _ _ _) as [e|items]; [apply agree_refl|].
  match goal with |- context [scan_deployments _ _ _ _ dates _ _ _ _ ?w0] =>
    pose proof (scan_deployments_agree release items deployments w0 Hsame) as Hinner end.
  destruct (scan_deployments _ _ _ _ dates _ _ _ _ _) as [w1 [e|collected]],
           (scan_deployments _ _ _ _ dates' _ _ _ _ _) as [w2 [e'|collected']];
    destruct Hinner as [Hw Ho]; simpl in Hw, Ho; subst; try contradiction.
  - split; simpl; auto.
  - destruct (cap_reached _ _); [apply agree_refl | apply IH].
Qed.

End Agreement.

(** *** The whole function *)

Section WholeFunction.
Context `{Helpers}.

Lemma map_m_api_run (call : string → ApiCall) (lookup : Platform → string → exc + Resource)
    (names : list string) (w w1 : World) (r : exc + list Resource) :
  (∀ n, is_enrichment (call n) = false) →
  (∀ n, fetched_releases [call n] = []) →
  map_m (λ n, api (call n) (λ p, lookup p n)) names w = (w1, r) →
  platform w1 = platform w
  ∧ (∃ new, calls w1 = calls w ++ new ∧ enrichments new = 0%nat ∧ fetched_releases new = [])
  ∧ (∀ resources, r = inr resources →
       Forall2 (λ n x, lookup (platform w) n = inr x) names resources).
Proof.
  intros Hcall Hfetch. revert w w1 r.
  induction names as [|n names IH]; intros w w1 r Hrun.
  - simpl in Hrun. injection Hrun as <- <-. split; [reflexivity|]. split.
    + exists []. rewrite app_nil_r. auto.
    + intros resources Hr. injection Hr as <-. constructor.
  - simpl in Hrun. unfold bind at 1, api in Hrun.
    destruct (lookup (platform w) n) as [e|x] eqn:Hlookup.
    + injection Hrun as <- <-. simpl. split; [reflexivity|]. split.
      * exists [call n]. split; [reflexivity|]. split; [|apply Hfetch].
        unfold enrichments. simpl. rewrite Hcall. reflexivity.
      * intros resources Hr. discriminate.
    + unfold bind at 1 in Hrun.
      destruct (map_m _ names _) as [w2 [e|xs]] eqn:Hrest;
        apply IH in Hrest as (Hp & (new & Hc & Hn & Hf) & Hall); simpl in Hp, Hc, Hall;
        injection Hrun as <- <-.
      * split; [exact Hp|]. split.
        -- exists (call n :: new). rewrite Hc, <- app_assoc. split; [reflexivity|].
           split.
           ++ unfold enrichments in *. simpl. rewrite Hcall. exact Hn.
           ++ change (call n :: new) with ([call n] ++ new).
              rewrite fetched_releases_app, Hfetch, Hf. reflexivity.
        -- intros resources Hr. discriminate.
      * split; [exact Hp|]. split.
        -- exists (call n :: new). rewrite Hc, <- app_assoc. split; [reflexivity|].
           split.
           ++ unfold enrichments in *. simpl. rewrite Hcall. exact Hn.
           ++ change (call n :: new) with ([call n] ++ new).
              rewrite fetched_releases_app, Hfetch, Hf. reflexivity.
        -- intros resources Hr. injection Hr as <-. constructor; [exact Hlookup|].
           apply Hall. reflexivity.
Qed.

Lemma resolve_names_run (call : string → ApiCall) (lookup : Platform → string → exc + Resource)
    (names : list string) (w w1 : World) (r : exc + list Resource) :
  (∀ n, is_enrichment (call n) = false) →
  (∀ n, fetched_releases [call n] = []) →
  resolve_names call lookup names w = (w1, r) →
  platform w1 = platform w
  ∧ (∃ new, calls w1 = calls w ++ new ∧ enrichments new = 0%nat ∧ fetched_releases new = [])
  ∧ (∀ resources, r = inr resources →
       Forall2 (λ n x, lookup (platform w) n = inr x) names resources).
Proof.
  intros Hcall Hfetch Hrun. apply (map_m_api_run call lookup names w w1 r Hcall Hfetch).
  destruct names; exact Hrun.
Qed.

Lemma reads_only_resolve_names (call : string → ApiCall)
    (lookup : Platform → string → exc + Resource) (names : list string) :
  reads_only (resolve_names call lookup names).
Proof.
  unfold resolve_names. destruct names as [|n names]; [apply reads_only_ret|].
  apply reads_only_map_m. intros a. apply reads_only_api.
Qed.

(** A run that returns: the project and its releases were fetched, the
    requested names were resolved one by one, the releases were
    scanned, and the list collected was cut at the cap.  None of the
    calls made before the scan is an enrichment or a fetch of a
    release's deployments. *)
Lemma get_deployments_for_project_returns (space_id project_name : string)
    (environment_names tenant_names : Names) (api_key octopus_url : string)
    (dates : option (list string)) (max_results : Z) (w w' : World) (result : Result) :
  get_deployments_for_project space_id project_name environment_names tenant_names
    api_key octopus_url dates max_results w = (w', inr result) →
  ∃ project releases environments tenants before w0 collected,
    get_project (platform w) space_id project_name = inr project
    ∧ get_project_releases (platform w) space_id (project_Id project) 100 = inr releases
    ∧ Forall2 (λ n x, get_environment_cached (platform w) space_id n = inr x)
        (sanitize_list environment_names) environments
    ∧ Forall2 (λ n x, get_tenant_cached (platform w) space_id n = inr x)
        (sanitize_list tenant_names) tenants
    ∧ platform w0 = platform w
    ∧ calls w0 = calls w ++ before
    ∧ enrichments before = 0%nat
    ∧ fetched_releases before = []
    ∧ scan_releases space_id project environments tenants dates max_results releases [] w0
      = (w', inr collected)
    ∧ result = {| Deployments := slice_to max_results collected |}.
Proof.
  unfold get_deployments_for_project. intros Hrun.
  do 4 (unfold bind at 1, lift in Hrun;
        match type of Hrun with context [ensure_string_not_empty ?a ?b] =>
          destruct (ensure_string_not_empty a b) as [e|[]]; [discriminate|] end).
  unfold bind at 1, api in Hrun.
  destruct (get_project (platform w) space_id project_name) as [e|project] eqn:Hproject;
    [discriminate|].
  unfold bind at 1, api in Hrun. cbn [platform calls] in Hrun.
  destruct (get_project_releases (platform w) space_id (project_Id project) 100)
    as [e|releases] eqn:Hreleases; [discriminate|].
  unfold bind at 1 in Hrun.
  destruct (resolve_names (CallGetEnvironmentCached space_id) _ _ _)
    as [w2 [e|environments]] eqn:Henvs; [discriminate|].
  apply resolve_names_run in Henvs as (Hp2 & (new2 & Hc2 & Hn2 & Hf2) & Hall2);
    [|reflexivity|reflexivity].
  unfold bind at 1 in Hrun.
  destruct (resolve_names (CallGetTenantCached space_id) _ _ _)
    as [w3 [e|tenants]] eqn:Htens; [discriminate|].
  apply resolve_names_run in Htens as (Hp3 & (new3 & Hc3 & Hn3 & Hf3) & Hall3);
    [|reflexivity|reflexivity].
  unfold bind at 1 in Hrun.
  destruct (scan_releases _ _ _ _ _ _ _ _ _) as [w4 [e|collected]] eqn:Hscan; [discriminate|].
  unfold ret in Hrun. injection Hrun as <- <-.
  simpl in Hp2, Hc2, Hall2. rewrite Hp2 in Hall3.
  exists project, releases, environments, tenants,
    ([CallGetProject space_id project_name;
      CallGetProjectReleases space_id (project_Id project) 100] ++ new2 ++ new3),
    w3, collected.
  split; [reflexivity|]. split; [exact Hreleases|].
  split; [apply Hall2; reflexivity|]. split; [apply Hall3; reflexivity|].
  split; [congruence|].
  split; [rewrite Hc3, Hc2, <- !app_assoc; reflexivity|].
  split; [rewrite !enrichments_app, Hn2, Hn3; reflexivity|].
  split; [rewrite !fetched_releases_app, Hf2, Hf3; reflexivity|].
  split; [exact Hscan | reflexivity].
Qed.

(** The identifiers returned are those of the first [max_results]
    deployments of the stream that pass the filters. *)
Lemma scan_releases_returns_first (space_id : string) (project : Project)
    (environments tenants : list Resource) (dates : option (list string)) (max_results : Z)
    (releases : list Release) (collected : list DeploymentRecord) (w w' : World) :
  0 <= max_results →
  scan_releases space_id project environments tenants dates max_results releases [] w
    = (w', inr collected) →
  map DeploymentId (slice_to max_results collected)
  = take (Z.to_nat max_results)
      (map deployment_Id
         (List.filter (passes environments tenants dates) (stream (platform w) space_id releases))).
Proof.
  intros Hcap Hrun. rewrite slice_to_take by exact Hcap.
  destruct (Z.eq_dec max_results 0) as [->|Hpos]; [reflexivity|].
  apply scan_releases_ids in Hrun as (seen & unseen & -> & Hids & Hall & Hlen);
    [|simpl; lia].
  simpl in Hids. rewrite List.filter_app, map_app, <- Hids.
  rewrite take_ge by lia.
  destruct (Z.eq_dec (Z.of_nat (length collected)) max_results) as [Heq|Hne].
  - rewrite take_app_length'; [reflexivity|]. rewrite length_map. lia.
  - rewrite Hall by lia. simpl. rewrite app_nil_r. symmetry. apply take_ge.
    rewrite length_map. lia.
Qed.

Lemma get_deployments_for_project_agree (space_id project_name : string)
    (environment_names tenant_names : Names) (api_key octopus_url : string)
    (dates dates' : option (list string)) (max_results : Z) (w : World) :
  (∀ d, same_outcome (outside_dates dates d) (outside_dates dates' d)) →
  agree (get_deployments_for_project space_id project_name environment_names tenant_names
           api_key octopus_url dates max_results w)
        (get_deployments_for_project space_id project_name environment_names tenant_names
           api_key octopus_url dates' max_results w).
Proof.
  intros Hsame. unfold get_deployments_for_project.
  do 8 (apply agree_bind_same; intros ? ?).
  apply agree_bind_ret, scan_releases_agree, Hsame.
Qed.

End WholeFunction.

(** *** The cap *)

Section Cap.
Context `{Helpers}.


(** Every record the loops collect was enriched before the cap was
    checked: a call that returns made as many channel lookups as it
    collected records, whatever the cap. *)
Lemma collected_records_are_enriched (space_id project_name : string)
    (environment_names tenant_names : Names) (api_key octopus_url : string)
    (dates : option (list string)) (max_results : Z) (w w' : World) (result : Result) :
  0 <= max_results →
  get_deployments_for_project space_id project_name environment_names tenant_names
    api_key octopus_url dates max_results w = (w', inr result) →
  ∃ collected new,
    Deployments result = slice_to max_results collected
    ∧ calls w' = calls w ++ new
    ∧ enrichments new = length collected
    ∧ Z.of_nat (length collected) <= Z.max max_results 1
    ∧ Z.of_nat (length (Deployments result)) <= max_results
    ∧ (1 <= max_results → Deployments result = collected).
Proof.
  intros Hcap Hrun.
  apply get_deployments_for_project_returns in Hrun
    as (project & releases & environments & tenants & before & w0 & collected
        & _ & _ & _ & _ & _ & Hcalls & Hbefore & _ & Hscan & ->).
  apply scan_releases_collects in Hscan as (added & new & Hadded & Hnew & Hcount & _ & Hlen).
  simpl in Hadded, Hlen. subst added.
  exists collected, (before ++ new). simpl.
  split; [reflexivity|]. split; [rewrite Hnew, Hcalls, app_assoc; reflexivity|].
  split; [rewrite enrichments_app, Hbefore, Hcount; reflexivity|].
  split; [lia|]. split; [apply slice_to_length; exact Hcap|].
  intros Hone. apply slice_to_all. lia.
Qed.

(** The calls the function makes and what it returns or raises are
    determined by the platform and the arguments alone.  (The platform
    of this model is a value, which no step can change; that the
    function changes no payload in place is stated on a store of
    objects, in [DeploymentsHeapSpec].) *)
Lemma get_deployments_for_project_reads_only (space_id project_name : string)
    (environment_names tenant_names : Names) (api_key octopus_url : string)
    (dates : option (list string)) (max_results : Z) :
  reads_only (get_deployments_for_project space_id project_name environment_names
                tenant_names api_key octopus_url dates max_results).
Proof.
  unfold get_deployments_for_project.
  do 4 (apply reads_only_bind; [apply reads_only_lift | intros _]).
  apply reads_only_bind; [apply reads_only_api | intros project].
  apply reads_only_bind; [apply reads_only_api | intros releases].
  apply reads_only_bind; [apply reads_only_resolve_names | intros environments].
  apply reads_only_bind; [apply reads_only_resolve_names | intros tenants].
  apply reads_only_bind; [apply reads_only_scan_releases | intros collected].
  apply reads_only_ret.
Qed.

End Cap.

(** *** The filters *)

Section Filtering.
Context `{Helpers}.

(** C2.  With exactly two dates: swapping them changes nothing, neither
    the outcome nor the calls made; a deployment whose creation time
    parses is skipped by the date test exactly when that time is not in
    the closed range from the earlier to the later date; and a call
    that returns gives, in the order of the stream and up to the cap,
    the deployments that are kept by the environment and tenant sets
    and created within that closed range. *)
Theorem two_dates_closed_range_any_order (space_id project_name : string)
    (environment_names tenant_names : Names) (api_key octopus_url : string)
    (date1 date2 : string) (max_results : Z) :
  (∀ w,
     agree (get_deployments_for_project space_id project_name environment_names tenant_names
              api_key octopus_url (Some [date1; date2]) max_results w)
           (get_deployments_for_project space_id project_name environment_names tenant_names
              api_key octopus_url (Some [date2; date1]) max_results w))
  ∧ (∀ deployment t1 t2 created,
       parse_unknown_format_date date1 = inr t1 →
       parse_unknown_format_date date2 = inr t2 →
       parse_unknown_format_date (deployment_Created deployment) = inr created →
       (outside_dates (Some [date1; date2]) deployment = inr false
        ↔ Z.min t1 t2 <= created <= Z.max t1 t2)
       ∧ (outside_dates (Some [date1; date2]) deployment = inr true
          ↔ ¬ Z.min t1 t2 <= created <= Z.max t1 t2))
  ∧ (∀ w w' result,
       0 <= max_results →
       get_deployments_for_project space_id project_name environment_names tenant_names
         api_key octopus_url (Some [date1; date2]) max_results w = (w', inr result) →
       ∃ project releases environments tenants,
         get_project (platform w) space_id project_name = inr project
         ∧ get_project_releases (platform w) space_id (project_Id project) 100 = inr releases
         ∧ Forall2 (λ n x, get_environment_cached (platform w) space_id n = inr x)
             (sanitize_list environment_names) environments
         ∧ Forall2 (λ n x, get_tenant_cached (platform w) space_id n = inr x)
             (sanitize_list tenant_names) tenants
         ∧ map DeploymentId (Deployments result)
           = take (Z.to_nat max_results)
               (map deployment_Id
                  (filter (λ d, kept_by_sets environments tenants d
                                ∧ created_between date1 date2 d)
                          (stream (platform w) space_id releases)))).
Proof.
  split; [|split].
  - intros w. apply get_deployments_for_project_agree. intros d. apply outside_dates_swap.
  - intros deployment t1 t2 created H1 H2 Hc.
    rewrite (outside_dates_closed_range _ _ _ _ _ _ H1 H2 Hc).
    fold (in_closed_range t1 t2 created).
    destruct (decide (in_closed_range t1 t2 created)) as [Hin|Hout].
    + rewrite bool_decide_eq_true_2 by exact Hin. simpl. split; split; intros Hx;
        first [reflexivity | exact Hin | discriminate | contradiction].
    + rewrite bool_decide_eq_false_2 by exact Hout. simpl. split; split; intros Hx;
        first [reflexivity | exact Hout | discriminate | contradiction].
  - intros w w' result Hcap Hrun.
    apply get_deployments_for_project_returns in Hrun
      as (project & releases & environments & tenants & before & w0 & collected
          & Hproject & Hreleases & Henvs & Htens & Hplatform & _ & _ & _ & Hscan & ->).
    exists project, releases, environments, tenants.
    split; [exact Hproject|]. split; [exact Hreleases|].
    split; [exact Henvs|]. split; [exact Htens|].
    simpl. rewrite (scan_releases_returns_first _ _ _ _ _ _ _ _ _ _ Hcap Hscan), Hplatform.
    f_equal. f_equal. apply filter_bool_prop. intros d. apply passes_two_dates.
Qed.

(** C4.  The environment test lets a deployment through exactly when no
    environment was requested or its environment is one of those
    requested; the tenant test follows the same rule on its own; no
    requested name means no resource to match, so nothing is filtered
    out; and a call that returns gives, in the order of the stream and
    up to the cap, the deployments that pass both tests and the date
    test. *)
Theorem empty_filter_set_keeps_all (space_id project_name : string)
    (environment_names tenant_names : Names) (api_key octopus_url : string)
    (dates : option (list string)) (max_results : Z) :
  (∀ environments deployment,
     environment_mismatch environments deployment = false
     ↔ environments = []
       ∨ ∃ e, e ∈ environments ∧ resource_Id e = deployment_EnvironmentId deployment)
  ∧ (∀ tenants deployment,
       tenant_mismatch tenants deployment = false
       ↔ tenants = []
         ∨ ∃ t, t ∈ tenants ∧ Some (resource_Id t) = deployment_TenantId deployment)
  ∧ (∀ w w' result,
       0 <= max_results →
       get_deployments_for_project space_id project_name environment_names tenant_names
         api_key octopus_url dates max_results w = (w', inr result) →
       ∃ project releases environments tenants,
         get_project (platform w) space_id project_name = inr project
         ∧ get_project_releases (platform w) space_id (project_Id project) 100 = inr releases
         ∧ Forall2 (λ n x, get_environment_cached (platform w) space_id n = inr x)
             (sanitize_list environment_names) environments
         ∧ Forall2 (λ n x, get_tenant_cached (platform w) space_id n = inr x)
             (sanitize_list tenant_names) tenants
         ∧ (sanitize_list environment_names = [] → environments = [])
         ∧ (sanitize_list tenant_names = [] → tenants = [])
         ∧ map DeploymentId (Deployments result)
           = take (Z.to_nat max_results)
               (map deployment_Id
                  (filter (λ d, environment_mismatch environments d = false
                                ∧ tenant_mismatch tenants d = false
                                ∧ outside_dates dates d = inr false)
                          (stream (platform w) space_id releases)))).
Proof.
  split; [|split].
  - intros environments deployment. unfold environment_mismatch.
    destruct environments as [|e environments]; [simpl; tauto|].
    change (negb (length (e :: environments) =? 0)%nat) with true. rewrite andb_true_l.
    rewrite filter_length_zero. split; [intros Hx; right; exact Hx|].
    intros [Hnil|Hx]; [discriminate | exact Hx].
  - intros tenants deployment. unfold tenant_mismatch.
    destruct tenants as [|t tenants]; [simpl; tauto|].
    change (negb (length (t :: tenants) =? 0)%nat) with true. rewrite andb_true_l.
    rewrite filter_length_zero. split; [intros Hx; right; exact Hx|].
    intros [Hnil|Hx]; [discriminate | exact Hx].
  - intros w w' result Hcap Hrun.
    apply get_deployments_for_project_returns in Hrun
      as (project & releases & environments & tenants & before & w0 & collected
          & Hproject & Hreleases & Henvs & Htens & Hplatform & _ & _ & _ & Hscan & ->).
    exists project, releases, environments, tenants.
    split; [exact Hproject|]. split; [exact Hreleases|].
    split; [exact Henvs|]. split; [exact Htens|].
    split; [intros Hnone; rewrite Hnone in Henvs; inversion Henvs; reflexivity|].
    split; [intros Hnone; rewrite Hnone in Htens; inversion Htens; reflexivity|].
    simpl. rewrite (scan_releases_returns_first _ _ _ _ _ _ _ _ _ _ Hcap Hscan), Hplatform.
    f_equal. f_equal. apply filter_bool_prop. intros d.
    unfold passes. rewrite !andb_true_iff, !negb_true_iff.
    destruct (outside_dates dates d) as [e|[|]]; simpl; intuition congruence.
Qed.

End Filtering.

(** *** Runs on the small platform *)

#[local] Existing Instance Demo.helpers.

(** The identifiers a run returns (or the exception) and the releases
    whose deployments it fetched. *)
Local Abbreviation returned x :=
  (match x.2 with
   | inr result => inr (map DeploymentId (Deployments result))
   | inl e => inl e
   end).

(** With a cap of one, the first release fills the list and the two
    later releases are never fetched. *)
Example run_cap_one :
  returned (Demo.run [] [] None 1) = inr ["Deployments-1"]
  ∧ calls (Demo.run [] [] None 1).1
    = [CallGetProject "Spaces-1" "Web";
       CallGetProjectReleases "Spaces-1" "Projects-1" 100;
       CallGetReleaseDeployments "Spaces-1" "Releases-1";
       CallGetTask "Spaces-1" "ServerTasks-1";
       CallGetChannelCached "Spaces-1" "Channels-1"].
Proof. split; vm_compute; reflexivity. Qed.

(** With a cap of three, the scan stops inside the second release. *)
Example run_cap_three :
  returned (Demo.run [] [] None 3) = inr ["Deployments-1"; "Deployments-2"; "Deployments-3"]
  ∧ fetched_releases (calls (Demo.run [] [] None 3).1) = ["Releases-1"; "Releases-2"]
  ∧ enrichments (calls (Demo.run [] [] None 3).1) = 3%nat.
Proof. repeat split; vm_compute; reflexivity. Qed.

(** With a cap of zero, the first deployment of the first release is
    enriched, appended and then cut off. *)
Example run_cap_zero :
  returned (Demo.run [] [] None 0) = inr []
  ∧ fetched_releases (calls (Demo.run [] [] None 0).1) = ["Releases-1"]
  ∧ enrichments (calls (Demo.run [] [] None 0).1) = 1%nat.
Proof. repeat split; vm_compute; reflexivity. Qed.

(** A negative cap returns nothing either. *)
Example run_cap_negative :
  returned (Demo.run [] [] None (-1)) = inr []
  ∧ enrichments (calls (Demo.run [] [] None (-1)).1) = 1%nat.
Proof. repeat split; vm_compute; reflexivity. Qed.

(** Two dates in either order keep the deployments created on the first
    and on the tenth of January, both bounds included, and drop the one
    created on the twentieth. *)
Example run_two_dates :
  returned (Demo.run ["Dev"] [] (Some ["2024-01-10"; "2024-01-01"]) 5)
    = inr ["Deployments-1"; "Deployments-3"]
  ∧ returned (Demo.run ["Dev"] [] (Some ["2024-01-01"; "2024-01-10"]) 5)
    = inr ["Deployments-1"; "Deployments-3"].
Proof. split; vm_compute; reflexivity. Qed.

(** A tenant filter on its own; an empty environment set filters
    nothing. *)
Example run_tenant_only :
  returned (Demo.run [] ["Contoso"] None 5) = inr ["Deployments-3"].
Proof. vm_compute. reflexivity. Qed.

Example run_unknown_environment :
  returned (Demo.run ["Nowhere"] [] None 5) = inl (Raised "ResourceNotFound").
Proof. vm_compute. reflexivity. Qed.


Lemma two_dates_closed_range_any_order_witness :
  agree (Demo.run ["Dev"] [] (Some ["2024-01-10"; "2024-01-01"]) 5)
        (Demo.run ["Dev"] [] (Some ["2024-01-01"; "2024-01-10"]) 5)
  ∧ (outside_dates (Some ["2024-01-10"; "2024-01-01"]) Demo.d3 = inr false
     ↔ Z.min 20240110 20240101 <= 20240110 <= Z.max 20240110 20240101).
Proof.
  destruct (two_dates_closed_range_any_order (H := Demo.helpers) "Spaces-1" "Web" ["Dev"] []
              "API-KEY" "https://octopus.example" "2024-01-10" "2024-01-01" 5)
    as (Hswap & Hrange & _).
  split; [apply Hswap|].
  apply (Hrange Demo.d3 20240110 20240101 20240110); reflexivity.
Defined.

Lemma empty_filter_set_keeps_all_witness :
  ∃ w' result project releases environments tenants,
    Demo.run [] ["Contoso"] None 5 = (w', inr result)
    ∧ get_project Demo.server "Spaces-1" "Web" = inr project
    ∧ get_project_releases Demo.server "Spaces-1" (project_Id project) 100 = inr releases
    ∧ environments = []
    ∧ map DeploymentId (Deployments result)
      = take 5 (map deployment_Id
                  (filter (λ d, environment_mismatch environments d = false
                                ∧ tenant_mismatch tenants d = false
                                ∧ outside_dates None d = inr false)
                          (stream Demo.server "Spaces-1" releases))).
Proof.
  assert (Hrun : ∃ w' result, Demo.run [] ["Contoso"] None 5 = (w', inr result))
    by (eexists _, _; vm_compute; reflexivity).
  destruct Hrun as (w' & result & Hrun).
  destruct (empty_filter_set_keeps_all (H := Demo.helpers) "Spaces-1" "Web" [] ["Contoso"]
              "API-KEY" "https://octopus.example" None 5) as (_ & _ & Hall).
  destruct (Hall Demo.start w' result ltac:(lia) Hrun)
    as (project & releases & environments & tenants & Hp & Hr & _ & _ & Hnone & _ & Hids).
  exists w', result, project, releases, environments, tenants.
  split; [exact Hrun|]. split; [exact Hp|]. split; [exact Hr|].
  split; [apply Hnone; reflexivity | exact Hids].
Defined.

End DeploymentsSpec.

(** ** copilot_handler_internal *)

Module FunctionAppSpec.
Import Py FunctionApp.

Lemma sse_headers_content_type : get_sse_headers !! "Content-Type" = Some "text/event-stream".
Proof. unfold get_sse_headers. rewrite lookup_insert_ne by discriminate. apply lookup_insert_eq. Qed.

Lemma sse_headers_cache_control : get_sse_headers !! "Cache-Control" = Some "no-cache".
Proof. unfold get_sse_headers. apply lookup_insert_eq. Qed.

Section Handler.
Context `{Collaborators}.

(** A message answered through [convert_to_sse_response] with the
    stream headers is a stream response, provided the conversion frames
    its text. *)
Lemma answer_stream_response (message : string) :
  (∀ s, sse_framed (convert_to_sse_response s)) → stream_response (answer message).
Proof.
  intros Hframed. unfold stream_response, answer, http_response. simpl.
  split; [apply Hframed|]. split; [apply sse_headers_content_type | apply sse_headers_cache_control].
Qed.

Lemma request_config_details_stream_response :
  (∀ s, sse_framed (convert_to_sse_response s)) →
  stream_response request_config_details.2.
Proof.
  intros Hframed. unfold request_config_details.
  destruct (environ !! "GITHUB_CLIENT_REDIRECT") as [redirect|]; unfold stream_response; simpl.
  - split; [apply Hframed|].
    split; [apply sse_headers_content_type | apply sse_headers_cache_control].
  - split.
    + split; [reflexivity|].
      exists "data: An exception was raised. See the logs for more details.". reflexivity.
    + split; [apply sse_headers_content_type | apply sse_headers_cache_control].
Qed.

(** Every exception that is an instance of [Exception] is caught by
    some clause, and every clause answers with a stream response. *)
Lemma handle_exception_stream_response (e : exc) :
  (∀ s, sse_framed (convert_to_sse_response s)) →
  (∃ c, c ∈ taxonomy ∧ isinstance e c = true) →
  ∃ events response,
    handle_exception e = (events, inr response) ∧ stream_response response.
Proof.
  intros Hframed (c & Hc & Hinst). unfold handle_exception.
  destruct (isinstance e UserNotLoggedIn) eqn:H1;
    [eexists _, _; split; [reflexivity | apply answer_stream_response, Hframed]|].
  destruct (isinstance e OctopusRequestFailed) eqn:H2;
    [eexists _, _; split; [reflexivity | apply answer_stream_response, Hframed]|].
  destruct (isinstance e GitHubRequestFailed) eqn:H3;
    [eexists _, _; split; [reflexivity | apply answer_stream_response, Hframed]|].
  destruct (isinstance e NotAuthorized) eqn:H4;
    [eexists _, _; split; [reflexivity | apply answer_stream_response, Hframed]|].
  destruct (isinstance e SpaceNotFound) eqn:H5;
    [eexists _, _; split; [reflexivity | apply answer_stream_response, Hframed]|].
  destruct (isinstance e ResourceNotFound) eqn:H6;
    [eexists _, _; split; [reflexivity | apply answer_stream_response, Hframed]|].
  destruct (isinstance e UserNotConfigured) eqn:H7.
  { simpl. pose proof (request_config_details_stream_response Hframed) as Hconfig.
    destruct request_config_details as [events response]. eauto. }
  destruct (isinstance e OctopusApiKeyInvalid) eqn:H8.
  { simpl. pose proof (request_config_details_stream_response Hframed) as Hconfig.
    destruct request_config_details as [events response]. eauto. }
  simpl.
  destruct (isinstance e ValueError) eqn:H9;
    [eexists _, _; split; [reflexivity | apply answer_stream_response, Hframed]|].
  destruct (isinstance e Exception) eqn:H10;
    [eexists _, _; split; [reflexivity | apply answer_stream_response, Hframed]|].
  exfalso. unfold taxonomy in Hc.
  repeat (apply elem_of_cons in Hc as [->|Hc]; [congruence|]).
  inversion Hc.
Qed.

(** C5.  Whatever exception of the taxonomy is raised inside the
    handler (an instance of one of the classes its clauses name, the
    last of which is [Exception]), the handler returns a response, it
    does not raise: the body of the response is framed as an event
    stream and its headers are [Content-Type: text/event-stream] and
    [Cache-Control: no-cache].  The conversion of a text to the wire
    format is assumed to frame it. *)
Theorem taxonomy_yields_stream_response (req : HttpRequest) (before : list event) (e : exc) :
  (∀ s, sse_framed (convert_to_sse_response s)) →
  handler_body req = (before, inl e) →
  (∃ c, c ∈ taxonomy ∧ isinstance e c = true) →
  ∃ events response,
    copilot_handler_internal req = (before ++ events, inr response)
    ∧ handle_exception e = (events, inr response)
    ∧ sse_framed (response_body response)
    ∧ headers response !! "Content-Type" = Some "text/event-stream"
    ∧ headers response !! "Cache-Control" = Some "no-cache".
Proof.
  intros Hframed Hbody Htax.
  destruct (handle_exception_stream_response e Hframed Htax)
    as (events & response & Hhandle & Hstream).
  exists events, response. unfold copilot_handler_internal.
  rewrite Hbody, Hhandle. split; [reflexivity|]. split; [reflexivity | exact Hstream].
Qed.

(** A handler that returns without raising answers with a stream
    response as well. *)
Lemma handler_body_stream_response (req : HttpRequest) (events : list event)
    (response : HttpResponse) :
  (∀ s, sse_framed (convert_to_sse_response s)) →
  handler_body req = (events, inr response) → stream_response response.
Proof.
  intros Hframed. unfold handler_body.
  destruct (extract_query req) as [ev [e|query]]; [discriminate|].
  destruct (negb (truthy_str (strip query))).
  - intros Hr. injection Hr as <- <-. apply (answer_stream_response _ Hframed).
  - destruct (llm_tool_query query); [discriminate|].
    intros Hr. injection Hr as <- <-. apply (answer_stream_response _ Hframed).
Qed.

(** *** Empty queries *)

(** Reading the query dispatches nothing. *)
Lemma extract_query_no_dispatch (req : HttpRequest) : no_dispatch (extract_query req).1.
Proof.
  intros query. unfold extract_query.
  assert (Hbody : LlmToolQuery query ∉
            (if negb (truthy_str (body req)) || negb (truthy_str (bytes_strip (body req)))
             then ([], inr "")
             else match last_message_content (body req) with
                  | inl e => if isinstance e Exception then ([HandleError e], inr "")
                             else ([], inl e)
                  | inr (Some content) => ([], inr content)
                  | inr None => ([], inr "")
                  end : list event * (exc + string)).1).
  { destruct (negb _ || negb _); [apply not_elem_of_nil|].
    destruct (last_message_content (body req)) as [e|[content|]];
      try apply not_elem_of_nil.
    destruct (isinstance e Exception); simpl; [|apply not_elem_of_nil].
    intros Hin. apply list_elem_of_singleton in Hin. discriminate. }
  destruct (params req !! "message") as [message|]; [|exact Hbody].
  destruct (truthy_str message); [apply not_elem_of_nil | exact Hbody].
Qed.

(** C10.  When the query that [extract_query] returns is empty or holds
    white space only, the handler returns the sample question as a
    stream response and nothing is dispatched to the language model (so
    no tool handler runs), whatever the model would have answered.  The
    extracted query is empty, in particular, when there is no [message]
    parameter and the body is empty or blank, or is malformed, or holds
    no messages, or its last message has no content. *)
Theorem empty_query_answers_sample_question (req : HttpRequest) :
  (∀ events query,
     extract_query req = (events, inr query) →
     strip query = "" →
     copilot_handler_internal req
       = (events ++ [LoggerInfo ("Query: " +:+ query)], inr sample_response)
     ∧ no_dispatch (copilot_handler_internal req).1)
  ∧ (params req !! "message" = None →
     (bytes_strip (body req) = "" → extract_query req = ([], inr ""))
     ∧ (∀ e, bytes_strip (body req) ≠ "" →
             json_loads (body req) = inl e → isinstance e Exception = true →
             extract_query req = ([HandleError e], inr ""))
     ∧ (bytes_strip (body req) ≠ "" →
        last_message_content (body req) = inr None →
        extract_query req = ([], inr ""))).
Proof.
  split.
  - intros events query Hquery Hblank.
    assert (Hrun : copilot_handler_internal req
                   = (events ++ [LoggerInfo ("Query: " +:+ query)], inr sample_response)).
    { unfold copilot_handler_internal, handler_body. rewrite Hquery, Hblank. reflexivity. }
    split; [exact Hrun|]. rewrite Hrun. simpl. intros q Hin.
    apply elem_of_app in Hin as [Hin|Hin].
    + pose proof (extract_query_no_dispatch req q) as Hno. rewrite Hquery in Hno.
      apply Hno, Hin.
    + apply list_elem_of_singleton in Hin. discriminate.
  - intros Hparam. unfold extract_query. rewrite Hparam.
    assert (Hnonblank : bytes_strip (body req) ≠ "" →
              negb (truthy_str (body req)) || negb (truthy_str (bytes_strip (body req))) = false).
    { intros Hne. destruct (body req) as [|c rest] eqn:Hb; [contradiction Hne; reflexivity|].
      simpl. destruct (bytes_strip (String c rest)); [contradiction Hne; reflexivity | reflexivity]. }
    split; [|split].
    + intros Hempty. rewrite Hempty. simpl. rewrite orb_true_r. reflexivity.
    + intros e Hne Hjson Hexc. rewrite (Hnonblank Hne).
      unfold last_message_content. rewrite Hjson. simpl. rewrite Hexc. reflexivity.
    + intros Hne Hnone. rewrite (Hnonblank Hne), Hnone. reflexivity.
Qed.

End Handler.

#[local] Existing Instance DemoApp.collaborators.

Lemma one_event_framed (s : string) : sse_framed (DemoApp.one_event s).
Proof.
  unfold sse_framed, DemoApp.one_event. split; [destruct s; reflexivity|].
  exists ("data: " +:+ s). reflexivity.
Qed.

(** A form request whose tool cannot find the space is answered with
    the message for [SpaceNotFound], as a stream. *)
Lemma taxonomy_yields_stream_response_witness :
  ∃ events response,
    copilot_handler_internal (DemoApp.form " hi ")
      = ([LoggerInfo "Query: hi"; LlmToolQuery "hi"] ++ events, inr response)
    ∧ handle_exception (DemoApp.raised SpaceNotFound "Nowhere" "" "") = (events, inr response)
    ∧ sse_framed (response_body response)
    ∧ headers response !! "Content-Type" = Some "text/event-stream"
    ∧ headers response !! "Cache-Control" = Some "no-cache".
Proof.
  apply (taxonomy_yields_stream_response (DemoApp.form " hi ")
           [LoggerInfo "Query: hi"; LlmToolQuery "hi"]
           (DemoApp.raised SpaceNotFound "Nowhere" "" "")).
  - exact one_event_framed.
  - vm_compute. reflexivity.
  - exists SpaceNotFound. split; [unfold taxonomy; set_solver | vm_compute; reflexivity].
Defined.

(** A chat whose last message is blank. *)
Lemma empty_query_answers_sample_question_witness :
  copilot_handler_internal (DemoApp.post "{blank}")
    = ([] ++ [LoggerInfo ("Query: " +:+ "")], inr sample_response)
  ∧ no_dispatch (copilot_handler_internal (DemoApp.post "{blank}")).1.
Proof.
  destruct (empty_query_answers_sample_question (DemoApp.post "{blank}")) as [Hmain _].
  apply (Hmain [] ""); vm_compute; reflexivity.
Defined.

(** A malformed body is reported to [handle_error] and answered with the
    sample question; a query that is not empty is dispatched. *)
Example malformed_body :
  copilot_handler_internal (DemoApp.post "garbage")
  = ([HandleError (DemoApp.raised ValueError "" "" ""); LoggerInfo "Query: "],
     inr sample_response).
Proof. vm_compute. reflexivity. Qed.

Example query_dispatched :
  (copilot_handler_internal (DemoApp.post "{projects}")).1
  = [LoggerInfo "Query: List projects"; LlmToolQuery "List projects"].
Proof. vm_compute. reflexivity. Qed.

(** Without a redirect address the request to configure is answered
    with status 500, still as a stream. *)
Example not_configured_without_redirect :
  (handle_exception (DemoApp.raised UserNotConfigured "" "" "")).2
  = inr {| response_body :=
             "data: An exception was raised. See the logs for more details." +:+ nl +:+ nl;
           status_code := 500;
           headers := get_sse_headers |}.
Proof. vm_compute. reflexivity. Qed.

End FunctionAppSpec.

(** ** get_deployments_for_project: further properties *)

Module DeploymentsMore.
Import Py PyFacts Eff Deployments DeploymentsNotions DeploymentsSpec.

Section Enrichment.
Context `{Helpers}.
Variable space_id : string.
Variable project : Project.
Variable environments tenants : list Resource.
Variable dates : option (list string).
Variable max_results : Z.

Local Abbreviation enrich := (enrich space_id project environments tenants).
Local Abbreviation scan_deployments :=
  (scan_deployments space_id project environments tenants dates max_results).
Local Abbreviation scan_releases :=
  (scan_releases space_id project environments tenants dates max_results).

Lemma name_of_match_value (P : Resource → Prop) `{∀ x, Decision (P x)}
    (resources : list Resource) (w : World) :
  name_of_match P resources w = (w, name_value P resources).
Proof.
  destruct resources as [|x resources]; [reflexivity|].
  unfold name_of_match, name_value, next_match, bind, lift, ret.
  destruct (filter P (x :: resources)); reflexivity.
Qed.



(** What an enrichment ends with: a record whose fields are those of
    the project, the release and the deployment, the names looked up
    by id; or an exception of the task or channel lookup or of a lookup
    by id. *)
Lemma enrich_outcome (release : Release) (deployment : Deployment) (w w1 : World)
    (r : exc + DeploymentRecord) :
  enrich release deployment w = (w1, r) →
  platform w1 = platform w
  ∧ match r with
    | inr record =>
        SpaceId record = space_id
        ∧ ProjectId record = project_Id project
        ∧ ProjectName record = project_Name project
        ∧ ReleaseVersion record = release_Version release
        ∧ EnvironmentId record = deployment_EnvironmentId deployment
        ∧ TenantId record = deployment_TenantId deployment
        ∧ names_filled environments tenants record
    | inl e =>
        (∃ a b, get_task (platform w) a b = inl e)
        ∨ (∃ a b, get_channel_cached (platform w) a b = inl e)
        ∨ name_value (λ tenant, Some (resource_Id tenant) = deployment_TenantId deployment)
            tenants = inl e
        ∨ name_value (λ env, resource_Id env = deployment_EnvironmentId deployment)
            environments = inl e
    end.
Proof.
  unfold Deployments.enrich. intros Hrun. unfold bind at 1 in Hrun.
  assert (Htail : ∀ (task : option Task) (w0 : World),
            platform w0 = platform w →
            bind (api (CallGetChannelCached space_id (deployment_ChannelId deployment))
                    (λ p, get_channel_cached p space_id (deployment_ChannelId deployment)))
              (λ channel,
                 bind (name_of_match
                         (λ tenant, Some (resource_Id tenant) = deployment_TenantId deployment)
                         tenants)
                   (λ tenant_name,
                      bind (name_of_match
                              (λ env, resource_Id env = deployment_EnvironmentId deployment)
                              environments)
                        (λ environment_name,
                           ret {| SpaceId := space_id;
                                  ProjectId := project_Id project;
                                  ProjectName := project_Name project;
                                  ReleaseVersion := release_Version release;
                                  DeploymentId := deployment_Id deployment;
                                  TaskId := deployment_TaskId deployment;
                                  TenantId := deployment_TenantId deployment;
                                  TenantName := tenant_name;
                                  ReleaseId := deployment_ReleaseId deployment;
                                  EnvironmentId := deployment_EnvironmentId deployment;
                                  EnvironmentName := environment_name;
                                  ChannelId := deployment_ChannelId deployment;
                                  ChannelName := channel_Name channel;
                                  Created := deployment_Created deployment;
                                  TaskState := task_State <$> task;
                                  TaskDuration := task_Duration <$> task;
                                  ReleaseNotes := strip_markdown_urls (release_ReleaseNotes release);
                                  DeployedBy := deployment_DeployedBy deployment |}))) w0
            = (w1, r) →
            platform w1 = platform w
            ∧ match r with
              | inr record =>
                  SpaceId record = space_id
                  ∧ ProjectId record = project_Id project
                  ∧ ProjectName record = project_Name project
                  ∧ ReleaseVersion record = release_Version release
                  ∧ EnvironmentId record = deployment_EnvironmentId deployment
                  ∧ TenantId record = deployment_TenantId deployment
                  ∧ names_filled environments tenants record
              | inl e =>
                  (∃ a b, get_task (platform w) a b = inl e)
                  ∨ (∃ a b, get_channel_cached (platform w) a b = inl e)
                  ∨ name_value
                      (λ tenant, Some (resource_Id tenant) = deployment_TenantId deployment)
                      tenants = inl e
                  ∨ name_value (λ env, resource_Id env = deployment_EnvironmentId deployment)
                      environments = inl e
              end).
  { intros task w0 Hp Htail. unfold bind at 1, api in Htail. rewrite Hp in Htail.
    destruct (get_channel_cached (platform w) space_id (deployment_ChannelId deployment))
      as [e|channel] eqn:Hchannel.
    { injection Htail as <- <-. split; [reflexivity|]. right. left. eauto. }
    unfold bind at 1 in Htail. rewrite name_of_match_value in Htail.
    destruct (name_value _ tenants) as [e|tenant_name] eqn:Htenant.
    { injection Htail as <- <-. split; [reflexivity|]. right. right. left. reflexivity. }
    unfold bind at 1 in Htail. rewrite name_of_match_value in Htail.
    destruct (name_value _ environments) as [e|environment_name] eqn:Henvironment.
    { injection Htail as <- <-. split; [reflexivity|]. right. right. right. reflexivity. }
    unfold ret in Htail. injection Htail as <- <-. split; [reflexivity|].
    unfold names_filled. simpl. repeat split; assumption. }
  destruct (has_task deployment) as [task_id|].
  - unfold bind at 1, api, ret in Hrun.
    destruct (get_task (platform w) space_id task_id) as [e|task] eqn:Htask.
    + injection Hrun as <- <-. split; [reflexivity|]. left. eauto.
    + eapply Htail; [|exact Hrun]. reflexivity.
  - unfold ret at 1 in Hrun. eapply Htail; [|exact Hrun]. reflexivity.
Qed.

(** *** Exceptions come from the collaborators *)




(** *** What every collected record satisfies *)

Lemma scan_deployments_all (P : DeploymentRecord → Prop) (release : Release)
    (items : list Deployment) (deployments collected : list DeploymentRecord) (w w' : World) :
  (∀ deployment w0 w1 record,
     environment_mismatch environments deployment = false →
     tenant_mismatch tenants deployment = false →
     enrich release deployment w0 = (w1, inr record) → P record) →
  Forall P deployments →
  scan_deployments release items deployments w = (w', inr collected) →
  Forall P collected.
Proof.
  intros HP. revert deployments w.
  induction items as [|deployment rest IH]; intros deployments w Hall Hrun.
  - simpl in Hrun. injection Hrun as <- <-. exact Hall.
  - rewrite scan_deployments_cons in Hrun.
    destruct (environment_mismatch environments deployment) eqn:Henv; [eapply IH; eassumption|].
    destruct (tenant_mismatch tenants deployment) eqn:Hten; [eapply IH; eassumption|].
    destruct (outside_dates dates deployment) as [e0|[|]]; [discriminate | eapply IH; eassumption |].
    destruct (enrich release deployment w) as [w1 [e1|record]] eqn:Henrich; [discriminate|].
    assert (Hall' : Forall P (deployments ++ [record])).
    { apply Forall_app. split; [exact Hall|]. constructor; [|constructor].
      eapply HP; eassumption. }
    destruct (cap_reached _ _); [injection Hrun as <- <-; exact Hall' | eapply IH; eassumption].
Qed.

Lemma scan_releases_all (P : DeploymentRecord → Prop) (releases : list Release)
    (deployments collected : list DeploymentRecord) (w w' : World) :
  (∀ release deployment w0 w1 record,
     environment_mismatch environments deployment = false →
     tenant_mismatch tenants deployment = false →
     enrich release deployment w0 = (w1, inr record) → P record) →
  Forall P deployments →
  scan_releases releases deployments w = (w', inr collected) →
  Forall P collected.
Proof.
  intros HP. revert deployments w.
  induction releases as [|release rest IH]; intros deployments w Hall Hrun.
  - simpl in Hrun. injection Hrun as <- <-. exact Hall.
  - rewrite scan_releases_cons in Hrun. cbv zeta in Hrun.
    destruct (get_release_deployments _ _ _) as [e0|items]; [discriminate|].
    destruct (scan_deployments release items deployments _) as [w1 [e1|collected1]] eqn:Hinner;
      [discriminate|].
    apply (scan_deployments_all P) in Hinner; [|apply HP|exact Hall].
    destruct (cap_reached _ _); [injection Hrun as <- <-; exact Hinner | eapply IH; eassumption].
Qed.

End Enrichment.

(** *** A smaller cap returns the first records of a larger one *)

Section TwoCaps.
Context `{Helpers}.
Variable space_id : string.
Variable project : Project.
Variable environments tenants : list Resource.
Variable dates : option (list string).
Variable small large : Z.
Hypothesis small_le_large : small <= large.

Local Abbreviation scan_deployments_with cap :=
  (scan_deployments space_id project environments tenants dates cap).
Local Abbreviation scan_releases_with cap :=
  (scan_releases space_id project environments tenants dates cap).

Lemma scan_deployments_two_caps (release : Release) (items : list Deployment)
    (deployments c1 c2 : list DeploymentRecord) (w w1 w2 : World) :
  Z.of_nat (length deployments) < small →
  scan_deployments_with small release items deployments w = (w1, inr c1) →
  scan_deployments_with large release items deployments w = (w2, inr c2) →
  (Z.of_nat (length c1) < small ∧ c1 = c2 ∧ w1 = w2)
  ∨ (Z.of_nat (length c1) = small ∧ c1 `prefix_of` c2).
Proof using small_le_large.
  revert deployments w. induction items as [|deployment rest IH]; intros deployments w Hlt H1 H2.
  - simpl in H1, H2. injection H1 as <- <-. injection H2 as <- <-. left. auto.
  - rewrite scan_deployments_cons in H1, H2.
    destruct (environment_mismatch environments deployment); [eapply IH; eassumption|].
    destruct (tenant_mismatch tenants deployment); [eapply IH; eassumption|].
    destruct (outside_dates dates deployment) as [e0|[|]];
      [discriminate | eapply IH; eassumption |].
    destruct (enrich _ _ _ _ release deployment w) as [w' [e1|record]]; [discriminate|].
    unfold cap_reached in H1, H2.
    assert (Hlen : length (deployments ++ [record]) = S (length deployments))
      by (rewrite length_app; simpl; lia).
    destruct (Z.leb_spec small (Z.of_nat (length (deployments ++ [record])))) as [Hs|Hs].
    + injection H1 as <- <-. right. split; [lia|].
      destruct (Z.leb_spec large (Z.of_nat (length (deployments ++ [record])))) as [Hl|Hl].
      * injection H2 as <- <-. reflexivity.
      * apply scan_deployments_collects in H2 as (added & _ & -> & _).
        apply prefix_app_r. reflexivity.
    + destruct (Z.leb_spec large (Z.of_nat (length (deployments ++ [record])))) as [Hl|Hl];
        [lia|].
      eapply IH; eassumption.
Qed.

Lemma scan_releases_two_caps (releases : list Release)
    (deployments c1 c2 : list DeploymentRecord) (w w1 w2 : World) :
  Z.of_nat (length deployments) < small →
  scan_releases_with small releases deployments w = (w1, inr c1) →
  scan_releases_with large releases deployments w = (w2, inr c2) →
  (Z.of_nat (length c1) < small ∧ c1 = c2 ∧ w1 = w2)
  ∨ (Z.of_nat (length c1) = small ∧ c1 `prefix_of` c2).
Proof using small_le_large.
  revert deployments w. induction releases as [|release rest IH]; intros deployments w Hlt H1 H2.
  - simpl in H1, H2. injection H1 as <- <-. injection H2 as <- <-. left. auto.
  - rewrite scan_releases_cons in H1, H2. cbv zeta in H1, H2.
    destruct (get_release_deployments _ _ _) as [e0|items]; [discriminate|].
    destruct (scan_deployments_with small release items deployments _)
      as [wa [ea|ca]] eqn:Ha; [discriminate|].
    destruct (scan_deployments_with large release items deployments _)
      as [wb [eb|cb]] eqn:Hb; [discriminate|].
    pose proof (scan_deployments_collects _ _ _ _ _ _ _ _ _ _ _ _ Ha)
      as (added & _ & Hadded & _ & _ & _ & Hbound).
    destruct (scan_deployments_two_caps _ _ _ _ _ _ _ _ Hlt Ha Hb)
      as [(Hbelow & <- & <-)|(Hat & Hprefix)]; unfold cap_reached in H1, H2.
    + destruct (Z.leb_spec small (Z.of_nat (length ca))); [lia|].
      destruct (Z.leb_spec large (Z.of_nat (length ca))); [lia|].
      eapply IH; eassumption.
    + destruct (Z.leb_spec small (Z.of_nat (length ca))); [|lia].
      injection H1 as <- <-. right. split; [exact Hat|].
      destruct (Z.leb_spec large (Z.of_nat (length cb))).
      * injection H2 as <- <-. exact Hprefix.
      * apply scan_releases_collects in H2 as (more & _ & -> & _).
        etransitivity; [exact Hprefix | apply prefix_app_r; reflexivity].
Qed.

End TwoCaps.

(** *** The whole function *)

Section Whole.
Context `{Helpers}.


Lemma Forall2_lookup_functional {A B} (f : A → exc + B) (l : list A) (l1 l2 : list B) :
  Forall2 (λ a b, f a = inr b) l l1 → Forall2 (λ a b, f a = inr b) l l2 → l1 = l2.
Proof.
  intros H1. revert l2. induction H1 as [|a b l l1 Hab H1 IH]; intros l2 H2.
  - inversion H2. reflexivity.
  - inversion H2 as [|a' b' l' l2' Hab' H2']; subst. f_equal; [congruence | apply IH, H2'].
Qed.

(** Whatever calls were made before, the scan of the releases returns
    the same on the same platform. *)
Lemma scan_releases_same_platform (space_id : string) (project : Project)
    (environments tenants : list Resource) (dates : option (list string)) (max_results : Z)
    (releases : list Release) (w1 w2 w1' : World) (r : exc + list DeploymentRecord) :
  platform w1 = platform w2 →
  scan_releases space_id project environments tenants dates max_results releases [] w1
    = (w1', r) →
  ∃ w2', scan_releases space_id project environments tenants dates max_results releases [] w2
         = (w2', r).
Proof.
  intros Hp Hrun.
  destruct (reads_only_scan_releases space_id project environments tenants dates max_results
              releases [] (platform w1)) as (new & r' & Hnew).
  destruct w1 as [p1 cs1], w2 as [p2 cs2]. simpl in Hp. subst p2.
  simpl in Hnew. rewrite Hnew in Hrun. injection Hrun as <- <-.
  eexists. apply Hnew.
Qed.

(** X1.  The four arguments are validated before anything is fetched:
    when [ensure_string_not_empty] rejects the space id, the project
    name, the API key or the server URL, the call raises and no call to
    the platform is made. *)
Theorem validation_precedes_every_call (space_id project_name : string)
    (environment_names tenant_names : Names) (api_key octopus_url : string)
    (dates : option (list string)) (max_results : Z) (w : World) (e : exc) :
  ensure_string_not_empty space_id
    "space_id must be a non-empty string (get_deployments_for_project)." = inl e
  ∨ ensure_string_not_empty project_name
      "project_name must be a non-empty string (get_deployments_for_project)." = inl e
  ∨ ensure_string_not_empty api_key
      "api_key must be a non-empty string (get_deployments_for_project)." = inl e
  ∨ ensure_string_not_empty octopus_url
      "octopus_url must be a non-empty string (get_deployments_for_project)." = inl e →
  ∃ e',
    get_deployments_for_project space_id project_name environment_names tenant_names
      api_key octopus_url dates max_results w = (w, inl e').
Proof.
  intros Hbad. unfold get_deployments_for_project.
  unfold bind at 1, lift.
  destruct (ensure_string_not_empty space_id _) as [e1|[]] eqn:H1; [eauto|].
  unfold bind at 1, lift.
  destruct (ensure_string_not_empty project_name _) as [e2|[]] eqn:H2; [eauto|].
  unfold bind at 1, lift.
  destruct (ensure_string_not_empty api_key _) as [e3|[]] eqn:H3; [eauto|].
  unfold bind at 1, lift.
  destruct (ensure_string_not_empty octopus_url _) as [e4|[]] eqn:H4; [eauto|].
  destruct Hbad as [Hb|[Hb|[Hb|Hb]]]; discriminate.
Qed.


(** X3.  Of two calls that differ in the cap only and both return, the
    one with the smaller cap returns the first records of the other:
    raising the cap adds records at the end and changes none. *)
Theorem smaller_cap_returns_first_records (space_id project_name : string)
    (environment_names tenant_names : Names) (api_key octopus_url : string)
    (dates : option (list string)) (small large : Z) (w w1 w2 : World)
    (result1 result2 : Result) :
  0 <= small → small <= large →
  get_deployments_for_project space_id project_name environment_names tenant_names
    api_key octopus_url dates small w = (w1, inr result1) →
  get_deployments_for_project space_id project_name environment_names tenant_names
    api_key octopus_url dates large w = (w2, inr result2) →
  Deployments result1 = take (Z.to_nat small) (Deployments result2).
Proof.
  intros Hsmall Hle Hrun1 Hrun2.
  apply get_deployments_for_project_returns in Hrun1
    as (project & releases & environments & tenants & before1 & wa & c1
        & Hproject & Hreleases & Henvs & Htens & Hpa & _ & _ & _ & Hscan1 & ->).
  apply get_deployments_for_project_returns in Hrun2
    as (project' & releases' & environments' & tenants' & before2 & wb & c2
        & Hproject' & Hreleases' & Henvs' & Htens' & Hpb & _ & _ & _ & Hscan2 & ->).
  assert (project' = project) as -> by congruence.
  assert (releases' = releases) as -> by congruence.
  assert (environments' = environments) as ->
    by (eapply Forall2_lookup_functional; eassumption).
  assert (tenants' = tenants) as -> by (eapply Forall2_lookup_functional; eassumption).
  simpl. destruct (Z.eq_dec small 0) as [->|Hpos];
    [rewrite (slice_to_take 0) by lia; reflexivity|].
  destruct (scan_releases_same_platform _ _ _ _ _ _ _ wb wa _ _ ltac:(congruence) Hscan2)
    as [wb' Hscan2'].
  pose proof (scan_releases_collects _ _ _ _ _ _ _ _ _ _ _ Hscan1) as (a1 & _ & _ & _ & _ & _ & Hb1).
  pose proof (scan_releases_collects _ _ _ _ _ _ _ _ _ _ _ Hscan2') as (a2 & _ & _ & _ & _ & _ & Hb2).
  simpl in Hb1, Hb2.
  rewrite (slice_to_all small c1) by lia. rewrite (slice_to_all large c2) by lia.
  destruct (scan_releases_two_caps space_id project environments tenants dates small large Hle
              releases [] c1 c2 wa w1 wb' ltac:(simpl; lia) Hscan1 Hscan2')
    as [(Hbelow & <- & _)|(Hat & [rest ->])].
  - symmetry. apply take_ge. lia.
  - symmetry. apply take_app_length'. lia.
Qed.

(** X4.  With a negative cap a call that returns gives an empty list,
    after enriching at most one deployment: the loops stop after the
    first append, and [deployments[:max_results]] drops it. *)
Theorem negative_cap_returns_nothing (space_id project_name : string)
    (environment_names tenant_names : Names) (api_key octopus_url : string)
    (dates : option (list string)) (max_results : Z) (w w' : World) (result : Result) :
  max_results < 0 →
  get_deployments_for_project space_id project_name environment_names tenant_names
    api_key octopus_url dates max_results w = (w', inr result) →
  Deployments result = []
  ∧ ∃ new, calls w' = calls w ++ new ∧ (enrichments new <= 1)%nat.
Proof.
  intros Hneg Hrun.
  apply get_deployments_for_project_returns in Hrun
    as (project & releases & environments & tenants & before & w0 & collected
        & _ & _ & _ & _ & _ & Hcalls & Hbefore & _ & Hscan & ->).
  apply scan_releases_collects in Hscan as (added & new & Hadded & Hnew & Hcount & _ & Hlen).
  simpl in Hadded, Hlen. subst added. simpl. split.
  - apply slice_to_negative; lia.
  - exists (before ++ new). split; [rewrite Hnew, Hcalls, app_assoc; reflexivity|].
    rewrite enrichments_app, Hbefore, Hcount. lia.
Qed.

(** X5.  Every returned record belongs to the requested space and the
    fetched project.  Its [EnvironmentName] is [None] when no
    environment was requested, which is when the list of the resolved
    environments is empty; otherwise it is what [get_key_or_none]
    gives for the [Name] of the first resolved environment whose id is
    the record's [EnvironmentId], and such an environment exists.  So
    the name is [None] exactly when no environment was requested or
    that environment's payload has no name.  The same holds for
    [TenantName]. *)
Theorem names_follow_requested_filters (space_id project_name : string)
    (environment_names tenant_names : Names) (api_key octopus_url : string)
    (dates : option (list string)) (max_results : Z) (w w' : World) (result : Result) :
  get_deployments_for_project space_id project_name environment_names tenant_names
    api_key octopus_url dates max_results w = (w', inr result) →
  ∃ project environments tenants,
    get_project (platform w) space_id project_name = inr project
    ∧ Forall2 (λ n x, get_environment_cached (platform w) space_id n = inr x)
        (sanitize_list environment_names) environments
    ∧ Forall2 (λ n x, get_tenant_cached (platform w) space_id n = inr x)
        (sanitize_list tenant_names) tenants
    ∧ (environments = [] ↔ sanitize_list environment_names = [])
    ∧ (tenants = [] ↔ sanitize_list tenant_names = [])
    ∧ ∀ record, record ∈ Deployments result →
        SpaceId record = space_id
        ∧ ProjectId record = project_Id project
        ∧ ProjectName record = project_Name project
        ∧ (environments = [] → EnvironmentName record = None)
        ∧ (environments ≠ [] →
           ∃ env,
             head (filter (λ env, resource_Id env = EnvironmentId record) environments)
               = Some env
             ∧ EnvironmentName record = get_key_or_none env "Name")
        ∧ (EnvironmentName record = None ↔
           environments = []
           ∨ ∃ env,
               head (filter (λ env, resource_Id env = EnvironmentId record) environments)
                 = Some env
               ∧ get_key_or_none env "Name" = None)
        ∧ (tenants = [] → TenantName record = None)
        ∧ (tenants ≠ [] →
           ∃ tenant,
             head (filter (λ tenant, Some (resource_Id tenant) = TenantId record) tenants)
               = Some tenant
             ∧ TenantName record = get_key_or_none tenant "Name")
        ∧ (TenantName record = None ↔
           tenants = []
           ∨ ∃ tenant,
               head (filter (λ tenant, Some (resource_Id tenant) = TenantId record) tenants)
                 = Some tenant
               ∧ get_key_or_none tenant "Name" = None).
Proof.
  intros Hrun.
  apply get_deployments_for_project_returns in Hrun
    as (project & releases & environments & tenants & before & w0 & collected
        & Hproject & _ & Henvs & Htens & _ & _ & _ & _ & Hscan & ->).
  exists project, environments, tenants.
  split; [exact Hproject|]. split; [exact Henvs|]. split; [exact Htens|].
  split; [destruct Henvs; split; intros; congruence|].
  split; [destruct Htens; split; intros; congruence|].
  intros record Hin. simpl in Hin.
  assert (Hcollected : record ∈ collected).
  { unfold slice_to in Hin. eapply subseteq_take, Hin. }
  clear Hin.
  eapply (scan_releases_all space_id project environments tenants dates max_results
            (λ record,
               SpaceId record = space_id
               ∧ ProjectId record = project_Id project
               ∧ ProjectName record = project_Name project
               ∧ names_filled environments tenants record)) in Hscan.
  - rewrite Forall_forall in Hscan. apply Hscan in Hcollected
      as (Hs & Hp & Hn & Hen & Htn).
    split; [exact Hs|]. split; [exact Hp|]. split; [exact Hn|].
    assert (Hexact : ∀ (P : Resource → Prop) `{∀ x, Decision (P x)} (resources : list Resource)
                       (name : option string),
              name_value P resources = inr name →
              (resources = [] → name = None)
              ∧ (resources ≠ [] →
                 ∃ r, head (filter P resources) = Some r ∧ name = get_key_or_none r "Name")
              ∧ (name = None ↔
                 resources = []
                 ∨ ∃ r, head (filter P resources) = Some r ∧ get_key_or_none r "Name" = None)).
    { intros P HP resources name Hvalue. unfold name_value in Hvalue.
      destruct resources as [|r0 rest]; [injection Hvalue as <-|].
      - split; [reflexivity|]. split; [contradiction|]. split; [left; reflexivity|reflexivity].
      - destruct (filter P (r0 :: rest)) as [|r found] eqn:Hfilter; [discriminate|].
        injection Hvalue as <-.
        split; [discriminate|]. split; [intros _; exists r; split; reflexivity|].
        split.
        + intros Hnone. right. exists r. split; [reflexivity | exact Hnone].
        + intros [Hnil|(r' & Hhead & Hnone)]; [discriminate|].
          simpl in Hhead. injection Hhead as <-. exact Hnone. }
    destruct (Hexact _ _ _ _ Hen) as (He1 & He2 & He3).
    destruct (Hexact _ _ _ _ Htn) as (Ht1 & Ht2 & Ht3).
    auto 10.
  - intros release deployment wa wb rec _ _ Henrich.
    apply enrich_outcome in Henrich as (_ & Hs & Hp & Hn & _ & _ & _ & Hnames). auto.
  - constructor.
Qed.

End Whole.

#[local] Existing Instance Demo.helpers.

Lemma validation_precedes_every_call_witness :
  ∃ e',
    get_deployments_for_project (H := Demo.helpers) "" "Web" [] [] "API-KEY" "https://octopus.example"
      None 10 Demo.start = (Demo.start, inl e').
Proof.
  apply (validation_precedes_every_call (H := Demo.helpers) "" "Web" [] [] "API-KEY" "https://octopus.example"
           None 10 Demo.start
           (ValueError "space_id must be a non-empty string (get_deployments_for_project).")).
  left. reflexivity.
Defined.


Lemma smaller_cap_returns_first_records_witness :
  ∃ w1 w2 result1 result2,
    Demo.run [] [] None 1 = (w1, inr result1)
    ∧ Demo.run [] [] None 3 = (w2, inr result2)
    ∧ Deployments result1 = take (Z.to_nat 1) (Deployments result2).
Proof.
  assert (H1 : ∃ w1 result1, Demo.run [] [] None 1 = (w1, inr result1))
    by (eexists _, _; vm_compute; reflexivity).
  assert (H3 : ∃ w2 result2, Demo.run [] [] None 3 = (w2, inr result2))
    by (eexists _, _; vm_compute; reflexivity).
  destruct H1 as (w1 & result1 & H1), H3 as (w2 & result2 & H3).
  exists w1, w2, result1, result2. split; [exact H1|]. split; [exact H3|].
  apply (smaller_cap_returns_first_records (H := Demo.helpers) "Spaces-1" "Web" [] [] "API-KEY"
           "https://octopus.example" None 1 3 Demo.start w1 w2 result1 result2);
    [lia | lia | exact H1 | exact H3].
Defined.

Lemma negative_cap_returns_nothing_witness :
  ∃ w' result,
    Demo.run [] [] None (-1) = (w', inr result)
    ∧ Deployments result = []
    ∧ ∃ new, calls w' = calls Demo.start ++ new ∧ (enrichments new <= 1)%nat.
Proof.
  assert (Hrun : ∃ w' result, Demo.run [] [] None (-1) = (w', inr result))
    by (eexists _, _; vm_compute; reflexivity).
  destruct Hrun as (w' & result & Hrun). exists w', result. split; [exact Hrun|].
  apply (negative_cap_returns_nothing (H := Demo.helpers) "Spaces-1" "Web" [] [] "API-KEY"
           "https://octopus.example" None (-1) Demo.start w' result); [lia | exact Hrun].
Defined.

(** One environment is requested and no tenant: every record carries
    the name of that environment and no tenant name. *)
Lemma names_follow_requested_filters_witness :
  ∃ w' result,
    Demo.run ["Dev"] [] None 5 = (w', inr result)
    ∧ ∀ record, record ∈ Deployments result →
        SpaceId record = "Spaces-1"
        ∧ EnvironmentName record = Some "Dev"
        ∧ TenantName record = None.
Proof.
  assert (Hrun : ∃ w' result, Demo.run ["Dev"] [] None 5 = (w', inr result))
    by (eexists _, _; vm_compute; reflexivity).
  destruct Hrun as (w' & result & Hrun). exists w', result. split; [exact Hrun|].
  destruct (names_follow_requested_filters (H := Demo.helpers) "Spaces-1" "Web" ["Dev"] [] "API-KEY"
              "https://octopus.example" None 5 Demo.start w' result Hrun)
    as (project & environments & tenants & _ & Henvs & Htens & _ & _ & Hall).
  inversion Htens; subst.
  inversion Henvs as [|n env names rest Hdev Hrest]; subst. inversion Hrest; subst.
  vm_compute in Hdev. injection Hdev as <-.
  intros record Hin.
  destruct (Hall record Hin) as (Hs & _ & _ & _ & Hname & _ & Hnone & _).
  split; [exact Hs|]. split; [|apply Hnone; reflexivity].
  destruct (Hname ltac:(discriminate)) as (env & Hhead & ->).
  rewrite filter_cons in Hhead. destruct (decide _) as [Hid|Hid]; [|discriminate].
  simpl in Hhead. injection Hhead as <-. reflexivity.
Defined.

(** Names are filled for the environment that was requested and left
    empty for the tenant that was not. *)
Example run_names :
  match (Demo.run ["Dev"] [] None 5).2 with
  | inr result => map (λ r, (EnvironmentName r, TenantName r)) (Deployments result)
  | inl _ => []
  end = [(Some "Dev", None); (Some "Dev", None); (Some "Dev", None)].
Proof. vm_compute. reflexivity. Qed.

(** An environment whose payload has no name: it was requested, and
    still the records carry no environment name. *)
Example run_nameless_environment :
  match (DemoNameless.run ["Dev"] [] None 5).2 with
  | inr result => map (λ r, (EnvironmentId r, EnvironmentName r)) (Deployments result)
  | inl _ => []
  end = [("Environments-1", None); ("Environments-1", None); ("Environments-1", None)].
Proof. vm_compute. reflexivity. Qed.

End DeploymentsMore.

(** ** Stripping twice *)

Module PyMore.
Import Py PyNotions.

Lemma rstrip_rstrip (s : string) : rstrip (rstrip s) = rstrip s.
Proof.
  induction s as [|c s IH]; [reflexivity|].
  simpl. destruct (rstrip s) as [|d r] eqn:Hr.
  - destruct (isspace c) eqn:Hc; [reflexivity|]. simpl. rewrite Hc. reflexivity.
  - change (rstrip (String c (String d r))) with
      (match rstrip (String d r) with
       | EmptyString => if isspace c then EmptyString else String c EmptyString
       | r' => String c r'
       end).
    rewrite IH. reflexivity.
Qed.

Lemma lstrip_starts_clean (s : string) : starts_clean (lstrip s).
Proof.
  induction s as [|c s IH]; [exact I|].
  simpl. destruct (isspace c) eqn:Hc; [exact IH | exact Hc].
Qed.

Lemma lstrip_clean (s : string) : starts_clean s → lstrip s = s.
Proof. destruct s as [|c s]; [reflexivity|]. simpl. intros ->. reflexivity. Qed.

Lemma rstrip_starts_clean (s : string) : starts_clean s → starts_clean (rstrip s).
Proof.
  destruct s as [|c s]; [exact id|]. simpl. intros Hc.
  destruct (rstrip s); [rewrite Hc|]; exact Hc.
Qed.

Lemma strip_strip (s : string) : strip (strip s) = strip s.
Proof.
  unfold strip. rewrite (lstrip_clean (rstrip (lstrip s))).
  - apply rstrip_rstrip.
  - apply rstrip_starts_clean, lstrip_starts_clean.
Qed.

End PyMore.

(** ** copilot_handler_internal and extract_query: further properties *)

Module FunctionAppMore.
Import Py PyMore FunctionApp FunctionAppSpec.

Section Handler.
Context `{Collaborators}.

Lemma builtin_is_exception (c : cls) : isinstance (builtin c) Exception = true.
Proof. unfold isinstance, builtin. simpl. apply bool_decide_eq_true. set_solver. Qed.

(** The content the [try] block returns has been stripped, and an
    exception that leaves it was raised by [json.loads] or is one of
    the interpreter's. *)
Lemma last_message_content_outcome (body_raw : string) :
  match last_message_content body_raw with
  | inr (Some content) => ∃ s, content = strip s
  | inr None => True
  | inl e => json_loads body_raw = inl e ∨ ∃ c, e = builtin c
  end.
Proof.
  unfold last_message_content, and_then.
  destruct (json_loads body_raw) as [e|parsed]; [left; reflexivity|].
  destruct (contains "messages" parsed) as [e|[|]] eqn:H1; [| |exact I].
  { unfold contains in H1. destruct parsed; try discriminate; injection H1 as <-; eauto. }
  destruct (dict_get "messages" parsed) as [e|messages] eqn:H2.
  { unfold dict_get in H2. destruct parsed; try discriminate; injection H2 as <-; eauto. }
  destruct (py_len messages) as [e|n] eqn:H3.
  { unfold py_len in H3. destruct (len messages); [discriminate|]. injection H3 as <-. eauto. }
  destruct (negb (n =? 0)%nat); [|exact I].
  destruct (index_last messages) as [e|message] eqn:H4.
  { unfold index_last in H4. destruct messages; try (injection H4 as <-; eauto).
    - destruct (last_char s); [discriminate|]. injection H4 as <-. eauto.
    - destruct (last l); [discriminate|]. injection H4 as <-. eauto. }
  destruct (contains "content" message) as [e|[|]] eqn:H5; [| |exact I].
  { unfold contains in H5. destruct message; try discriminate; injection H5 as <-; eauto. }
  destruct (dict_get "content" message) as [e|content] eqn:H6.
  { unfold dict_get in H6. destruct message; try discriminate; injection H6 as <-; eauto. }
  destruct (py_strip content) as [e|stripped] eqn:H7.
  { unfold py_strip in H7. destruct content; try discriminate; injection H7 as <-; eauto. }
  unfold py_strip in H7. destruct content; try discriminate. injection H7 as <-. eauto.
Qed.

(** X6.  The query [extract_query] returns is already stripped: it is
    empty or begins and ends with a character that is not white space,
    so stripping it again, as every handler does before testing it,
    changes nothing. *)
Theorem extract_query_is_stripped (req : HttpRequest) (events : list event) (query : string) :
  extract_query req = (events, inr query) → strip query = query.
Proof.
  unfold extract_query. intros Hq.
  assert (Hbody :
    (if negb (truthy_str (body req)) || negb (truthy_str (bytes_strip (body req)))
     then ([], inr "")
     else match last_message_content (body req) with
          | inl e => if isinstance e Exception then ([HandleError e], inr "") else ([], inl e)
          | inr (Some content) => ([], inr content)
          | inr None => ([], inr "")
          end) = (events, inr query) → strip query = query).
  { clear Hq. destruct (negb _ || negb _); [intros Hx; injection Hx as <- <-; reflexivity|].
    pose proof (last_message_content_outcome (body req)) as Hout.
    destruct (last_message_content (body req)) as [e|[content|]].
    - destruct (isinstance e Exception); [|discriminate].
      intros Hx. injection Hx as <- <-. reflexivity.
    - destruct Hout as [s ->]. intros Hx. injection Hx as <- <-. apply strip_strip.
    - intros Hx. injection Hx as <- <-. reflexivity. }
  destruct (params req !! "message") as [message|]; [|exact (Hbody Hq)].
  destruct (truthy_str message); [|exact (Hbody Hq)].
  injection Hq as <- <-. apply strip_strip.
Qed.

(** Reading the query raises only when [json.loads] raises something
    that is not an [Exception]. *)
Lemma extract_query_returns (req : HttpRequest) :
  (∀ body_raw e, json_loads body_raw = inl e → isinstance e Exception = true) →
  ∃ events query, extract_query req = (events, inr query).
Proof.
  intros Hjson. unfold extract_query.
  assert (Hbody : ∃ events query,
    (if negb (truthy_str (body req)) || negb (truthy_str (bytes_strip (body req)))
     then ([], inr "")
     else match last_message_content (body req) with
          | inl e => if isinstance e Exception then ([HandleError e], inr "") else ([], inl e)
          | inr (Some content) => ([], inr content)
          | inr None => ([], inr "")
          end) = (events, inr query)).
  { destruct (negb _ || negb _); [eauto|].
    pose proof (last_message_content_outcome (body req)) as Hout.
    destruct (last_message_content (body req)) as [e|[content|]]; [|eauto|eauto].
    assert (He : isinstance e Exception = true).
    { destruct Hout as [Hj|[c ->]]; [eapply Hjson, Hj | apply builtin_is_exception]. }
    rewrite He. eauto. }
  destruct (params req !! "message") as [message|]; [|exact Hbody].
  destruct (truthy_str message); [eauto | exact Hbody].
Qed.

(** X7.  As long as the parser of the body and the dispatch to the
    language model raise nothing but instances of [Exception], the
    handler never raises: for every request it returns a response whose
    body is framed as an event stream and whose headers are those of
    [get_sse_headers].  The conversion of a text to the wire format is
    assumed to frame it. *)
Theorem handler_always_answers_with_a_stream (req : HttpRequest) :
  (∀ s, sse_framed (convert_to_sse_response s)) →
  (∀ body_raw e, json_loads body_raw = inl e → isinstance e Exception = true) →
  (∀ query e, llm_tool_query query = inl e → isinstance e Exception = true) →
  ∃ events response,
    copilot_handler_internal req = (events, inr response) ∧ stream_response response.
Proof.
  intros Hframed Hjson Hllm.
  destruct (handler_body req) as [before [e|response]] eqn:Hbody.
  - assert (He : isinstance e Exception = true).
    { unfold handler_body in Hbody.
      destruct (extract_query_returns req Hjson) as (events & query & Hq). rewrite Hq in Hbody.
      destruct (negb (truthy_str (strip query))); [discriminate|].
      destruct (llm_tool_query query) as [e'|result] eqn:Hcall; [|discriminate].
      injection Hbody as <- <-. eapply Hllm, Hcall. }
    destruct (handle_exception_stream_response e Hframed) as (events & response & Hh & Hs).
    { exists Exception. split; [unfold taxonomy; set_solver | exact He]. }
    exists (before ++ events), response. unfold copilot_handler_internal.
    rewrite Hbody, Hh. split; [reflexivity | exact Hs].
  - exists before, response. unfold copilot_handler_internal. rewrite Hbody.
    split; [reflexivity|]. eapply handler_body_stream_response; eassumption.
Qed.

(** X8.  Every response of the handler has status 200, with one
    exception: when the user is not configured or the stored API key is
    invalid and no redirect address is set in the environment, it is
    the hand-written frame with status 500. *)
Theorem handler_status_codes (req : HttpRequest) (events : list event)
    (response : HttpResponse) :
  copilot_handler_internal req = (events, inr response) →
  status_code response = 200
  ∨ (status_code response = 500
     ∧ environ !! "GITHUB_CLIENT_REDIRECT" = None
     ∧ response_body response
       = "data: An exception was raised. See the logs for more details." +:+ nl +:+ nl
     ∧ ∃ e, handler_body req = (take (length events - 2) events, inl e)
            ∧ (isinstance e UserNotConfigured = true
               ∨ isinstance e OctopusApiKeyInvalid = true)).
Proof.
  unfold copilot_handler_internal.
  destruct (handler_body req) as [before [e|ok]] eqn:Hbody.
  - unfold handle_exception.
    destruct (isinstance e UserNotLoggedIn);
      [intros Hx; injection Hx as <- <-; left; reflexivity|].
    destruct (isinstance e OctopusRequestFailed);
      [intros Hx; injection Hx as <- <-; left; reflexivity|].
    destruct (isinstance e GitHubRequestFailed);
      [intros Hx; injection Hx as <- <-; left; reflexivity|].
    destruct (isinstance e NotAuthorized);
      [intros Hx; injection Hx as <- <-; left; reflexivity|].
    destruct (isinstance e SpaceNotFound);
      [intros Hx; injection Hx as <- <-; left; reflexivity|].
    destruct (isinstance e ResourceNotFound);
      [intros Hx; injection Hx as <- <-; left; reflexivity|].
    destruct (isinstance e UserNotConfigured || isinstance e OctopusApiKeyInvalid) eqn:Hconfig.
    + unfold request_config_details.
      destruct (environ !! "GITHUB_CLIENT_REDIRECT") as [redirect|];
        intros Hx; injection Hx as <- <-; [left; reflexivity|].
      right. split; [reflexivity|]. split; [reflexivity|]. split; [reflexivity|].
      exists e. split; [|apply orb_true_iff, Hconfig].
      rewrite length_app. simpl. rewrite take_app_length'; [reflexivity | lia].
    + destruct (isinstance e ValueError);
        [intros Hx; injection Hx as <- <-; left; reflexivity|].
      destruct (isinstance e Exception); [|discriminate].
      intros Hx. injection Hx as <- <-. left. reflexivity.
  - intros Hx. injection Hx as <- <-. left.
    unfold handler_body in Hbody. destruct (extract_query req) as [ev [e|query]]; [discriminate|].
    destruct (negb (truthy_str (strip query)));
      [injection Hbody as <- <-; reflexivity|].
    destruct (llm_tool_query query); [discriminate|].
    injection Hbody as <- <-. reflexivity.
Qed.

End Handler.

#[local] Existing Instance DemoApp.collaborators.

(** The content of the last message of a chat comes back without the
    blanks around it. *)
Lemma extract_query_is_stripped_witness :
  extract_query (DemoApp.post "{projects}") = ([], inr "List projects")
  ∧ strip "List projects" = "List projects".
Proof.
  assert (Hq : extract_query (DemoApp.post "{projects}") = ([], inr "List projects"))
    by (vm_compute; reflexivity).
  split; [exact Hq|].
  exact (extract_query_is_stripped (DemoApp.post "{projects}") [] "List projects" Hq).
Defined.

Lemma parse_body_raises_exceptions (body_raw : string) (e : exc) :
  DemoApp.parse_body body_raw = inl e → isinstance e Exception = true.
Proof.
  unfold DemoApp.parse_body.
  destruct (String.eqb body_raw "{blank}"); [discriminate|].
  destruct (String.eqb body_raw "{projects}"); [discriminate|].
  intros Hx. injection Hx as <-. vm_compute. reflexivity.
Qed.

(** A body the parser rejects is still answered with a stream. *)
Lemma handler_always_answers_with_a_stream_witness :
  ∃ events response,
    copilot_handler_internal (DemoApp.post "garbage") = (events, inr response)
    ∧ stream_response response.
Proof.
  apply (handler_always_answers_with_a_stream (DemoApp.post "garbage")).
  - exact one_event_framed.
  - exact parse_body_raises_exceptions.
  - intros query e. cbn [llm_tool_query DemoApp.collaborators]. unfold DemoApp.dispatch.
    destruct (String.eqb query "List projects"); [discriminate|].
    intros Hx. injection Hx as <-. vm_compute. reflexivity.
Defined.

(** Without stored credentials and without a redirect address the
    answer has status 500. *)
Lemma handler_status_codes_witness :
  ∃ events response,
    copilot_handler_internal (H := DemoNotConfigured.collaborators) (DemoApp.form "hi")
      = (events, inr response)
    ∧ status_code response = 500
    ∧ (status_code response = 200
       ∨ (status_code response = 500
          ∧ environ (Collaborators := DemoNotConfigured.collaborators)
              !! "GITHUB_CLIENT_REDIRECT" = None
          ∧ response_body response
            = "data: An exception was raised. See the logs for more details." +:+ nl +:+ nl
          ∧ ∃ e, handler_body (H := DemoNotConfigured.collaborators) (DemoApp.form "hi")
                   = (take (length events - 2) events, inl e)
                 ∧ (isinstance e UserNotConfigured = true
                    ∨ isinstance e OctopusApiKeyInvalid = true))).
Proof.
  destruct (copilot_handler_internal (H := DemoNotConfigured.collaborators) (DemoApp.form "hi"))
    as [events [e|response]] eqn:Hrun; [vm_compute in Hrun; discriminate|].
  exists events, response. split; [reflexivity|].
  split; [vm_compute in Hrun; injection Hrun as <- <-; reflexivity|].
  exact (handler_status_codes (H := DemoNotConfigured.collaborators)
           (DemoApp.form "hi") events response Hrun).
Defined.

End FunctionAppMore.


(** ** dictionary_has_value: values under a present key *)

Module DictionarySanitizerMore.
Import Py DictionarySanitizer.

(** A sized value that is truthy has a positive length, so the final
    [len(value) > 0] can only confirm what [not dictionary[key]] has
    tested. *)
Lemma truthy_sized_positive (v : value) (n : nat) :
  truthy v = true → len v = Some n → (0 <? n)%nat = true.
Proof.
  intros Ht Hl. apply Nat.ltb_lt. destruct v; simpl in *; try discriminate.
  - injection Hl as <-. destruct s; [discriminate | simpl; lia].
  - injection Hl as <-. destruct l; [discriminate | simpl; lia].
  - injection Hl as <-. apply negb_true_iff, bool_decide_eq_false in Ht.
    destruct (decide (size d = 0)%nat) as [Hz|Hz]; [|lia].
    apply map_size_empty_iff in Hz. contradiction.
Qed.

(** X9.  For a dict that has the key, the answer is decided by the
    value alone: a [str], [list] or [dict] gives its truthiness (the
    length test after the truthiness test never turns the answer to
    [False]); [None], [False] and a zero number give [False]; [True] and
    every other number raise [TypeError], because [len] is applied to
    them. *)
Theorem dictionary_has_value_by_value (k : string) (d : gmap string value) (v : value) :
  d !! k = Some v →
  dictionary_has_value k (VDict d)
  = match v with
    | VStr _ | VList _ | VDict _ => Returns (VBool (truthy v))
    | VNone => Returns (VBool false)
    | VBool b => if b then Raises TypeError else Returns (VBool false)
    | VInt z => if z =? 0 then Returns (VBool false) else Raises TypeError
    | VFloat m _ => if m =? 0 then Returns (VBool false) else Raises TypeError
    end.
Proof.
  intros Hk. unfold dictionary_has_value. rewrite Hk.
  destruct v as [|b|z|m e|s|l|d'].
  - reflexivity.
  - destruct b; reflexivity.
  - simpl. destruct (z =? 0); reflexivity.
  - simpl. destruct (m =? 0); reflexivity.
  - destruct s; reflexivity.
  - destruct l; reflexivity.
  - destruct (truthy (VDict d')) eqn:Ht; [|reflexivity].
    pose proof (truthy_sized_positive (VDict d') (size d') Ht eq_refl) as Hpos.
    cbn [negb len]. rewrite Hpos. reflexivity.
Qed.

(** A count stored under the key raises. *)
Lemma dictionary_has_value_by_value_witness :
  dictionary_has_value "count" (VDict {[ "count" := VInt 3 ]}) = Raises TypeError.
Proof.
  exact (dictionary_has_value_by_value "count" {[ "count" := VInt 3 ]} (VInt 3) eq_refl).
Defined.

End DictionarySanitizerMore.

(** ** logs_callback: any budget *)

Module LogsMore.
Import Py PyFacts Logs.

(** X10.  Whatever the budget, the text handed to the language model is
    an end part of the log.  When the budget is zero or negative
    nothing is kept from the end: the slice [logs[-max_chars:]] then
    starts at index [-max_chars] from the front, so a budget of zero
    keeps the whole log and a budget of [-n] removes the first [n]
    characters. *)
Theorem logs_callback_any_budget {Msgs Answer : Type}
    (llm_message_query : Msgs → context → Answer) (messages : Msgs)
    (max_chars : Z) (processed_query logs : string) :
  ∃ front kept : string,
    logs_callback max_chars llm_message_query messages processed_query logs
      = llm_message_query messages
          {| context_input := processed_query; context_context := kept |}
    ∧ logs = front +:+ kept
    ∧ Z.of_nat (String.length front)
      = if 0 <? max_chars
        then Z.max 0 (Z.of_nat (String.length logs) - max_chars)
        else Z.min (- max_chars) (Z.of_nat (String.length logs)).
Proof.
  set (chars := list_ascii_of_string logs).
  set (n := adjust_index (length chars) (- max_chars)).
  exists (string_of_list_ascii (take n chars)), (string_of_list_ascii (drop n chars)).
  split; [reflexivity|]. split.
  - rewrite <- string_of_list_ascii_app, take_drop.
    symmetry. apply string_of_list_ascii_of_string.
  - rewrite length_string_of_list_ascii, length_take.
    pose proof (adjust_index_le (length chars) (- max_chars)) as Hle. fold n in Hle.
    rewrite Nat.min_l by exact Hle.
    subst n. unfold adjust_index. subst chars. rewrite length_list_ascii_of_string.
    destruct (0 <? max_chars) eqn:Hpos.
    + apply Z.ltb_lt in Hpos. destruct (- max_chars <? 0) eqn:E; lia.
    + apply Z.ltb_ge in Hpos. destruct (- max_chars <? 0) eqn:E; lia.
Qed.

Example logs_callback_negative_budget :
  logs_callback (-5) (λ (_ : unit) c, c) tt "why?" "step 1 ok; step 2 failed"
  = {| context_input := "why?"; context_context := "1 ok; step 2 failed" |}.
Proof. vm_compute. reflexivity. Qed.

End LogsMore.


(** ** Running a sequence of calls *)

Module CallsFacts.
Import FunctionApp Calls.
Import Eff.

Lemma bind_run {call A B} (m : Calls.M call A) (k : A → Calls.M call B) (made : list call) :
  bind m k made
  = match m made with
    | (made', inl e) => (made', inl e)
    | (made', inr a) => k a made'
    end.
Proof. reflexivity. Qed.

Lemma invoke_run {call A} (c : call) (r : exc + A) (made : list call) :
  invoke c r made = (made ++ [c], r).
Proof. reflexivity. Qed.

Lemma bind_invoke {call A B} (c : call) (r : exc + A) (k : A → Calls.M call B)
    (made : list call) :
  bind (invoke c r) k made
  = match r with
    | inl e => (made ++ [c], inl e)
    | inr a => k a (made ++ [c])
    end.
Proof. unfold bind, invoke. destruct r; reflexivity. Qed.

Lemma bind_ret {call A B} (a : A) (k : A → Calls.M call B) (made : list call) :
  bind (ret a) k made = k a made.
Proof. reflexivity. Qed.

Lemma bind_raise {call A B} (e : exc) (k : A → Calls.M call B) (made : list call) :
  bind (raise e) k made = (made, inl e).
Proof. reflexivity. Qed.

Lemma bind_lift {call A B} (r : exc + A) (k : A → Calls.M call B) (made : list call) :
  bind (lift r) k made
  = match r with
    | inl e => (made, inl e)
    | inr a => k a made
    end.
Proof. unfold bind, lift. destruct r; reflexivity. Qed.

End CallsFacts.

(** ** get_api_key_and_url *)

Module CredentialsSpec.
Import Py FunctionApp Calls CallsFacts Credentials.
Import Eff.

Section Lookup.
Context `{Services}.

Lemma isinstance_new (c : cls) : isinstance (new c) c = true.
Proof. unfold isinstance, new. simpl. apply bool_decide_eq_true. set_solver. Qed.

(** A record that passed the test has the four keys. *)
Lemma configured_keys (github_user : gmap string value) :
  not_configured github_user = false →
  ∃ url api_key tag nonce,
    github_user !! "OctopusUrl" = Some url
    ∧ github_user !! "OctopusApiKey" = Some api_key
    ∧ github_user !! "EncryptionTag" = Some tag
    ∧ github_user !! "EncryptionNonce" = Some nonce.
Proof.
  unfold not_configured. intros Hc.
  repeat (apply orb_false_iff in Hc; destruct Hc as [Hc ?]).
  repeat match goal with
         | Hk : negb (bool_decide (is_Some _)) = false |- _ =>
             apply negb_false_iff, bool_decide_eq_true in Hk; destruct Hk as [? Hk]
         end.
  eauto 10.
Qed.

(** The inner [try]: what it returns is a complete record that the
    store returned, and the only calls it makes are those to the
    store. *)
Lemma stored_details_outcome (github_username : value) (made : list call) :
  match stored_details github_username made with
  | (made', inr github_user) =>
      not_configured github_user = false
      ∧ ∃ connection_string,
          get_functions_connection_string = inr connection_string
          ∧ get_users_details github_username connection_string = inr github_user
          ∧ made' = made ++ [GetFunctionsConnectionString;
                             GetUsersDetails github_username connection_string]
  | (made', inl e) =>
      (e = new UserNotConfigured
       ∨ (from_service e ∧ isinstance e HttpResponseError = false))
      ∧ ∃ calls, made' = made ++ calls ∧ Forall (λ c, is_decryption c = false) calls
  end.
Proof.
  unfold stored_details, try_except, bind, logger_info, invoke, raise, ret.
  destruct get_functions_connection_string as [e|connection_string] eqn:Hconn.
  { destruct (isinstance e HttpResponseError) eqn:Hi.
    - split; [left; reflexivity|]. eexists. split; [reflexivity|]. repeat constructor.
    - split; [right; split; [right; left; exact Hconn | exact Hi]|].
      eexists. split; [reflexivity|]. repeat constructor. }
  destruct (get_users_details github_username connection_string) as [e|github_user] eqn:Hget.
  { destruct (isinstance e HttpResponseError) eqn:Hi.
    - split; [left; reflexivity|]. exists [GetFunctionsConnectionString;
        GetUsersDetails github_username connection_string].
      split; [rewrite <- app_assoc; reflexivity|]. repeat constructor.
    - split; [right; split; [right; right; left; eauto | exact Hi]|].
      exists [GetFunctionsConnectionString; GetUsersDetails github_username connection_string].
      split; [rewrite <- app_assoc; reflexivity|]. repeat constructor. }
  destruct (not_configured github_user) eqn:Hc.
  - destruct (isinstance (new UserNotConfigured) HttpResponseError);
      (split; [left; reflexivity|]);
      exists [GetFunctionsConnectionString; GetUsersDetails github_username connection_string;
              Info "No OctopusUrl, OctopusApiKey, EncryptionTag, or EncryptionNonce"];
      (split; [rewrite <- !app_assoc; reflexivity | repeat constructor]).
  - split; [exact Hc|]. exists connection_string.
    split; [reflexivity|]. split; [exact Hget|]. rewrite <- app_assoc. reflexivity.
Qed.

(** What the outer [try] block does. *)
Lemma lookup_outcome (headers : gmap string string) (made : list call) :
  match lookup headers made with
  | (made', inr (key, url)) =>
      (credentials_in_headers headers = true
       ∧ headers !! "X-Octopus-ApiKey" = Some (match key with VStr s => s | _ => "" end)
       ∧ headers !! "X-Octopus-Server" = Some (match url with VStr s => s | _ => "" end)
       ∧ (∃ k, key = VStr k) ∧ (∃ s, url = VStr s)
       ∧ made' = made)
      ∨ (credentials_in_headers headers = false
         ∧ ∃ calls, from_store headers key url calls ∧ made' = made ++ calls)
  | (made', inl e) =>
      credentials_in_headers headers = false
      ∧ (e = new UserNotLoggedIn ∨ e = new UserNotConfigured ∨ from_service e)
  end.
Proof.
  unfold lookup, get_apikey_and_server, credentials_in_headers.
  destruct (truthy_header (headers !! "X-Octopus-ApiKey")
            && truthy_header (headers !! "X-Octopus-Server")) eqn:Hh.
  { left. apply andb_true_iff in Hh. destruct Hh as [Hk Hs].
    destruct (headers !! "X-Octopus-ApiKey") as [k|]; [|discriminate].
    destruct (headers !! "X-Octopus-Server") as [s|]; [|discriminate].
    simpl. eauto 10. }
  rewrite bind_run. unfold get_github_user_from_form, get_github_token, invoke at 1.
  destruct (get_github_user (headers !! "X-GitHub-Token")) as [e|username] eqn:Huser.
  { split; [reflexivity|]. right. right. left. eauto. }
  destruct (truthy username) eqn:Htruthy; cbn [negb].
  2:{ unfold raise. split; [reflexivity|]. left. reflexivity. }
  rewrite bind_run.
  pose proof (stored_details_outcome username (made ++ [GetGithubUser (headers !! "X-GitHub-Token")]))
    as Hstored.
  destruct (stored_details username (made ++ [GetGithubUser (headers !! "X-GitHub-Token")]))
    as [made1 [e|github_user]].
  { split; [reflexivity|]. destruct Hstored as [[->|[Hs _]] _]; [right; left; reflexivity|].
    right. right. exact Hs. }
  destruct Hstored as (Hc & connection_string & Hconn & Hget & ->).
  destruct (configured_keys github_user Hc) as (url & api_key & tag & nonce & Hu & Hk & Ht & Hn).
  unfold subscript. rewrite Ht, Hn, Hk, Hu.
  unfold bind, ret, invoke. cbn beta iota.
  destruct (generate_password (environ_get "ENCRYPTION_PASSWORD") (environ_get "ENCRYPTION_SALT"))
    as [e|generated] eqn:Hgen; cbn beta iota.
  { split; [reflexivity|]. right. right. right. right. right. left. eauto. }
  destruct (decrypt_eax generated api_key tag nonce (environ_get "ENCRYPTION_SALT"))
    as [e|key] eqn:Hdec; cbn beta iota.
  { split; [reflexivity|]. right. right. right. right. right. right. eauto 10. }
  right. split; [reflexivity|].
  eexists. split.
  - unfold from_store. exists username, connection_string, github_user, generated, api_key, tag, nonce.
    repeat (split; [eassumption|]). reflexivity.
  - rewrite <- !app_assoc. reflexivity.
Qed.

(** X11.  When [get_api_key_and_url] returns, the credentials are
    either the two request headers, both present and not empty, taken
    without calling anything, or those stored for the GitHub user of
    the token: the address of the stored record and its key, decrypted
    once. *)
Theorem credentials_come_from_headers_or_store (headers : gmap string string)
    (made made' : list call) (key url : value) :
  get_api_key_and_url headers made = (made', inr (key, url)) →
  (credentials_in_headers headers = true
   ∧ headers !! "X-Octopus-ApiKey" = Some (match key with VStr s => s | _ => "" end)
   ∧ headers !! "X-Octopus-Server" = Some (match url with VStr s => s | _ => "" end)
   ∧ (∃ k, key = VStr k) ∧ (∃ s, url = VStr s)
   ∧ made' = made)
  ∨ (credentials_in_headers headers = false
     ∧ ∃ calls, from_store headers key url calls ∧ made' = made ++ calls).
Proof.
  unfold get_api_key_and_url, try_except. intros Hrun.
  pose proof (lookup_outcome headers made) as Hlookup.
  destruct (lookup headers made) as [made1 [e|[key1 url1]]].
  - destruct (isinstance e ValueError); [|discriminate].
    unfold bind, logger_info, invoke, raise in Hrun. discriminate.
  - injection Hrun as <- <- <-. exact Hlookup.
Qed.

(** X12.  No [ValueError] leaves [get_api_key_and_url] except as
    [OctopusApiKeyInvalid]: an exception that leaves is a new
    [OctopusApiKeyInvalid], or it is not a [ValueError] and is a new
    [UserNotLoggedIn], a new [UserNotConfigured] or the exception of
    one of the imported functions.  Reading the stored record never
    raises a [KeyError] of its own. *)
Theorem value_errors_leave_as_invalid_key (headers : gmap string string)
    (made made' : list call) (e : exc) :
  get_api_key_and_url headers made = (made', inl e) →
  e = new OctopusApiKeyInvalid
  ∨ (isinstance e ValueError = false
     ∧ (e = new UserNotLoggedIn ∨ e = new UserNotConfigured ∨ from_service e)).
Proof.
  unfold get_api_key_and_url, try_except. intros Hrun.
  pose proof (lookup_outcome headers made) as Hlookup.
  destruct (lookup headers made) as [made1 [e1|[key1 url1]]]; [|discriminate].
  destruct (isinstance e1 ValueError) eqn:Hvalue.
  - unfold bind, logger_info, invoke, raise in Hrun. injection Hrun as <- <-. left. reflexivity.
  - injection Hrun as <- <-. right. split; [exact Hvalue | apply Hlookup].
Qed.

(** X13.  A [ValueError] raised while the GitHub user is looked up is
    reported as an invalid API key, although no stored key was read:
    the only calls are the lookup of the user and the line written to
    the log. *)
Theorem failed_user_lookup_reported_as_invalid_key (headers : gmap string string)
    (made : list call) (e : exc) :
  credentials_in_headers headers = false →
  get_github_user (headers !! "X-GitHub-Token") = inl e →
  isinstance e ValueError = true →
  get_api_key_and_url headers made
  = (made ++ [GetGithubUser (headers !! "X-GitHub-Token");
              Info "Encryption password must have changed because the api key could not be decrypted"],
     inl (new OctopusApiKeyInvalid)).
Proof.
  unfold credentials_in_headers. intros Hh Huser Hvalue.
  unfold get_api_key_and_url, try_except, lookup, get_apikey_and_server. rewrite Hh.
  rewrite bind_run. unfold get_github_user_from_form, get_github_token, invoke at 1.
  rewrite Huser, Hvalue.
  unfold bind, logger_info, invoke, raise. rewrite <- app_assoc. reflexivity.
Qed.

(** X14.  One credential header without the other is ignored: unless
    both the key and the server are given and not empty, the function
    behaves as for the request without either header. *)
Theorem lone_credential_header_is_ignored (headers : gmap string string) (made : list call) :
  credentials_in_headers headers = false →
  get_api_key_and_url headers made = get_api_key_and_url (without_credentials headers) made.
Proof.
  unfold credentials_in_headers. intros Hh.
  unfold get_api_key_and_url, try_except, lookup, get_apikey_and_server. rewrite Hh.
  assert (Hkey : without_credentials headers !! "X-Octopus-ApiKey" = None)
    by apply lookup_delete_eq.
  assert (Htoken : without_credentials headers !! "X-GitHub-Token" = headers !! "X-GitHub-Token")
    by (unfold without_credentials; rewrite !lookup_delete_ne by discriminate; reflexivity).
  unfold get_github_user_from_form, get_github_token.
  rewrite Hkey, Htoken. reflexivity.
Qed.

End Lookup.

(** The stored key of a configured user, and the headers of a load
    test. *)
Lemma credentials_come_from_headers_or_store_witness :
  get_api_key_and_url (H := DemoCredentials.services (Some "pw")) (DemoCredentials.token "token-ada") []
    = ([GetGithubUser (Some "token-ada"); GetFunctionsConnectionString;
        GetUsersDetails (VStr "ada") "UseDevelopmentStorage=true";
        GeneratePassword (Some "pw") (Some "salt");
        DecryptEax (VStr "pw/salt") (VStr "c2VjcmV0") (VStr "tag") (VStr "nonce") (Some "salt")],
       inr (VStr "API-ADA", VStr "https://ada.example.org"))
  ∧ ∃ calls,
      from_store (H := DemoCredentials.services (Some "pw")) (DemoCredentials.token "token-ada")
        (VStr "API-ADA") (VStr "https://ada.example.org") calls.
Proof.
  assert (Hrun :
    get_api_key_and_url (H := DemoCredentials.services (Some "pw"))
      (DemoCredentials.token "token-ada") []
    = ([GetGithubUser (Some "token-ada"); GetFunctionsConnectionString;
        GetUsersDetails (VStr "ada") "UseDevelopmentStorage=true";
        GeneratePassword (Some "pw") (Some "salt");
        DecryptEax (VStr "pw/salt") (VStr "c2VjcmV0") (VStr "tag") (VStr "nonce") (Some "salt")],
       inr (VStr "API-ADA", VStr "https://ada.example.org")))
    by (vm_compute; reflexivity).
  split; [exact Hrun|].
  destruct (credentials_come_from_headers_or_store (H := DemoCredentials.services (Some "pw"))
              _ _ _ _ _ Hrun) as [(Hh & _)|(_ & calls & Hstore & _)].
  - vm_compute in Hh. discriminate.
  - exists calls. exact Hstore.
Defined.

(** A changed password: the decryption raises a [ValueError]. *)
Lemma value_errors_leave_as_invalid_key_witness :
  get_api_key_and_url (H := DemoCredentials.services (Some "other")) (DemoCredentials.token "token-ada") []
  = ([GetGithubUser (Some "token-ada"); GetFunctionsConnectionString;
      GetUsersDetails (VStr "ada") "UseDevelopmentStorage=true";
      GeneratePassword (Some "other") (Some "salt");
      DecryptEax (VStr "other/salt") (VStr "c2VjcmV0") (VStr "tag") (VStr "nonce") (Some "salt");
      Info "Encryption password must have changed because the api key could not be decrypted"],
     inl (new (H := DemoCredentials.services (Some "other")) OctopusApiKeyInvalid))
  ∧ (new (H := DemoCredentials.services (Some "other")) OctopusApiKeyInvalid = new (H := DemoCredentials.services (Some "other")) OctopusApiKeyInvalid
     ∨ (isinstance (new (H := DemoCredentials.services (Some "other")) OctopusApiKeyInvalid) ValueError = false
        ∧ (new (H := DemoCredentials.services (Some "other")) OctopusApiKeyInvalid = new (H := DemoCredentials.services (Some "other")) UserNotLoggedIn
           ∨ new (H := DemoCredentials.services (Some "other")) OctopusApiKeyInvalid = new (H := DemoCredentials.services (Some "other")) UserNotConfigured
           ∨ from_service (H := DemoCredentials.services (Some "other")) (new (H := DemoCredentials.services (Some "other")) OctopusApiKeyInvalid)))).
Proof.
  assert (Hrun :
    get_api_key_and_url (H := DemoCredentials.services (Some "other")) (DemoCredentials.token "token-ada") []
    = ([GetGithubUser (Some "token-ada"); GetFunctionsConnectionString;
        GetUsersDetails (VStr "ada") "UseDevelopmentStorage=true";
        GeneratePassword (Some "other") (Some "salt");
        DecryptEax (VStr "other/salt") (VStr "c2VjcmV0") (VStr "tag") (VStr "nonce") (Some "salt");
        Info "Encryption password must have changed because the api key could not be decrypted"],
       inl (new (H := DemoCredentials.services (Some "other")) OctopusApiKeyInvalid))) by (vm_compute; reflexivity).
  split; [exact Hrun|].
  exact (value_errors_leave_as_invalid_key (H := DemoCredentials.services (Some "other")) _ _ _ _ Hrun).
Defined.

(** A request without a token. *)
Lemma failed_user_lookup_reported_as_invalid_key_witness :
  get_api_key_and_url (H := DemoCredentials.services (Some "pw")) ∅ []
  = ([] ++ [GetGithubUser ((∅ : gmap string string) !! "X-GitHub-Token");
            Info "Encryption password must have changed because the api key could not be decrypted"],
     inl (new (H := DemoCredentials.services (Some "pw")) OctopusApiKeyInvalid)).
Proof.
  apply (failed_user_lookup_reported_as_invalid_key (H := DemoCredentials.services (Some "pw"))
           ∅ [] (builtin ValueError)); vm_compute; reflexivity.
Defined.

(** A key without a server. *)
Lemma lone_credential_header_is_ignored_witness :
  get_api_key_and_url (H := DemoCredentials.services (Some "pw"))
    (<["X-Octopus-ApiKey" := "API-LOAD"]> (DemoCredentials.token "token-bob")) []
  = get_api_key_and_url (H := DemoCredentials.services (Some "pw"))
      (without_credentials (<["X-Octopus-ApiKey" := "API-LOAD"]> (DemoCredentials.token "token-bob")))
      [].
Proof.
  apply (lone_credential_header_is_ignored (H := DemoCredentials.services (Some "pw"))).
  vm_compute. reflexivity.
Defined.

Example headers_of_a_load_test :
  get_api_key_and_url (H := DemoCredentials.services None)
    {[ "X-Octopus-ApiKey" := "API-LOAD"; "X-Octopus-Server" := "https://load.example.org" ]} []
  = ([], inr (VStr "API-LOAD", VStr "https://load.example.org")).
Proof. vm_compute. reflexivity. Qed.

Example user_without_a_complete_record :
  get_api_key_and_url (H := DemoCredentials.services (Some "pw")) (DemoCredentials.token "token-bob") []
  = ([GetGithubUser (Some "token-bob"); GetFunctionsConnectionString;
      GetUsersDetails (VStr "bob") "UseDevelopmentStorage=true";
      Info "No OctopusUrl, OctopusApiKey, EncryptionTag, or EncryptionNonce"],
     inl (new (H := DemoCredentials.services (Some "pw")) UserNotConfigured)).
Proof. vm_compute. reflexivity. Qed.

Example user_without_a_record :
  (get_api_key_and_url (H := DemoCredentials.services (Some "pw"))
     (DemoCredentials.token "token-eve") []).2
  = inl (new (H := DemoCredentials.services (Some "pw")) UserNotConfigured).
Proof. vm_compute. reflexivity. Qed.

End CredentialsSpec.


(** ** login_submit *)

Module LoginSpec.
Import Py FunctionApp Calls CallsFacts Login.
Import Eff.

Section LoginSubmit.
Context `{Services}.

Lemma differs_guest (api : value) : differs api "API-GUEST" = false → api = VStr "API-GUEST".
Proof.
  destruct api; try discriminate. simpl. intros Hs.
  apply negb_false_iff, String.eqb_eq in Hs. congruence.
Qed.

Lemma getitem_run {B} (d : gmap string value) (key : string) (k : value → Login.M B)
    (made : list call) :
  bind (getitem (VDict d) key) k made
  = match d !! key with
    | Some x => k x made
    | None => (made, inl (builtin KeyError))
    end.
Proof. unfold getitem. destruct (d !! key); reflexivity. Qed.

(** The [try] block either stops before anything is stored, with an
    exception of an imported function or of a subscript, or reaches
    the store, and then its outcome is that of storing. *)
Lemma submit_outcome (req : HttpRequest) (made : list call) :
  ∃ calls r,
    submit req made = (made ++ calls, r)
    ∧ filter (λ c, is_error c = true) calls = []
    ∧ ((filter (λ c, is_save c = true) calls = []
        ∧ ∃ e, r = inl e
               ∧ (from_service e ∨ e = builtin KeyError ∨ e = builtin TypeError))
       ∨ (∃ save,
            reaches_store req calls save
            ∧ r = match save_outcome save with
                  | inl e => inl e
                  | inr _ => inr (plain_response "" 201)
                  end)).
Proof.
  unfold submit. rewrite bind_lift.
  set (password := environ_get "ENCRYPTION_PASSWORD").
  set (salt := environ_get "ENCRYPTION_SALT").
  destruct (json_loads (body req)) as [e|parsed] eqn:Hjson.
  { exists [], (inl e). rewrite app_nil_r. split; [reflexivity|]. split; [reflexivity|]. left.
    split; [reflexivity|]. exists e. split; [reflexivity|]. left. left. eauto. }
  rewrite bind_invoke.
  destruct (extract_session_blob (params req !! "state") password salt) as [e|user_id] eqn:Hblob.
  { eexists _, (inl e). split; [reflexivity|]. split; [reflexivity|]. left.
    split; [reflexivity|]. exists e. split; [reflexivity|]. left. right. left. eauto. }
  destruct parsed as [| | | | | |d];
    try (eexists _, (inl (builtin TypeError)); split; [reflexivity|]; split; [reflexivity|]; left;
         split; [reflexivity|]; eexists; split; [reflexivity|]; right; right; reflexivity).
  rewrite !getitem_run.
  destruct (d !! "api") as [api|] eqn:Hapi.
  2:{ eexists _, (inl (builtin KeyError)). split; [reflexivity|]. split; [reflexivity|]. left.
      split; [reflexivity|]. eexists. split; [reflexivity|]. right. left. reflexivity. }
  rewrite !getitem_run.
  destruct (d !! "url") as [url|] eqn:Hurl.
  2:{ eexists _, (inl (builtin KeyError)). split; [reflexivity|]. split; [reflexivity|]. left.
      split; [reflexivity|]. eexists. split; [reflexivity|]. right. left. reflexivity. }
  rewrite bind_invoke.
  destruct (get_current_user api url) as [e|user] eqn:Huser.
  { eexists _, (inl e). rewrite <- app_assoc. split; [reflexivity|]. split; [reflexivity|]. left.
    split; [reflexivity|]. exists e. split; [reflexivity|]. left. right. right. left. eauto. }
  rewrite getitem_run, Hapi, bind_run.
  destruct (differs api "API-GUEST") eqn:Hguest.
  - rewrite getitem_run, Hapi, getitem_run, Hurl, invoke_run.
    destruct (create_limited_api_key user api url) as [e|api_key] eqn:Hcreate.
    { eexists _, (inl e). rewrite <- !app_assoc. split; [reflexivity|]. split; [reflexivity|]. left.
      split; [reflexivity|]. exists e. split; [reflexivity|].
      left. right. right. right. left. eauto. }
    rewrite getitem_run, Hurl, bind_invoke.
    destruct get_functions_connection_string as [e|connection_string] eqn:Hconn.
    { eexists _, (inl e). rewrite <- !app_assoc. split; [reflexivity|]. split; [reflexivity|]. left.
      split; [reflexivity|]. exists e. split; [reflexivity|].
      left. right. right. right. right. left. exact Hconn. }
    rewrite bind_invoke.
    eexists _, (match save_users_octopus_url_from_login user_id url api_key password salt
                        connection_string with
                | inl e => inl e
                | inr _ => inr (plain_response "" 201)
                end).
    rewrite <- !app_assoc. split.
    { destruct (save_users_octopus_url_from_login user_id url api_key password salt
                  connection_string) eqn:Hsave; simpl app; reflexivity. }
    split; [reflexivity|]. right. exists (SaveUsersOctopusUrlFromLogin user_id url api_key password salt connection_string).
    split.
    + exists d, api, url, user_id, user, api_key, connection_string.
      rewrite Hguest. repeat (split; [first [eassumption | reflexivity]|]). reflexivity.
    + reflexivity.
  - unfold ret at 1. rewrite getitem_run, Hurl, bind_invoke.
    destruct get_functions_connection_string as [e|connection_string] eqn:Hconn.
    { eexists _, (inl e). rewrite <- !app_assoc. split; [reflexivity|]. split; [reflexivity|]. left.
      split; [reflexivity|]. exists e. split; [reflexivity|].
      left. right. right. right. right. left. exact Hconn. }
    rewrite bind_invoke.
    eexists _, (match save_users_octopus_url_from_login user_id url (VStr "API-GUEST") password salt
                        connection_string with
                | inl e => inl e
                | inr _ => inr (plain_response "" 201)
                end).
    rewrite <- !app_assoc. split.
    { destruct (save_users_octopus_url_from_login user_id url (VStr "API-GUEST") password salt
                  connection_string) eqn:Hsave; simpl app; reflexivity. }
    split; [reflexivity|]. right.
    exists (SaveUsersOctopusUrlFromLogin user_id url (VStr "API-GUEST") password salt
              connection_string).
    split.
    + exists d, api, url, user_id, user, (VStr "API-GUEST"), connection_string.
      rewrite Hguest. repeat (split; [first [eassumption | reflexivity]|]).
      split; [split; [apply differs_guest, Hguest | reflexivity]|].
      repeat (split; [first [eassumption | reflexivity]|]). reflexivity.
    + reflexivity.
Qed.

(** X15.  At most one call stores credentials, and the key it stores
    is never read from the request as it is: for the guest key it is
    the fixed guest key, and no temporary key is created; for any other
    key it is the temporary key that [create_limited_api_key] returned
    for the user the submitted key identifies.  The address stored is
    the submitted one and the user id is the one of the session. *)
Theorem stored_key_is_temporary_or_guest (req : HttpRequest) (made : list call) :
  ∃ calls r,
    login_submit req made = (made ++ calls, r)
    ∧ (filter (λ c, is_save c = true) calls = []
       ∨ ∃ tried save,
           reaches_store req tried save
           ∧ tried `prefix_of` calls
           ∧ filter (λ c, is_save c = true) calls = [save]).
Proof.
  destruct (submit_outcome req made) as (calls & r & Hrun & _ & Hcases).
  unfold login_submit, try_clauses. rewrite Hrun.
  assert (Hhandled : ∀ body status e,
            failed body status e (made ++ calls)
            = (made ++ (calls ++ [ErrorHandled e]), inr (plain_response body status))).
  { intros body status e. unfold failed. rewrite bind_invoke, app_assoc. reflexivity. }
  assert (Hsaves : ∀ e, filter (λ c, is_save c = true) (calls ++ [ErrorHandled e])
                        = filter (λ c, is_save c = true) calls).
  { intros e. rewrite filter_app. apply app_nil_r. }
  assert (Hstore : ∀ save, reaches_store req calls save →
                           filter (λ c, is_save c = true) calls = [save]).
  { intros save (d & api & url & user_id & user & api_key & connection_string
                 & _ & _ & _ & _ & _ & _ & _ & -> & ->).
    destruct (differs api "API-GUEST"); reflexivity. }
  destruct r as [e|response].
  - assert (Hgoal : ∀ extra,
              filter (λ c, is_save c = true) (calls ++ extra) = filter (λ c, is_save c = true) calls →
              filter (λ c, is_save c = true) (calls ++ extra) = []
              ∨ ∃ tried save, reaches_store req tried save ∧ tried `prefix_of` (calls ++ extra)
                              ∧ filter (λ c, is_save c = true) (calls ++ extra) = [save]).
    { intros extra Hextra. rewrite Hextra.
      destruct Hcases as [[Hnone _]|(save & Hreach & _)]; [left; exact Hnone|].
      right. exists calls, save. split; [exact Hreach|].
      split; [apply prefix_app_r; reflexivity | apply Hstore, Hreach]. }
    cbn [first_clause existsb].
    destruct (isinstance e OctopusRequestFailed || (isinstance e OctopusApiKeyInvalid
              || (isinstance e ValueError || false))).
    { rewrite Hhandled. eexists _, _. split; [reflexivity|]. apply Hgoal, Hsaves. }
    destruct (isinstance e Exception || false).
    { rewrite Hhandled. eexists _, _. split; [reflexivity|]. apply Hgoal, Hsaves. }
    exists calls, (inl e). split; [reflexivity|].
    specialize (Hgoal []). rewrite app_nil_r in Hgoal. apply Hgoal. reflexivity.
  - exists calls, (inr response). split; [reflexivity|].
    destruct Hcases as [[_ (e & He & _)]|(save & Hreach & _)]; [discriminate|].
    right. exists calls, save. split; [exact Hreach|]. split; [reflexivity | apply Hstore, Hreach].
Qed.

(** X16.  When the imported functions raise nothing but instances of
    [Exception], [login_submit] never raises.  It answers 201 with an
    empty body exactly when the credentials were stored; otherwise it
    hands the one exception to [handle_error], as its last step, and
    answers 400 when the exception is an [OctopusRequestFailed], an
    [OctopusApiKeyInvalid] or a [ValueError], and 500 for anything
    else, which includes a body that lacks a field. *)
Theorem login_submit_answers (req : HttpRequest) (made : list call) :
  (∀ e, from_service e → isinstance e Exception = true) →
  ∃ calls response,
    login_submit req made = (made ++ calls, inr response)
    ∧ ((response = plain_response "" 201
        ∧ filter (λ c, is_error c = true) calls = []
        ∧ ∃ save, reaches_store req calls save ∧ save_outcome save = inr tt)
       ∨ (∃ tried e,
            submit req made = (made ++ tried, inl e)
            ∧ calls = tried ++ [ErrorHandled e]
            ∧ filter (λ c, is_error c = true) tried = []
            ∧ response
              = if isinstance e OctopusRequestFailed || isinstance e OctopusApiKeyInvalid
                   || isinstance e ValueError
                then plain_response "Failed to generate temporary key" 400
                else plain_response "Failed to read form HTML" 500)).
Proof.
  intros Hservices.
  destruct (submit_outcome req made) as (calls & r & Hrun & Hquiet & Hcases).
  unfold login_submit, try_clauses. rewrite Hrun.
  destruct r as [e|response].
  - assert (Hexception : isinstance e Exception = true).
    { destruct Hcases as [[_ (e' & He & Horigin)]|(save & Hreach & Hsave)].
      - injection He as <-. destruct Horigin as [Hs|[->| ->]]; [apply Hservices, Hs| |];
          vm_compute; reflexivity.
      - destruct save; simpl in Hsave; try discriminate.
        destruct (save_users_octopus_url_from_login user_id url api_key password salt
                    connection_string) as [e'|u] eqn:Hsaved; [|discriminate].
        injection Hsave as <-. apply Hservices.
        right. right. right. right. right. eauto 10. }
    cbn [first_clause existsb]. rewrite Hexception. rewrite !orb_false_r.
    destruct (isinstance e OctopusRequestFailed || (isinstance e OctopusApiKeyInvalid
              || isinstance e ValueError)) eqn:Hclient.
    + unfold failed. rewrite bind_invoke. unfold ret.
      exists (calls ++ [ErrorHandled e]), (plain_response "Failed to generate temporary key" 400).
      rewrite app_assoc. split; [reflexivity|]. right. exists calls, e.
      split; [reflexivity|]. split; [reflexivity|]. split; [exact Hquiet|].
      rewrite <- orb_assoc, Hclient. reflexivity.
    + unfold failed. rewrite bind_invoke. unfold ret.
      exists (calls ++ [ErrorHandled e]), (plain_response "Failed to read form HTML" 500).
      rewrite app_assoc. split; [reflexivity|]. right. exists calls, e.
      split; [reflexivity|]. split; [reflexivity|]. split; [exact Hquiet|].
      rewrite <- orb_assoc, Hclient. reflexivity.
  - exists calls, response. split; [reflexivity|]. left.
    destruct Hcases as [[_ (e & He & _)]|(save & Hreach & Hsave)]; [discriminate|].
    destruct (save_outcome save) as [e|[]] eqn:Hsaved; [discriminate|].
    injection Hsave as ->. split; [reflexivity|]. split; [exact Hquiet|].
    exists save. split; [exact Hreach | exact Hsaved].
Qed.

End LoginSubmit.

#[local] Existing Instance DemoLogin.services.

Lemma demo_services_raise_exceptions (e : exc) :
  from_service (H := DemoLogin.services) e → isinstance e Exception = true.
Proof.
  intros [(body_raw & Hraised)|[(state & password & salt & Hraised)|[(api & url & Hraised)
         |[(user & api & url & Hraised)|[Hraised|(a & b & c & d & f & g & Hraised)]]]]];
    simpl in Hraised; try discriminate.
  - unfold DemoLogin.parse in Hraised.
    repeat match type of Hraised with
           | (if ?b then _ else _) = _ => destruct b; [discriminate|]
           end.
    injection Hraised as <-. vm_compute. reflexivity.
  - destruct state; [discriminate|]. injection Hraised as <-. vm_compute. reflexivity.
  - unfold DemoLogin.current_user in Hraised.
    repeat match type of Hraised with
           | match ?x with _ => _ end = _ => destruct x; try discriminate
           end;
      injection Hraised as <-; vm_compute; reflexivity.
Qed.

(** A body without the address is answered with 500, before the server
    is asked anything. *)
Lemma login_submit_answers_witness :
  ∃ calls response,
    login_submit (DemoLogin.form "ada" "{no-url}") [] = ([] ++ calls, inr response)
    ∧ ((response = plain_response "" 201
        ∧ filter (λ c, is_error c = true) calls = []
        ∧ ∃ save, reaches_store (DemoLogin.form "ada" "{no-url}") calls save
                  ∧ save_outcome save = inr tt)
       ∨ (∃ tried e,
            submit (DemoLogin.form "ada" "{no-url}") [] = ([] ++ tried, inl e)
            ∧ calls = tried ++ [ErrorHandled e]
            ∧ filter (λ c, is_error c = true) tried = []
            ∧ response
              = if isinstance e OctopusRequestFailed || isinstance e OctopusApiKeyInvalid
                   || isinstance e ValueError
                then plain_response "Failed to generate temporary key" 400
                else plain_response "Failed to read form HTML" 500)).
Proof.
  apply (login_submit_answers (DemoLogin.form "ada" "{no-url}") []).
  exact demo_services_raise_exceptions.
Defined.

Example login_with_a_key :
  login_submit (DemoLogin.form "ada" "{ada}") []
  = ([ExtractSessionBlob (Some "ada") (Some "secret") (Some "secret");
      GetCurrentUser (VStr "API-ADA") (VStr "https://ada.example.org");
      CreateLimitedApiKey (VStr "Users-1") (VStr "API-ADA") (VStr "https://ada.example.org");
      GetFunctionsConnectionString;
      SaveUsersOctopusUrlFromLogin (VStr "ada") (VStr "https://ada.example.org")
        (VStr "API-TEMPORARY") (Some "secret") (Some "secret") "UseDevelopmentStorage=true"],
     inr (plain_response "" 201)).
Proof. vm_compute. reflexivity. Qed.

Example login_as_guest :
  login_submit (DemoLogin.form "ada" "{guest}") []
  = ([ExtractSessionBlob (Some "ada") (Some "secret") (Some "secret");
      GetCurrentUser (VStr "API-GUEST") (VStr "https://demo.example.org");
      GetFunctionsConnectionString;
      SaveUsersOctopusUrlFromLogin (VStr "ada") (VStr "https://demo.example.org")
        (VStr "API-GUEST") (Some "secret") (Some "secret") "UseDevelopmentStorage=true"],
     inr (plain_response "" 201)).
Proof. vm_compute. reflexivity. Qed.

Example login_without_address :
  login_submit (DemoLogin.form "ada" "{no-url}") []
  = ([ExtractSessionBlob (Some "ada") (Some "secret") (Some "secret");
      ErrorHandled (builtin KeyError)],
     inr (plain_response "Failed to read form HTML" 500)).
Proof. vm_compute. reflexivity. Qed.

Example login_with_a_malformed_body :
  (login_submit (DemoLogin.form "ada" "api=API-ADA") []).2
  = inr (plain_response "Failed to generate temporary key" 400).
Proof. vm_compute. reflexivity. Qed.

End LoginSpec.


(** ** submit_query and query_parse *)

Module HandlersSpec.
Import Py FunctionApp Calls CallsFacts Handlers.
Import Eff.

Section Handlers.
Context `{Collaborators} `{Tools}.

Lemma bind_extract {B} (req : HttpRequest) (k : string → Handlers.M B) (made : list event) :
  bind (extract req) k made
  = match extract_query req with
    | (events, inl e) => (made ++ events, inl e)
    | (events, inr query) => k query (made ++ events)
    end.
Proof.
  unfold bind, extract. destruct (extract_query req) as [events [e|query]]; reflexivity.
Qed.

Lemma failed_run (body : string) (status : Z) (e : exc) (made : list event) :
  failed body status e made
  = (made ++ [HandleError e],
     inr {| response_body := body; status_code := status; headers := ∅ |}).
Proof. reflexivity. Qed.

(** X17.  A request whose query is blank is answered in the same way
    by the three handlers that read a query: each returns the sample
    question as an event stream, with status 200, and none of them
    dispatches anything to the language model or reports an error of
    its own.  The chat handler alone logs the query. *)
Theorem blank_query_same_answer (req : HttpRequest) (events made : list event)
    (query : string) :
  extract_query req = (events, inr query) →
  truthy_str (strip query) = false →
  copilot_handler_internal req
    = (events ++ [LoggerInfo ("Query: " +:+ query)], inr sample_response)
  ∧ submit_query req made = (made ++ events, inr sample_response)
  ∧ query_parse req made
    = (made ++ events, inr {| http := sample_response; mimetype := None |}).
Proof.
  intros Hquery Hblank. split; [|split].
  - unfold copilot_handler_internal, handler_body. rewrite Hquery, Hblank. reflexivity.
  - unfold submit_query, try_clauses. rewrite bind_extract, Hquery, Hblank. reflexivity.
  - unfold query_parse, try_clauses. rewrite bind_extract, Hquery, Hblank. reflexivity.
Qed.

(** X18.  When [json.loads] and the dispatch raise nothing but
    instances of [Exception], [submit_query] never raises, and its
    answer is one of three: the sample question for a blank query; the
    result of the dispatch, as it is and without the headers of a
    stream, with status 200; or, after the exception of the dispatch
    was handed to [handle_error], a text without headers whose status
    is 400 for a content filter and 500 for anything else. *)
Theorem submit_query_answers (req : HttpRequest) (made : list event) :
  (∀ body_raw e, json_loads body_raw = inl e → isinstance e Exception = true) →
  (∀ query e, submit_query_tools query = inl e → isinstance e Exception = true) →
  ∃ events query,
    extract_query req = (events, inr query)
    ∧ if negb (truthy_str (strip query)) then
        submit_query req made = (made ++ events, inr sample_response)
      else
        match submit_query_tools query with
        | inr result =>
            submit_query req made
            = (made ++ events ++ [LlmToolQuery query], inr (http_response result ∅))
        | inl e =>
            submit_query req made
            = (made ++ events ++ [LlmToolQuery query; HandleError e],
               inr {| response_body :=
                        if isinstance e OpenAIContentFilter then NO_FUNCTION_RESPONSE
                        else if isinstance e OpenAITokenLengthExceeded then
                          "The query and context exceeded the context window size. "
                          +:+ "This error has been logged."
                        else "An exception was raised. See the logs for more details.";
                      status_code := if isinstance e OpenAIContentFilter then 400 else 500;
                      headers := ∅ |})
        end.
Proof.
  intros Hjson Htools.
  destruct (FunctionAppMore.extract_query_returns req Hjson) as (events & query & Hquery).
  exists events, query. split; [exact Hquery|].
  unfold submit_query, try_clauses. rewrite bind_extract, Hquery.
  destruct (negb (truthy_str (strip query))); [reflexivity|].
  rewrite bind_invoke.
  destruct (submit_query_tools query) as [e|result] eqn:Hcall.
  - cbn [first_clause existsb]. rewrite !orb_false_r.
    destruct (isinstance e OpenAIContentFilter).
    { rewrite failed_run, <- !app_assoc. reflexivity. }
    destruct (isinstance e OpenAITokenLengthExceeded).
    { rewrite failed_run, <- !app_assoc. reflexivity. }
    rewrite (Htools query e Hcall). rewrite failed_run, <- !app_assoc. reflexivity.
  - rewrite <- app_assoc. reflexivity.
Qed.

End Handlers.

#[local] Existing Instance DemoApp.collaborators.
#[local] Existing Instance DemoTools.tools.

(** A chat whose last message is blank. *)
Lemma blank_query_same_answer_witness :
  copilot_handler_internal (DemoApp.post "{blank}")
    = ([] ++ [LoggerInfo ("Query: " +:+ "")], inr sample_response)
  ∧ submit_query (DemoApp.post "{blank}") [] = ([] ++ [], inr sample_response)
  ∧ query_parse (DemoApp.post "{blank}") []
    = ([] ++ [], inr {| http := sample_response; mimetype := None |}).
Proof.
  apply (blank_query_same_answer (DemoApp.post "{blank}") [] [] ""); vm_compute; reflexivity.
Defined.

(** A query the content filter rejects. *)
Lemma submit_query_answers_witness :
  ∃ events query,
    extract_query (DemoApp.form "Say something rude") = (events, inr query)
    ∧ if negb (truthy_str (strip query)) then
        submit_query (DemoApp.form "Say something rude") []
        = ([] ++ events, inr sample_response)
      else
        match submit_query_tools query with
        | inr result =>
            submit_query (DemoApp.form "Say something rude") []
            = ([] ++ events ++ [LlmToolQuery query], inr (http_response result ∅))
        | inl e =>
            submit_query (DemoApp.form "Say something rude") []
            = ([] ++ events ++ [LlmToolQuery query; HandleError e],
               inr {| response_body :=
                        if isinstance e OpenAIContentFilter then NO_FUNCTION_RESPONSE
                        else if isinstance e OpenAITokenLengthExceeded then
                          "The query and context exceeded the context window size. "
                          +:+ "This error has been logged."
                        else "An exception was raised. See the logs for more details.";
                      status_code := if isinstance e OpenAIContentFilter then 400 else 500;
                      headers := ∅ |})
        end.
Proof.
  apply (submit_query_answers (DemoApp.form "Say something rude") []).
  - exact FunctionAppMore.parse_body_raises_exceptions.
  - intros query e. cbn [submit_query_tools DemoTools.tools]. unfold DemoTools.submit.
    destruct (String.eqb query "List projects"); [discriminate|].
    destruct (String.eqb query "Say something rude");
      intros Hraised; injection Hraised as <-; vm_compute; reflexivity.
Defined.

Example content_filter :
  submit_query (DemoApp.form "Say something rude") []
  = ([LlmToolQuery "Say something rude";
      HandleError (DemoApp.raised OpenAIContentFilter "" "" "")],
     inr {| response_body := "Sorry, I did not understand that request.";
            status_code := 400; headers := ∅ |}).
Proof. vm_compute. reflexivity. Qed.

Example parsed_entities :
  query_parse (DemoApp.form "List projects") []
  = ([LlmToolQuery "List projects"],
     inr {| http := http_response "{...}" ∅; mimetype := Some "application/json" |}).
Proof. vm_compute. reflexivity. Qed.

End HandlersSpec.


(** ** get_deployments_for_project: when the dates are read *)

Module DeploymentsDates.
Import Py PyFacts Eff Deployments DeploymentsNotions DeploymentsSpec.

Section Dates.
Context `{Helpers}.
Variable space_id : string.
Variable project : Project.
Variable environments tenants : list Resource.
Variable max_results : Z.
Hypothesis cap_positive : 1 <= max_results.

Local Abbreviation scan_deployments_with dates :=
  (scan_deployments space_id project environments tenants dates max_results).
Local Abbreviation scan_releases_with dates :=
  (scan_releases space_id project environments tenants dates max_results).

(** An inner loop that adds nothing without a date filter skipped every
    deployment at the environment or the tenant test, so it never
    reaches the dates. *)
Lemma scan_deployments_nothing_kept (dates : option (list string)) (release : Release)
    (items : list Deployment) (deployments : list DeploymentRecord) (w w' : World) :
  scan_deployments_with None release items deployments w = (w', inr deployments) →
  scan_deployments_with dates release items deployments w = (w', inr deployments).
Proof.
  induction items as [|deployment rest IH]; intros Hrun; [exact Hrun|].
  rewrite scan_deployments_cons in Hrun. rewrite scan_deployments_cons.
  destruct (environment_mismatch environments deployment); [apply IH, Hrun|].
  destruct (tenant_mismatch tenants deployment); [apply IH, Hrun|].
  exfalso. simpl outside_dates in Hrun.
  destruct (enrich space_id project environments tenants release deployment w)
    as [w1 [e|record]]; [discriminate|].
  destruct (cap_reached max_results (deployments ++ [record])).
  - injection Hrun as _ Hsame. apply (f_equal length) in Hsame.
    rewrite length_app in Hsame. simpl in Hsame. lia.
  - apply scan_deployments_collects in Hrun as (added & _ & Hsame & _).
    apply (f_equal length) in Hsame. rewrite !length_app in Hsame. simpl in Hsame. lia.
Qed.

Lemma scan_releases_nothing_kept (dates : option (list string)) (releases : list Release)
    (w w' : World) :
  scan_releases_with None releases [] w = (w', inr []) →
  scan_releases_with dates releases [] w = (w', inr []).
Proof using cap_positive.
  revert w. induction releases as [|release rest IH]; intros w Hrun; [exact Hrun|].
  rewrite scan_releases_cons in Hrun. rewrite scan_releases_cons. cbv zeta in *.
  destruct (get_release_deployments (platform w) space_id (release_Id release))
    as [e|items]; [discriminate|].
  destruct (scan_deployments_with None release items [] _) as [w1 [e|collected]] eqn:Hinner;
    [discriminate|].
  assert (collected = []) as ->.
  { destruct (cap_reached max_results collected) eqn:Hcap.
    - injection Hrun as _ Hsame. exact Hsame.
    - apply scan_releases_collects in Hrun as (added & _ & Hsame & _).
      destruct collected; [reflexivity | discriminate]. }
  rewrite (scan_deployments_nothing_kept dates _ _ _ _ _ Hinner).
  assert (Hcap : cap_reached max_results [] = false)
    by (unfold cap_reached; simpl; apply Z.leb_gt; lia).
  rewrite Hcap in *. apply IH, Hrun.
Qed.

End Dates.

Section Whole.
Context `{Helpers}.

(** X19.  The dates of the request are read only for a deployment that
    has passed the environment and the tenant test.  So when a call
    without a date filter returns no deployment (for a cap of at least
    one), the same call with any dates returns the same empty result
    after the same calls: dates that cannot be parsed go unnoticed. *)
Theorem dates_unread_when_nothing_matches (space_id project_name : string)
    (environment_names tenant_names : Names) (api_key octopus_url : string)
    (dates : option (list string)) (max_results : Z) (w w' : World) :
  1 <= max_results →
  get_deployments_for_project space_id project_name environment_names tenant_names
    api_key octopus_url None max_results w = (w', inr {| Deployments := [] |}) →
  get_deployments_for_project space_id project_name environment_names tenant_names
    api_key octopus_url dates max_results w = (w', inr {| Deployments := [] |}).
Proof.
  intros Hcap Hrun. unfold get_deployments_for_project in *.
  do 4 (unfold bind at 1, lift in Hrun; unfold bind at 1, lift;
        match type of Hrun with context [ensure_string_not_empty ?a ?b] =>
          destruct (ensure_string_not_empty a b) as [e|[]]; [discriminate|] end).
  unfold bind at 1, api in Hrun. unfold bind at 1, api.
  destruct (get_project (platform w) space_id project_name) as [e|project]; [discriminate|].
  unfold bind at 1, api in Hrun. unfold bind at 1, api. cbn [platform calls] in *.
  destruct (get_project_releases (platform w) space_id (project_Id project) 100)
    as [e|releases]; [discriminate|].
  unfold bind at 1 in Hrun. unfold bind at 1.
  destruct (resolve_names (CallGetEnvironmentCached space_id) _ _ _)
    as [w1 [e|environments]]; [discriminate|].
  unfold bind at 1 in Hrun. unfold bind at 1.
  destruct (resolve_names (CallGetTenantCached space_id) _ _ _)
    as [w2 [e|tenants]]; [discriminate|].
  unfold bind at 1 in Hrun. unfold bind at 1.
  destruct (scan_releases space_id project environments tenants None max_results releases [] w2)
    as [w3 [e|collected]] eqn:Hscan; [discriminate|].
  unfold ret in Hrun. injection Hrun as <- Hslice.
  assert (collected = []) as ->.
  { rewrite slice_to_take in Hslice by lia.
    destruct collected; [reflexivity|].
    destruct (Z.to_nat max_results) eqn:Hn; [lia | discriminate]. }
  rewrite (scan_releases_nothing_kept space_id project environments tenants max_results Hcap
             dates releases w2 w3 Hscan).
  unfold ret. rewrite Hslice. reflexivity.
Qed.

End Whole.

#[local] Existing Instance Demo.helpers.

(** Nothing is deployed to [Prod] for the tenant [Contoso], so dates
    that are no dates are accepted. *)
Lemma dates_unread_when_nothing_matches_witness :
  Demo.run ["Prod"] ["Contoso"] (Some ["soon"; "later"]) 10
  = ((Demo.run ["Prod"] ["Contoso"] None 10).1, inr {| Deployments := [] |}).
Proof.
  apply (dates_unread_when_nothing_matches (H := Demo.helpers) "Spaces-1" "Web"
           ["Prod"] ["Contoso"] "API-KEY" "https://octopus.example"
           (Some ["soon"; "later"]) 10 Demo.start).
  - lia.
  - vm_compute. reflexivity.
Defined.

(** The same dates are rejected as soon as a deployment reaches the
    date test. *)
Example dates_read_when_something_matches :
  (Demo.run ["Prod"] [] (Some ["soon"; "later"]) 10).2 = inl (Raised "ParserError").
Proof. vm_compute. reflexivity. Qed.

End DeploymentsDates.


(** ** get_deployments_for_project: where a record comes from *)

Module DeploymentsRecords.
Import Py PyFacts Eff Deployments DeploymentsNotions DeploymentsSpec.

Section Records.
Context `{Helpers}.
Variable space_id : string.
Variable project : Project.
Variable environments tenants : list Resource.
Variable dates : option (list string).
Variable max_results : Z.

Local Abbreviation enrich := (enrich space_id project environments tenants).
Local Abbreviation scan_deployments :=
  (scan_deployments space_id project environments tenants dates max_results).
Local Abbreviation scan_releases :=
  (scan_releases space_id project environments tenants dates max_results).

Lemma enrich_built_from (release : Release) (deployment : Deployment) (w w1 : World)
    (record : DeploymentRecord) :
  enrich release deployment w = (w1, inr record) →
  built_from (platform w) space_id release deployment record.
Proof.
  unfold Deployments.enrich, built_from. intros Hrun.
  unfold bind at 1 in Hrun.
  destruct (has_task deployment) as [task_id|].
  - unfold bind at 1, api, ret in Hrun. simpl in Hrun.
    destruct (get_task _ _ _) as [e|t] eqn:Htask; [discriminate|].
    unfold bind at 1 in Hrun. simpl in Hrun.
    destruct (get_channel_cached _ _ _) as [e|channel] eqn:Hchannel; [discriminate|].
    unfold bind at 1 in Hrun.
    match type of Hrun with context [name_of_match ?P tenants ?w0] =>
      destruct (name_of_match_run P tenants w0) as [tn Htn]; rewrite Htn in Hrun end.
    destruct tn as [e|tenant_name]; [discriminate|].
    unfold bind at 1 in Hrun.
    match type of Hrun with context [name_of_match ?P environments ?w0] =>
      destruct (name_of_match_run P environments w0) as [en Hen]; rewrite Hen in Hrun end.
    destruct en as [e|environment_name]; [discriminate|].
    unfold ret in Hrun. injection Hrun as <- <-. simpl.
    repeat (split; [reflexivity|]). split; eauto.
  - unfold ret at 1 in Hrun. unfold bind at 1, api in Hrun. simpl in Hrun.
    destruct (get_channel_cached _ _ _) as [e|channel] eqn:Hchannel; [discriminate|].
    unfold bind at 1 in Hrun.
    match type of Hrun with context [name_of_match ?P tenants ?w0] =>
      destruct (name_of_match_run P tenants w0) as [tn Htn]; rewrite Htn in Hrun end.
    destruct tn as [e|tenant_name]; [discriminate|].
    unfold bind at 1 in Hrun.
    match type of Hrun with context [name_of_match ?P environments ?w0] =>
      destruct (name_of_match_run P environments w0) as [en Hen]; rewrite Hen in Hrun end.
    destruct en as [e|environment_name]; [discriminate|].
    unfold ret in Hrun. injection Hrun as <- <-. simpl.
    repeat (split; [reflexivity|]). split; eauto.
Qed.

(** Every record the inner loop adds was built from one of its
    items. *)
Lemma scan_deployments_built (P : DeploymentRecord → Prop) (p : Platform) (release : Release)
    (items : list Deployment) (deployments collected : list DeploymentRecord) (w w' : World) :
  (∀ deployment record,
     deployment ∈ items → built_from p space_id release deployment record → P record) →
  platform w = p →
  Forall P deployments →
  scan_deployments release items deployments w = (w', inr collected) →
  Forall P collected.
Proof.
  revert deployments w.
  induction items as [|deployment rest IH]; intros deployments w HP Hp Hall Hrun.
  - simpl in Hrun. injection Hrun as <- <-. exact Hall.
  - assert (HP' : ∀ d record, d ∈ rest → built_from p space_id release d record → P record)
      by (intros d record Hd; apply HP; right; exact Hd).
    rewrite scan_deployments_cons in Hrun.
    destruct (environment_mismatch environments deployment); [eapply IH; eassumption|].
    destruct (tenant_mismatch tenants deployment); [eapply IH; eassumption|].
    destruct (outside_dates dates deployment) as [e|[|]];
      [discriminate | eapply IH; eassumption |].
    destruct (enrich release deployment w) as [w1 [e|record]] eqn:Henrich; [discriminate|].
    pose proof (enrich_built_from _ _ _ _ _ Henrich) as Hbuilt. rewrite Hp in Hbuilt.
    apply enrich_returns in Henrich as (_ & Hp1 & _).
    assert (Hall' : Forall P (deployments ++ [record])).
    { apply Forall_app. split; [exact Hall|]. constructor; [|constructor].
      eapply HP; [left | exact Hbuilt]. }
    destruct (cap_reached _ _); [injection Hrun as <- <-; exact Hall'|].
    eapply IH; [exact HP' | | exact Hall' | exact Hrun]. congruence.
Qed.

Lemma scan_releases_built (P : DeploymentRecord → Prop) (p : Platform)
    (releases : list Release) (deployments collected : list DeploymentRecord) (w w' : World) :
  (∀ release items deployment record,
     release ∈ releases →
     get_release_deployments p space_id (release_Id release) = inr items →
     deployment ∈ items →
     built_from p space_id release deployment record → P record) →
  platform w = p →
  Forall P deployments →
  scan_releases releases deployments w = (w', inr collected) →
  Forall P collected.
Proof.
  revert deployments w.
  induction releases as [|release rest IH]; intros deployments w HP Hp Hall Hrun.
  - simpl in Hrun. injection Hrun as <- <-. exact Hall.
  - rewrite scan_releases_cons in Hrun. cbv zeta in Hrun. rewrite Hp in Hrun.
    destruct (get_release_deployments p space_id (release_Id release)) as [e|items] eqn:Hitems;
      [discriminate|].
    destruct (scan_deployments release items deployments _) as [w1 [e|collected1]] eqn:Hinner;
      [discriminate|].
    assert (Hall1 : Forall P collected1).
    { eapply (scan_deployments_built P p); [| |exact Hall|exact Hinner].
      - intros deployment record Hin Hbuilt. eapply HP; [left | exact Hitems | exact Hin | exact Hbuilt].
      - reflexivity. }
    apply scan_deployments_platform in Hinner. simpl in Hinner.
    destruct (cap_reached _ _); [injection Hrun as <- <-; exact Hall1|].
    eapply IH; [| |exact Hall1|exact Hrun]; [|exact Hinner].
    intros release' items' deployment record Hin. apply HP. right. exact Hin.
Qed.

End Records.

Section Whole.
Context `{Helpers}.

(** X20.  Every record of the result joins one release of the project
    with one deployment that the platform lists under that release: it
    has the version and the notes of the release, the fields of the
    deployment, the name of the deployment's channel and, exactly when
    the deployment has a task id that is not empty, the state and the
    duration of that task. *)
Theorem records_join_release_and_deployment (space_id project_name : string)
    (environment_names tenant_names : Names) (api_key octopus_url : string)
    (dates : option (list string)) (max_results : Z) (w w' : World) (result : Result) :
  get_deployments_for_project space_id project_name environment_names tenant_names
    api_key octopus_url dates max_results w = (w', inr result) →
  Forall (joins_release_and_deployment (platform w) space_id project_name)
    (Deployments result).
Proof.
  intros Hrun.
  apply get_deployments_for_project_returns in Hrun
    as (project & releases & environments & tenants & before & w0 & collected
        & Hproject & Hreleases & _ & _ & Hp & _ & _ & _ & Hscan & ->).
  simpl.
  assert (Hall : Forall (joins_release_and_deployment (platform w) space_id project_name)
                   collected).
  { eapply (scan_releases_built space_id project environments tenants dates max_results
              _ (platform w)); [|exact Hp|constructor|exact Hscan].
    intros release items deployment record Hrelease Hitems Hdeployment Hbuilt.
    exists project, releases, release, items, deployment. auto 10. }
  unfold slice_to. apply Forall_take. exact Hall.
Qed.

End Whole.

#[local] Existing Instance Demo.helpers.

(** The two deployments to [Dev] that a cap of two returns. *)
Lemma records_join_release_and_deployment_witness :
  ∃ w' result,
    Demo.run ["Dev"] [] None 2 = (w', inr result)
    ∧ map DeploymentId (Deployments result) = ["Deployments-1"; "Deployments-3"]
    ∧ Forall (joins_release_and_deployment (H := Demo.helpers) Demo.server "Spaces-1" "Web")
        (Deployments result).
Proof.
  destruct (Demo.run ["Dev"] [] None 2) as [w' [e|result]] eqn:Hrun;
    [vm_compute in Hrun; discriminate|].
  exists w', result. split; [reflexivity|]. split.
  - vm_compute in Hrun. injection Hrun as _ <-. reflexivity.
  - exact (records_join_release_and_deployment (H := Demo.helpers) "Spaces-1" "Web" ["Dev"] []
             "API-KEY" "https://octopus.example" None 2 Demo.start w' result Hrun).
Defined.

End DeploymentsRecords.


(** ** generate_slack_login *)

Module SlackUrlsSpec.
Import Py SlackUrls.

Lemma count_char_app (c : ascii) (s1 s2 : string) :
  count_char c (s1 +:+ s2) = (count_char c s1 + count_char c s2)%nat.
Proof.
  induction s1 as [|c' s1 IH]; [reflexivity|].
  simpl. rewrite IH. lia.
Qed.

(** X21.  The markdown link of the Slack login is opened and never
    closed: when the client id, the quoted redirect address and the
    user bring no parenthesis of their own, the returned text has
    exactly one opening parenthesis and no closing one.  Without a
    redirect address in the environment the function raises a
    [TypeError] instead of returning. *)
Theorem slack_login_link_is_not_closed (environ : gmap string string)
    (quote : string → string) (github_user : string) :
  (∀ c, c = opening ∨ c = closing →
        count_char c (environ_str environ "SLACK_CLIENT_ID") = 0%nat
        ∧ count_char c github_user = 0%nat
        ∧ ∀ s, count_char c (quote s) = 0%nat) →
  match generate_slack_login environ quote github_user with
  | inr text =>
      is_Some (environ !! "SLACK_CLIENT_REDIRECT")
      ∧ count_char opening text = 1%nat
      ∧ count_char closing text = 0%nat
  | inl e => environ !! "SLACK_CLIENT_REDIRECT" = None ∧ e = TypeError
  end.
Proof.
  intros Hclean. unfold generate_slack_login.
  destruct (environ !! "SLACK_CLIENT_REDIRECT") as [redirect|]; [|split; reflexivity].
  split; [eexists; reflexivity|].
  destruct (Hclean opening (or_introl eq_refl)) as (Hid1 & Huser1 & Hquote1).
  destruct (Hclean closing (or_intror eq_refl)) as (Hid2 & Huser2 & Hquote2).
  rewrite !count_char_app, Hid1, Huser1, Hquote1, Hid2, Huser2, Hquote2.
  split; reflexivity.
Qed.

Lemma quote_parentheses_clean (c : ascii) (s : string) :
  c = opening ∨ c = closing → count_char c (quote_parentheses s) = 0%nat.
Proof.
  intros Hc. induction s as [|c' s IH]; [reflexivity|].
  cbn [quote_parentheses].
  destruct (Ascii.eqb c' opening) eqn:Ho.
  { rewrite count_char_app, IH. destruct Hc as [-> | ->]; reflexivity. }
  destruct (Ascii.eqb c' closing) eqn:Hc'.
  { rewrite count_char_app, IH. destruct Hc as [-> | ->]; reflexivity. }
  cbn [count_char]. rewrite IH.
  destruct Hc as [-> | ->]; [rewrite Ascii.eqb_sym, Ho | rewrite Ascii.eqb_sym, Hc'];
    reflexivity.
Qed.

Lemma slack_login_link_is_not_closed_witness :
  match generate_slack_login
          {[ "SLACK_CLIENT_ID" := "1234.5678";
             "SLACK_CLIENT_REDIRECT" := "https://example.org/api/slack_oauth(1)" ]}
          quote_parentheses "ada" with
  | inr text =>
      is_Some (({[ "SLACK_CLIENT_ID" := "1234.5678";
                   "SLACK_CLIENT_REDIRECT" := "https://example.org/api/slack_oauth(1)" ]}
                : gmap string string) !! "SLACK_CLIENT_REDIRECT")
      ∧ count_char opening text = 1%nat
      ∧ count_char closing text = 0%nat
  | inl e =>
      ({[ "SLACK_CLIENT_ID" := "1234.5678";
          "SLACK_CLIENT_REDIRECT" := "https://example.org/api/slack_oauth(1)" ]}
       : gmap string string) !! "SLACK_CLIENT_REDIRECT" = None
      ∧ e = TypeError
  end.
Proof.
  apply (slack_login_link_is_not_closed
           {[ "SLACK_CLIENT_ID" := "1234.5678";
              "SLACK_CLIENT_REDIRECT" := "https://example.org/api/slack_oauth(1)" ]}
           quote_parentheses "ada").
  intros c Hc. split; [|split].
  - destruct Hc as [-> | ->]; vm_compute; reflexivity.
  - destruct Hc as [-> | ->]; vm_compute; reflexivity.
  - intros s. apply quote_parentheses_clean, Hc.
Defined.

Example slack_login_text :
  generate_slack_login
    {[ "SLACK_CLIENT_ID" := "1234.5678"; "SLACK_CLIENT_REDIRECT" := "https://example.org" ]}
    quote_parentheses "ada"
  = inr ("Log in to Slack to include Slack messages in the context:" +:+ nl +:+ nl
         +:+ "[log in](https://slack.com/oauth/v2/authorize?client_id=1234.5678"
         +:+ "&redirect_url=https://example.org&user_scope=search:read&state=ada").
Proof. vm_compute. reflexivity. Qed.

Example slack_login_without_redirect :
  generate_slack_login {[ "SLACK_CLIENT_ID" := "1234.5678" ]} quote_parentheses "ada"
  = inl TypeError.
Proof. vm_compute. reflexivity. Qed.

End SlackUrlsSpec.


(** ** The wrappers: what is logged *)

Module WrappersMore.
Import Py Wrappers.

Lemma collect_kwargs_keys (declared : list string) (args1 args2 : arguments) :
  args1.*1 = args2.*1 →
  (collect_kwargs declared args1).*1 = (collect_kwargs declared args2).*1.
Proof.
  unfold collect_kwargs. revert args2.
  induction args1 as [|[k1 v1] rest1 IH]; intros [|[k2 v2] rest2] Hkeys; try discriminate.
  - reflexivity.
  - simpl in Hkeys. injection Hkeys as -> Hrest.
    rewrite !filter_cons. simpl.
    destruct (decide (k2 ∉ declared)); simpl; [f_equal|]; apply IH, Hrest.
Qed.

Lemma log_unexpected_keys {L} (logging : option (string → string → L))
    (kwargs1 kwargs2 : arguments) :
  kwargs1.*1 = kwargs2.*1 → log_unexpected logging kwargs1 = log_unexpected logging kwargs2.
Proof.
  revert kwargs2.
  induction kwargs1 as [|[k1 v1] rest1 IH]; intros [|[k2 v2] rest2] Hkeys; try discriminate.
  - reflexivity.
  - simpl in Hkeys. injection Hkeys as -> Hrest.
    simpl. rewrite (IH rest2 Hrest). reflexivity.
Qed.

(** X22.  What the wrappers log depends on the keys of the arguments
    only: two calls whose arguments have the same keys in the same
    order write the same lines, whatever the values are.  The value of
    an unexpected key is never written to the log. *)
Theorem wrapper_logs_ignore_values {L R Q : Type}
    (logging : option (string → string → L)) (query : Q)
    (deploy : Q → value → value → value → value → value → R)
    (lint : value → R) (args1 args2 : arguments) :
  args1.*1 = args2.*1 →
  (deploy_release_wrapper logging query deploy args1).1
    = (deploy_release_wrapper logging query deploy args2).1
  ∧ (octolint_unused_projects_wrapper logging lint args1).1
    = (octolint_unused_projects_wrapper logging lint args2).1.
Proof.
  intros Hkeys. unfold deploy_release_wrapper, octolint_unused_projects_wrapper. simpl.
  split; [f_equal|]; apply log_unexpected_keys, collect_kwargs_keys, Hkeys.
Qed.

(** Two calls that differ in the value of an unexpected key. *)
Lemma wrapper_logs_ignore_values_witness :
  (deploy_release_wrapper (Some (λ a b : string, (a, b))) tt (λ _ _ _ _ _ _, tt)
     [("space_name", VStr "Default"); ("password", VStr "secret")]).1
  = (deploy_release_wrapper (Some (λ a b : string, (a, b))) tt (λ _ _ _ _ _ _, tt)
       [("space_name", VStr "Default"); ("password", VStr "other")]).1
  ∧ (octolint_unused_projects_wrapper (Some (λ a b : string, (a, b))) (λ _, tt)
       [("space_name", VStr "Default"); ("password", VStr "secret")]).1
    = (octolint_unused_projects_wrapper (Some (λ a b : string, (a, b))) (λ _, tt)
         [("space_name", VStr "Default"); ("password", VStr "other")]).1.
Proof.
  apply (wrapper_logs_ignore_values (Some (λ a b : string, (a, b))) tt (λ _ _ _ _ _ _, tt)
           (λ _, tt)
           [("space_name", VStr "Default"); ("password", VStr "secret")]
           [("space_name", VStr "Default"); ("password", VStr "other")]).
  reflexivity.
Defined.

Example deploy_release_log :
  (deploy_release_wrapper (Some (λ a b : string, (a, b))) tt (λ _ _ _ _ _ _, tt)
     [("space_name", VStr "Default"); ("password", VStr "secret")]).1
  = [("Enter:", "deploy_release"); ("Unexpected Key: password", "Value: {value}")].
Proof. vm_compute. reflexivity. Qed.

End WrappersMore.


(** ** get_deployments_for_project: the work of the enrichment *)

Module DeploymentsWork.
Import Py PyFacts Eff Deployments DeploymentsNotions DeploymentsSpec.

Lemma lookups_app (cs1 cs2 : list ApiCall) : lookups (cs1 ++ cs2) = lookups cs1 ++ lookups cs2.
Proof. unfold lookups. apply List.filter_app. Qed.

Lemma lookups_of_lookups (space_id : string) (record : DeploymentRecord) :
  lookups (lookups_of space_id record) = lookups_of space_id record.
Proof.
  unfold lookups_of. destruct (TaskId record) as [t|]; [destruct (truthy_str t)|]; reflexivity.
Qed.

Lemma lookups_flat_map (space_id : string) (records : list DeploymentRecord) :
  lookups (flat_map (lookups_of space_id) records) = flat_map (lookups_of space_id) records.
Proof.
  induction records as [|record rest IH]; [reflexivity|].
  simpl. rewrite lookups_app, lookups_of_lookups, IH. reflexivity.
Qed.

Section Loops.
Context `{Helpers}.
Variable space_id : string.
Variable project : Project.
Variable environments tenants : list Resource.
Variable dates : option (list string).
Variable max_results : Z.

Local Abbreviation enrich := (enrich space_id project environments tenants).
Local Abbreviation scan_deployments :=
  (scan_deployments space_id project environments tenants dates max_results).
Local Abbreviation scan_releases :=
  (scan_releases space_id project environments tenants dates max_results).

(** The calls of one enrichment are the lookup of the task, when the
    deployment has one, and the lookup of the channel, in that order. *)
Lemma enrich_calls (release : Release) (deployment : Deployment) (w w1 : World)
    (record : DeploymentRecord) :
  enrich release deployment w = (w1, inr record) →
  calls w1 = calls w ++ lookups_of space_id record.
Proof.
  unfold Deployments.enrich, lookups_of. intros Hrun.
  unfold bind at 1 in Hrun. unfold has_task in Hrun.
  destruct (deployment_TaskId deployment) as [task_id|] eqn:Hid;
    [destruct (truthy_str task_id) eqn:Htruthy|].
  - unfold bind at 1, api, ret in Hrun. simpl in Hrun.
    destruct (get_task _ _ _) as [e|t]; [discriminate|].
    unfold bind at 1 in Hrun. simpl in Hrun.
    destruct (get_channel_cached _ _ _) as [e|channel]; [discriminate|].
    unfold bind at 1 in Hrun.
    match type of Hrun with context [name_of_match ?P tenants ?w0] =>
      destruct (name_of_match_run P tenants w0) as [tn Htn]; rewrite Htn in Hrun end.
    destruct tn as [e|tenant_name]; [discriminate|].
    unfold bind at 1 in Hrun.
    match type of Hrun with context [name_of_match ?P environments ?w0] =>
      destruct (name_of_match_run P environments w0) as [en Hen]; rewrite Hen in Hrun end.
    destruct en as [e|environment_name]; [discriminate|].
    unfold ret in Hrun. injection Hrun as <- <-. simpl.
    rewrite Htruthy, <- app_assoc. reflexivity.
  - unfold ret at 1 in Hrun. unfold bind at 1, api in Hrun. simpl in Hrun.
    destruct (get_channel_cached _ _ _) as [e|channel]; [discriminate|].
    unfold bind at 1 in Hrun.
    match type of Hrun with context [name_of_match ?P tenants ?w0] =>
      destruct (name_of_match_run P tenants w0) as [tn Htn]; rewrite Htn in Hrun end.
    destruct tn as [e|tenant_name]; [discriminate|].
    unfold bind at 1 in Hrun.
    match type of Hrun with context [name_of_match ?P environments ?w0] =>
      destruct (name_of_match_run P environments w0) as [en Hen]; rewrite Hen in Hrun end.
    destruct en as [e|environment_name]; [discriminate|].
    unfold ret in Hrun. injection Hrun as <- <-. simpl.
    rewrite Htruthy. reflexivity.
  - unfold ret at 1 in Hrun. unfold bind at 1, api in Hrun. simpl in Hrun.
    destruct (get_channel_cached _ _ _) as [e|channel]; [discriminate|].
    unfold bind at 1 in Hrun.
    match type of Hrun with context [name_of_match ?P tenants ?w0] =>
      destruct (name_of_match_run P tenants w0) as [tn Htn]; rewrite Htn in Hrun end.
    destruct tn as [e|tenant_name]; [discriminate|].
    unfold bind at 1 in Hrun.
    match type of Hrun with context [name_of_match ?P environments ?w0] =>
      destruct (name_of_match_run P environments w0) as [en Hen]; rewrite Hen in Hrun end.
    destruct en as [e|environment_name]; [discriminate|].
    unfold ret in Hrun. injection Hrun as <- <-. simpl.
    reflexivity.
Qed.

(** The inner loop calls nothing but the lookups of the records it
    adds, record by record. *)
Lemma scan_deployments_calls (release : Release) (items : list Deployment)
    (deployments collected : list DeploymentRecord) (w w' : World) :
  scan_deployments release items deployments w = (w', inr collected) →
  ∃ added,
    collected = deployments ++ added
    ∧ calls w' = calls w ++ flat_map (lookups_of space_id) added.
Proof.
  revert deployments w. induction items as [|deployment rest IH]; intros deployments w Hrun.
  - simpl in Hrun. injection Hrun as <- <-. exists []. rewrite !app_nil_r. auto.
  - rewrite scan_deployments_cons in Hrun.
    destruct (environment_mismatch _ _); [apply IH; assumption|].
    destruct (tenant_mismatch _ _); [apply IH; assumption|].
    destruct (outside_dates _ _) as [e|[|]]; [discriminate | apply IH; assumption |].
    destruct (enrich release deployment w) as [w1 [e|record]] eqn:Henrich; [discriminate|].
    apply enrich_calls in Henrich.
    destruct (Deployments.cap_reached _ _).
    + injection Hrun as <- <-. exists [record]. simpl. rewrite app_nil_r. auto.
    + apply IH in Hrun as (added & -> & Hcalls).
      exists (record :: added). rewrite <- app_assoc. split; [reflexivity|].
      rewrite Hcalls, Henrich, <- app_assoc. reflexivity.
Qed.

(** The outer loop adds the fetches of the releases; its lookups are
    those of the records it adds. *)
Lemma scan_releases_calls (releases : list Release)
    (deployments collected : list DeploymentRecord) (w w' : World) :
  scan_releases releases deployments w = (w', inr collected) →
  ∃ added new,
    collected = deployments ++ added
    ∧ calls w' = calls w ++ new
    ∧ lookups new = flat_map (lookups_of space_id) added.
Proof.
  revert deployments w. induction releases as [|release rest IH]; intros deployments w Hrun.
  - simpl in Hrun. injection Hrun as <- <-. exists [], []. rewrite !app_nil_r. auto.
  - rewrite scan_releases_cons in Hrun. cbv zeta in Hrun.
    destruct (get_release_deployments _ _ _) as [e|items]; [discriminate|].
    destruct (scan_deployments release items deployments _) as [w1 [e|collected1]] eqn:Hinner;
      [discriminate|].
    apply scan_deployments_calls in Hinner as (added1 & -> & Hcalls1). simpl in Hcalls1.
    destruct (Deployments.cap_reached _ _).
    + injection Hrun as <- <-. eexists added1, _. split; [reflexivity|].
      split; [rewrite Hcalls1, <- app_assoc; reflexivity|].
      rewrite lookups_app. simpl. apply lookups_flat_map.
    + apply IH in Hrun as (added2 & new2 & -> & Hcalls2 & Hlookups2).
      eexists (added1 ++ added2), _. rewrite <- app_assoc. split; [reflexivity|].
      split; [rewrite Hcalls2, Hcalls1, <- !app_assoc; reflexivity|].
      rewrite !lookups_app, Hlookups2, lookups_flat_map, flat_map_app. reflexivity.
Qed.

End Loops.

Section Whole.
Context `{Helpers}.

(** Resolving names calls the lookup once per name, and nothing else. *)
Lemma resolve_names_calls (call : string → ApiCall)
    (lookup : Platform → string → exc + Resource) (names : list string) (w w1 : World)
    (r : exc + list Resource) :
  (∀ n, is_lookup (call n) = false) →
  resolve_names call lookup names w = (w1, r) →
  ∃ new, calls w1 = calls w ++ new ∧ lookups new = [].
Proof.
  intros Hcall Hrun.
  assert (Hmap : map_m (λ n, api (call n) (λ p, lookup p n)) names w = (w1, r))
    by (destruct names; exact Hrun).
  clear Hrun. revert w w1 r Hmap.
  induction names as [|n names IH]; intros w w1 r Hmap.
  - simpl in Hmap. injection Hmap as <- <-. exists []. rewrite app_nil_r. auto.
  - simpl in Hmap. unfold bind at 1, api in Hmap.
    destruct (lookup (platform w) n) as [e|x].
    + injection Hmap as <- <-. exists [call n]. split; [reflexivity|].
      unfold lookups. simpl. rewrite Hcall. reflexivity.
    + unfold bind at 1 in Hmap.
      destruct (map_m _ names _) as [w2 [e|xs]] eqn:Hrest;
        apply IH in Hrest as (new & Hcalls & Hnone); simpl in Hcalls;
        injection Hmap as <- <-;
        (exists (call n :: new); split; [rewrite Hcalls, <- app_assoc; reflexivity|]);
        unfold lookups in *; simpl; rewrite Hcall; exact Hnone.
Qed.

(** C7.  The enrichment of a deployment, the lookup of its task when it
    has one and then the lookup of its channel, comes before the cap
    check for that deployment, and the check follows every append.  The
    lookups a call makes are therefore exactly those of the records it
    collected, in order.  For every cap of at least one the loops stop
    when the list holds that many records, so what is collected is what
    is returned: no deployment beyond the cap is enriched, and the cap
    bounds the lookups as it bounds the result.  Only with a cap of zero
    or less is a deployment enriched and then discarded, and then it is
    at most one. *)
Theorem lookups_are_those_of_the_collected_records (space_id project_name : string)
    (environment_names tenant_names : Names) (api_key octopus_url : string)
    (dates : option (list string)) (max_results : Z) (w w' : World) (result : Result) :
  get_deployments_for_project space_id project_name environment_names tenant_names
    api_key octopus_url dates max_results w = (w', inr result) →
  ∃ collected new,
    calls w' = calls w ++ new
    ∧ lookups new = flat_map (lookups_of space_id) collected
    ∧ Deployments result = slice_to max_results collected
    ∧ (1 <= max_results →
       Deployments result = collected ∧ Z.of_nat (length collected) <= max_results)
    ∧ (max_results <= 0 → Deployments result = [] ∧ (length collected <= 1)%nat).
Proof.
  unfold get_deployments_for_project. intros Hrun.
  do 4 (unfold bind at 1, lift in Hrun;
        match type of Hrun with context [ensure_string_not_empty ?a ?b] =>
          destruct (ensure_string_not_empty a b) as [e|[]]; [discriminate|] end).
  unfold bind at 1, api in Hrun.
  destruct (get_project (platform w) space_id project_name) as [e|project]; [discriminate|].
  unfold bind at 1, api in Hrun. cbn [platform calls] in Hrun.
  destruct (get_project_releases (platform w) space_id (project_Id project) 100)
    as [e|releases]; [discriminate|].
  unfold bind at 1 in Hrun.
  destruct (resolve_names (CallGetEnvironmentCached space_id) _ _ _)
    as [w2 [e|environments]] eqn:Henvs; [discriminate|].
  apply resolve_names_calls in Henvs as (new2 & Hcalls2 & Hnone2); [|reflexivity].
  unfold bind at 1 in Hrun.
  destruct (resolve_names (CallGetTenantCached space_id) _ _ _)
    as [w3 [e|tenants]] eqn:Htens; [discriminate|].
  apply resolve_names_calls in Htens as (new3 & Hcalls3 & Hnone3); [|reflexivity].
  unfold bind at 1 in Hrun.
  destruct (scan_releases _ _ _ _ _ _ _ _ _) as [w4 [e|collected]] eqn:Hscan; [discriminate|].
  unfold ret in Hrun. injection Hrun as <- <-.
  pose proof (scan_releases_collects _ _ _ _ _ _ _ _ _ _ _ Hscan)
    as (added' & _ & Hadded' & _ & _ & _ & Hlen).
  apply scan_releases_calls in Hscan as (added & new4 & Hadded & Hcalls4 & Hlookups4).
  simpl in Hadded, Hadded', Hlen, Hcalls2. subst added added'.
  exists collected,
    ([CallGetProject space_id project_name;
      CallGetProjectReleases space_id (project_Id project) 100] ++ new2 ++ new3 ++ new4).
  split; [rewrite Hcalls4, Hcalls3, Hcalls2, <- !app_assoc; reflexivity|].
  split; [rewrite !lookups_app, Hnone2, Hnone3, Hlookups4; reflexivity|].
  split; [reflexivity|]. simpl. split.
  - intros Hone. split; [apply slice_to_all|]; lia.
  - intros Hzero. assert (Hshort : (length collected <= 1)%nat) by lia.
    split; [|exact Hshort].
    destruct (Z.eq_dec max_results 0) as [->|Hneg];
      [rewrite (slice_to_take 0) by lia; reflexivity | apply slice_to_negative; lia].
Qed.

End Whole.

#[local] Existing Instance Demo.helpers.

(** Five deployments pass the filters and the cap is two: two tasks and
    two channels are looked up, those of the two records returned. *)
Lemma lookups_are_those_of_the_collected_records_witness :
  ∃ w' result collected new,
    Demo.run [] [] None 2 = (w', inr result)
    ∧ calls w' = calls Demo.start ++ new
    ∧ lookups new = flat_map (lookups_of "Spaces-1") collected
    ∧ Deployments result = slice_to 2 collected
    ∧ (1 <= 2 → Deployments result = collected ∧ Z.of_nat (length collected) <= 2)
    ∧ (2 <= 0 → Deployments result = [] ∧ (length collected <= 1)%nat).
Proof.
  assert (Hrun : ∃ w' result, Demo.run [] [] None 2 = (w', inr result))
    by (eexists _, _; vm_compute; reflexivity).
  destruct Hrun as (w' & result & Hrun).
  destruct (lookups_are_those_of_the_collected_records (H := Demo.helpers) "Spaces-1" "Web" [] []
              "API-KEY" "https://octopus.example" None 2 Demo.start w' result Hrun)
    as (collected & new & Hfacts).
  exists w', result, collected, new. split; [exact Hrun | exact Hfacts].
Defined.

(** With a cap of one and five deployments that pass the filters, the
    deployment beyond the cap is not enriched: the one task and the one
    channel looked up are those of the record returned, and the second
    deployment of the release, which the platform lists, is never looked
    up. *)
Lemma deployment_beyond_cap_is_not_enriched :
  ∃ w' result,
    Demo.run [] [] None 1 = (w', inr result)
    ∧ map DeploymentId (Deployments result) = ["Deployments-1"]
    ∧ get_release_deployments Demo.server "Spaces-1" "Releases-1" = inr [Demo.d1; Demo.d2]
    ∧ lookups (calls w')
      = [CallGetTask "Spaces-1" "ServerTasks-1"; CallGetChannelCached "Spaces-1" "Channels-1"]
    ∧ enrichments (calls w') = length (Deployments result).
Proof.
  eexists _, _. split; [vm_compute; reflexivity|].
  repeat split; vm_compute; reflexivity.
Qed.

(** With a cap of zero the first deployment is enriched and nothing is
    returned. *)
Example cap_zero_enriches_one :
  lookups (calls (Demo.run [] [] None 0).1)
    = [CallGetTask "Spaces-1" "ServerTasks-1"; CallGetChannelCached "Spaces-1" "Channels-1"]
  ∧ (Demo.run [] [] None 0).2 = inr {| Deployments := [] |}.
Proof. vm_compute. split; reflexivity. Qed.

End DeploymentsWork.


(** ** get_deployments_for_project: the payloads are never written *)

Module DeploymentsHeapSpec.
Import Eff DeploymentsHeap.
#[local] Set Warnings "-clear-no-such-hyp".

(** *** The objects a run created and the writes it made *)

Lemma allocated_app (es1 es2 : list event) :
  allocated (es1 ++ es2) = allocated es1 ∪ allocated es2.
Proof.
  induction es1 as [|[l|l] es1 IH]; simpl.
  - set_solver.
  - rewrite IH. set_solver.
  - exact IH.
Qed.

Lemma disciplined_mono (owned owned' : gset loc) (es : list event) :
  owned ⊆ owned' → disciplined owned es → disciplined owned' es.
Proof.
  revert owned owned'. induction es as [|[l|l] es IH]; intros owned owned' Hsub Hes; simpl in *.
  - exact I.
  - eapply IH; [|exact Hes]. set_solver.
  - destruct Hes as [Hl Hes]. split; [set_solver | eapply IH; eassumption].
Qed.

Lemma disciplined_app (owned : gset loc) (es1 es2 : list event) :
  disciplined owned es1 → disciplined (allocated es1 ∪ owned) es2 →
  disciplined owned (es1 ++ es2).
Proof.
  revert owned. induction es1 as [|[l|l] es1 IH]; intros owned H1 H2; simpl in *.
  - eapply disciplined_mono; [|exact H2]. set_solver.
  - apply IH; [exact H1|]. eapply disciplined_mono; [|exact H2]. set_solver.
  - destruct H1 as [Hl H1]. split; [exact Hl | apply IH; assumption].
Qed.

(** *** Steps that write nothing *)

Lemma quiet_ret {A} (a : A) : quiet (ret a : M A).
Proof. intros s s' r Hrun. injection Hrun as <- <-. auto. Qed.

Lemma quiet_raise {A} (e : exc) : quiet (raise e : M A).
Proof. intros s s' r Hrun. injection Hrun as <- <-. auto. Qed.

Lemma quiet_lift {A} (x : exc + A) : quiet (lift x : M A).
Proof. intros s s' r Hrun. injection Hrun as <- <-. auto. Qed.

Lemma quiet_read {A} (f : store → exc + A) : quiet (read f).
Proof. intros s s' r Hrun. injection Hrun as <- <-. auto. Qed.

Lemma quiet_imported {A} (f : store → store * (exc + A)) :
  preserves f → quiet (imported f).
Proof.
  intros Hf s s' r Hrun. unfold imported in Hrun. specialize (Hf (objects s)).
  destruct (f (objects s)) as [σ r']. injection Hrun as <- <-. auto.
Qed.

Lemma quiet_bind {A B} (m : M A) (k : A → M B) :
  quiet m → (∀ a, quiet (k a)) → quiet (bind m k).
Proof.
  intros Hm Hk s s' r Hrun. unfold bind in Hrun.
  destruct (m s) as [s1 [e|a]] eqn:Hfirst.
  - injection Hrun as <- <-. eapply Hm, Hfirst.
  - apply Hm in Hfirst as [He Ho]. apply Hk in Hrun as [He' Ho'].
    split; [congruence | etransitivity; eassumption].
Qed.

Lemma quiet_map_m {A B} (f : A → M B) (l : list A) :
  (∀ a, quiet (f a)) → quiet (map_m f l).
Proof.
  intros Hf. induction l as [|a l IH]; simpl; [apply quiet_ret|].
  apply quiet_bind; [apply Hf | intros b].
  apply quiet_bind; [exact IH | intros bs; apply quiet_ret].
Qed.

Lemma quiet_filter_m (pred : val → M bool) (l : list val) :
  (∀ x, quiet (pred x)) → quiet (filter_m pred l).
Proof.
  intros Hpred. induction l as [|x l IH]; simpl; [apply quiet_ret|].
  apply quiet_bind; [apply Hpred | intros keep].
  apply quiet_bind; [exact IH | intros kept; apply quiet_ret].
Qed.

Lemma quiet_next_filter (pred : val → M bool) (l : list val) :
  (∀ x, quiet (pred x)) → quiet (next_filter pred l).
Proof.
  intros Hpred. induction l as [|x l IH]; simpl; [apply quiet_raise|].
  apply quiet_bind; [apply Hpred | intros [|]; [apply quiet_ret | exact IH]].
Qed.

Section Quiet.
Context `{Imports} `{!Preserving}.

Lemma quiet_matching_id (key : string) (deployment x : val) :
  quiet (matching_id key deployment x).
Proof.
  unfold matching_id.
  apply quiet_bind; [apply quiet_read | intros id].
  apply quiet_bind; [apply quiet_read | intros wanted]. apply quiet_read.
Qed.

Lemma quiet_mismatch (key : string) (resources : list val) (deployment : val) :
  quiet (mismatch key resources deployment).
Proof.
  unfold mismatch. destruct (negb _); [|apply quiet_ret].
  apply quiet_bind; [|intros found; apply quiet_ret].
  apply quiet_filter_m. intros x. apply quiet_matching_id.
Qed.

Lemma quiet_outside_dates (dates : option (list string)) (deployment : val) :
  quiet (outside_dates dates deployment).
Proof.
  unfold outside_dates.
  destruct dates as [[|d1 [|d2 [|d3 rest]]]|]; try apply quiet_ret.
  apply quiet_bind; [apply quiet_read | intros text].
  apply quiet_bind;
    [apply quiet_imported, parse_unknown_format_date_preserves | intros created].
  apply quiet_bind;
    [apply quiet_imported, parse_unknown_format_date_preserves | intros date1].
  apply quiet_bind;
    [apply quiet_imported, parse_unknown_format_date_preserves | intros date2].
  apply quiet_ret.
Qed.

Lemma quiet_name_of_match (key : string) (resources : list val) (deployment : val) :
  quiet (name_of_match key resources deployment).
Proof.
  unfold name_of_match. destruct resources as [|r0 rest]; [apply quiet_ret|].
  apply quiet_bind; [|intros r; apply quiet_imported, get_key_or_none_preserves].
  apply quiet_next_filter. intros x. apply quiet_matching_id.
Qed.

Lemma quiet_resolve_names (lookup : string → store → store * (exc + val))
    (names : list string) :
  (∀ n, preserves (lookup n)) → quiet (resolve_names lookup names).
Proof.
  intros Hlookup. unfold resolve_names. destruct names as [|n names]; [apply quiet_ret|].
  apply quiet_map_m. intros a. apply quiet_imported, Hlookup.
Qed.

Lemma quiet_cap_reached (max_results : Z) (deployments : val) :
  quiet (cap_reached max_results deployments).
Proof.
  unfold cap_reached. apply quiet_bind; [apply quiet_read | intros n; apply quiet_ret].
Qed.

End Quiet.

(** *** Steps that write the list of the call only *)

Lemma quiet_tidy {A} (d : loc) (m : M A) : quiet m → tidy d m.
Proof.
  intros Hm s s' r Hrun. apply Hm in Hrun as [He Ho].
  exists [], []. rewrite app_nil_r. split; [exact He|]. split; [exact I|].
  split; [intros l Hl; set_solver|].
  split; [intros l o _ Hl; eapply lookup_weaken; eassumption|].
  split; [intros l [o Hl]; exists o; eapply lookup_weaken; eassumption|].
  split; [|constructor].
  intros records Hd. rewrite app_nil_r. eapply lookup_weaken; eassumption.
Qed.

Lemma tidy_bind {A B} (d : loc) (m : M A) (k : A → M B) :
  tidy d m → (∀ a, tidy d (k a)) → tidy d (bind m k).
Proof.
  intros Hm Hk s s' r Hrun. unfold bind in Hrun.
  destruct (m s) as [s1 [e|a]] eqn:Hfirst.
  - injection Hrun as <- <-. eapply Hm, Hfirst.
  - apply Hm in Hfirst as (new1 & added1 & He1 & Hd1 & Hf1 & Hk1 & Hm1 & Hl1 & Ha1).
    apply Hk in Hrun as (new2 & added2 & He2 & Hd2 & Hf2 & Hk2 & Hm2 & Hl2 & Ha2).
    exists (new1 ++ new2), (added1 ++ added2).
    split; [rewrite He2, He1, app_assoc; reflexivity|].
    split.
    { apply disciplined_app; [exact Hd1|].
      eapply disciplined_mono; [|exact Hd2]. set_solver. }
    split.
    { intros l Hl. rewrite allocated_app in Hl. apply elem_of_union in Hl as [Hl|Hl].
      - apply Hf1, Hl.
      - specialize (Hf2 l Hl). destruct (objects s !! l) as [o|] eqn:Hs; [|reflexivity].
        destruct (Hm1 l ltac:(eauto)) as [o' Ho']. congruence. }
    split; [intros l o Hne Hl; eapply Hk2, Hk1; eassumption|].
    split; [intros l Hl; apply Hm2, Hm1, Hl|].
    split; [intros records Hrec; rewrite app_assoc; apply Hl2, Hl1, Hrec|].
    apply Forall_app. split.
    + eapply Forall_impl; [exact Ha1|]. intros v (l & fields & -> & Hl & Hne & Hobj).
      exists l, fields. rewrite allocated_app. split; [reflexivity|].
      split; [set_solver|]. split; [exact Hne | eapply Hk2; eassumption].
    + eapply Forall_impl; [exact Ha2|]. intros v (l & fields & -> & Hl & Hne & Hobj).
      exists l, fields. rewrite allocated_app. split; [reflexivity|].
      split; [set_solver|]. auto.
Qed.

(** The one write of the function: the new dictionary is appended to
    the list of the call. *)
Lemma tidy_append_new (d : loc) (fields : gmap string val) :
  tidy d (bind (alloc (ODict fields)) (λ record, append (VRef d) record)).
Proof.
  intros s s' r Hrun. unfold bind, alloc, append in Hrun. cbn [objects events] in Hrun.
  set (l := fresh (dom (objects s))) in *.
  assert (Hfresh : objects s !! l = None)
    by (apply not_elem_of_dom; unfold l; apply is_fresh).
  destruct (<[l := ODict fields]> (objects s) !! d) as [[fields'|items]|] eqn:Hd.
  1,3: injection Hrun as <- <-; exists [Allocated l], []; cbn [objects events];
    (split; [reflexivity|]); (split; [exact I|]);
    (split; [intros l0 Hl0; simpl in Hl0; assert (l0 = l) as -> by set_solver; exact Hfresh|]);
    (split; [intros l0 o _ Hl0; rewrite lookup_insert_ne by congruence; exact Hl0|]);
    (split; [intros l0 [o Hl0]; exists o; rewrite lookup_insert_ne by congruence; exact Hl0|]);
    (split; [|constructor]);
    intros records Hrec; rewrite lookup_insert_ne in Hd by congruence; congruence.
  assert (Hne : l ≠ d).
  { intros ->. rewrite lookup_insert_eq in Hd. discriminate. }
  rewrite lookup_insert_ne in Hd by exact Hne.
  injection Hrun as <- <-. exists [Allocated l; Wrote d], [VRef l]. cbn [objects events].
  split; [rewrite <- app_assoc; reflexivity|].
  split; [simpl; split; [set_solver | exact I]|].
  split; [intros l0 Hl0; simpl in Hl0; assert (l0 = l) as -> by set_solver; exact Hfresh|].
  split.
  { intros l0 o Hl0 Hobj. rewrite lookup_insert_ne by congruence.
    rewrite lookup_insert_ne by congruence. exact Hobj. }
  split.
  { intros l0 [o Hobj]. destruct (decide (l0 = d)) as [->|Hl0].
    - rewrite lookup_insert_eq. eauto.
    - rewrite lookup_insert_ne by congruence. rewrite lookup_insert_ne by congruence. eauto. }
  split.
  { intros records Hrec. rewrite lookup_insert_eq. congruence. }
  constructor; [|constructor]. exists l, fields.
  split; [reflexivity|]. split; [simpl; set_solver|]. split; [exact Hne|].
  rewrite lookup_insert_ne by congruence. apply lookup_insert_eq.
Qed.

Section Tidy.
Context `{Imports} `{!Preserving}.
Variable space_id : string.
Variable project : val.
Variable environments tenants : list val.
Variable dates : option (list string).
Variable max_results : Z.
Variable d : loc.

Local Abbreviation enrich :=
  (enrich space_id project environments tenants (VRef d)).
Local Abbreviation scan_deployments :=
  (scan_deployments space_id project environments tenants dates max_results (VRef d)).
Local Abbreviation scan_releases :=
  (scan_releases space_id project environments tenants dates max_results (VRef d)).

Ltac quiet_step :=
  first [ apply quiet_read | apply quiet_ret
        | apply quiet_imported; first [ apply get_task_preserves
                                      | apply get_channel_cached_preserves
                                      | apply strip_markdown_urls_preserves
                                      | apply get_release_deployments_preserves ]
        | apply quiet_name_of_match ].

Lemma tidy_enrich (release deployment : val) : tidy d (enrich release deployment).
Proof.
  unfold DeploymentsHeap.enrich.
  apply tidy_bind; [apply quiet_tidy; quiet_step | intros task_id].
  apply tidy_bind; [apply quiet_tidy; quiet_step | intros has_task].
  apply tidy_bind; [apply quiet_tidy | intros task].
  { destruct has_task; [|quiet_step].
    apply quiet_bind; [quiet_step | intros t; quiet_step]. }
  do 16 (apply tidy_bind; [apply quiet_tidy; quiet_step | intros ?]).
  apply tidy_bind; [apply quiet_tidy | intros TaskState].
  { match goal with |- quiet (if ?b then _ else _) => destruct b end; quiet_step. }
  apply tidy_bind; [apply quiet_tidy; quiet_step | intros task_found'].
  apply tidy_bind; [apply quiet_tidy | intros TaskDuration].
  { destruct task_found'; quiet_step. }
  do 3 (apply tidy_bind; [apply quiet_tidy; quiet_step | intros ?]).
  apply tidy_append_new.
Qed.

Lemma tidy_scan_deployments (release : val) (items : list val) :
  tidy d (scan_deployments release items).
Proof.
  induction items as [|deployment rest IH]; simpl; [apply quiet_tidy, quiet_ret|].
  apply tidy_bind; [apply quiet_tidy, quiet_mismatch | intros [|]; [exact IH|]].
  apply tidy_bind; [apply quiet_tidy, quiet_mismatch | intros [|]; [exact IH|]].
  apply tidy_bind; [apply quiet_tidy, quiet_outside_dates | intros [|]; [exact IH|]].
  apply tidy_bind; [apply tidy_enrich | intros _].
  apply tidy_bind; [apply quiet_tidy, quiet_cap_reached | intros [|]; [|exact IH]].
  apply quiet_tidy, quiet_ret.
Qed.

Lemma tidy_scan_releases (releases : list val) : tidy d (scan_releases releases).
Proof.
  induction releases as [|release rest IH]; simpl; [apply quiet_tidy, quiet_ret|].
  do 4 (apply tidy_bind; [apply quiet_tidy; quiet_step | intros ?]).
  apply tidy_bind; [apply tidy_scan_deployments | intros _].
  apply tidy_bind; [apply quiet_tidy, quiet_cap_reached | intros [|]; [|exact IH]].
  apply quiet_tidy, quiet_ret.
Qed.

End Tidy.

Section Whole.
Context `{Imports} `{!Preserving}.

(** What comes before the list is created writes nothing. *)
Lemma never_writes_after_quiet {A} (m : M A) (k : A → M val) :
  quiet m → (∀ a, never_writes_payloads (k a)) → never_writes_payloads (bind m k).
Proof.
  intros Hm Hk s s' r Hrun. unfold bind in Hrun.
  destruct (m s) as [s1 [e|a]] eqn:Hfirst.
  - injection Hrun as <- <-. apply Hm in Hfirst as [He Ho].
    exists []. rewrite app_nil_r. split; [exact He|]. split; [exact I|].
    split; [intros l Hl; set_solver|].
    split; [intros l o Hl; eapply lookup_weaken; eassumption | discriminate].
  - apply Hm in Hfirst as [He Ho].
    apply Hk in Hrun as (new & Hnew & Hd & Hfresh & Hframe & Hresult).
    exists new. split; [congruence|]. split; [exact Hd|].
    split.
    { intros l Hl. specialize (Hfresh l Hl).
      destruct (objects s !! l) as [o|] eqn:Hs; [|reflexivity].
      eapply lookup_weaken in Hs; [|exact Ho]. congruence. }
    split; [|exact Hresult].
    intros l o Hl. apply Hframe. eapply lookup_weaken; eassumption.
Qed.

(** From the creation of the list to the result. *)
Lemma never_writes_from_the_list (space_id : string) (project releases : val)
    (environments tenants : list val) (dates : option (list string)) (max_results : Z) :
  never_writes_payloads
    (bind (alloc (OList []))
       (λ deployments,
          bind (read (getitem releases "Items"))
            (λ items,
               bind (read (iterate items))
                 (λ items,
                    bind (scan_releases space_id project environments tenants dates
                            max_results deployments items)
                      (λ _,
                         bind (read (slice_to deployments max_results))
                           (λ first,
                              bind (alloc (OList first))
                                (λ first, alloc (ODict {[ "Deployments" := first ]})))))))).
Proof.
  intros s s' r Hrun. unfold bind at 1, alloc at 1 in Hrun.
  set (d := fresh (dom (objects s))) in *.
  assert (Hd : objects s !! d = None) by (apply not_elem_of_dom; unfold d; apply is_fresh).
  set (s1 := {| objects := <[d := OList []]> (objects s);
                events := events s ++ [Allocated d] |}) in *.
  assert (Hmiddle : tidy d
            (bind (read (getitem releases "Items"))
               (λ items,
                  bind (read (iterate items))
                    (λ items,
                       scan_releases space_id project environments tenants dates
                         max_results (VRef d) items)))).
  { apply tidy_bind; [apply quiet_tidy, quiet_read | intros items].
    apply tidy_bind; [apply quiet_tidy, quiet_read | intros items'].
    apply tidy_scan_releases. }
  (* the run up to the end of the loops *)
  assert (Hsplit : ∃ s2 r2,
            bind (read (getitem releases "Items"))
              (λ items,
                 bind (read (iterate items))
                   (λ items,
                      scan_releases space_id project environments tenants dates
                        max_results (VRef d) items)) s1 = (s2, r2)
            ∧ match r2 with
              | inl e => s' = s2 ∧ r = inl e
              | inr _ =>
                  bind (read (slice_to (VRef d) max_results))
                    (λ first,
                       bind (alloc (OList first))
                         (λ first, alloc (ODict {[ "Deployments" := first ]}))) s2
                  = (s', r)
              end).
  { unfold bind at 1, read at 1 in Hrun. unfold bind at 1, read at 1.
    destruct (getitem releases "Items" (objects s1)) as [e|items].
    { injection Hrun as <- <-. eexists _, _. split; [reflexivity|]. split; reflexivity. }
    unfold bind at 1, read at 1 in Hrun. unfold bind at 1, read at 1.
    destruct (iterate items (objects s1)) as [e|items'].
    { injection Hrun as <- <-. eexists _, _. split; [reflexivity|]. split; reflexivity. }
    unfold bind at 1 in Hrun.
    destruct (scan_releases _ _ _ _ _ _ _ _ s1) as [s2 [e|u]].
    - injection Hrun as <- <-. eexists _, _. split; [reflexivity|]. split; reflexivity.
    - eexists _, _. split; [reflexivity|]. exact Hrun. }
  destruct Hsplit as (s2 & r2 & Hloops & Hrest).
  apply Hmiddle in Hloops
    as (new & added & Hnew & Hdisc & Hfresh & Hframe & Hdom & Hlist & Hadded).
  specialize (Hlist [] (lookup_insert_eq _ _ _)). simpl in Hlist.
  assert (Hfresh' : ∀ l, l ∈ allocated (Allocated d :: new) → objects s !! l = None).
  { intros l Hl. simpl in Hl. apply elem_of_union in Hl as [Hl|Hl].
    - assert (l = d) as -> by set_solver. exact Hd.
    - specialize (Hfresh l Hl). simpl in Hfresh.
      apply lookup_insert_None in Hfresh as [Hnone _]. exact Hnone. }
  assert (Hframe' : ∀ l o, objects s !! l = Some o → objects s2 !! l = Some o).
  { intros l o Hl. assert (l ≠ d) by congruence.
    apply Hframe; [assumption|]. simpl. rewrite lookup_insert_ne by congruence. exact Hl. }
  assert (Hdisc' : disciplined ∅ (Allocated d :: new)).
  { simpl. eapply disciplined_mono; [|exact Hdisc]. set_solver. }
  destruct r2 as [e|u].
  { destruct Hrest as [-> ->]. exists (Allocated d :: new).
    split; [rewrite Hnew; simpl; rewrite <- app_assoc; reflexivity|].
    split; [exact Hdisc'|]. split; [exact Hfresh'|]. split; [exact Hframe' | discriminate]. }
  (* the slice and the dictionary that is returned *)
  unfold bind at 1, read, slice_to in Hrest. rewrite Hlist in Hrest.
  unfold bind, alloc in Hrest. cbn [objects events] in Hrest.
  set (l1 := fresh (dom (objects s2))) in *.
  set (first := Py.slice_to max_results added) in *.
  set (l2 := fresh (dom (<[l1 := OList first]> (objects s2)))) in *.
  assert (H1 : objects s2 !! l1 = None) by (apply not_elem_of_dom; unfold l1; apply is_fresh).
  assert (H2 : <[l1 := OList first]> (objects s2) !! l2 = None)
    by (apply not_elem_of_dom; unfold l2; apply is_fresh).
  apply lookup_insert_None in H2 as [H2 Hne].
  injection Hrest as <- <-. cbn [objects events].
  exists (Allocated d :: new ++ [Allocated l1; Allocated l2]).
  assert (Hall : allocated (Allocated d :: new ++ [Allocated l1; Allocated l2])
                 = {[ d ]} ∪ allocated new ∪ {[ l1; l2 ]}).
  { simpl. rewrite allocated_app. simpl. set_solver. }
  split; [rewrite Hnew; simpl; rewrite <- !app_assoc; reflexivity|].
  split.
  { simpl. apply disciplined_app; [eapply disciplined_mono; [|exact Hdisc]; set_solver|].
    simpl. exact I. }
  split.
  { intros l Hl. rewrite Hall in Hl.
    apply elem_of_union in Hl as [Hl|Hl]; [apply Hfresh'; simpl; set_solver|].
    destruct (objects s !! l) as [o|] eqn:Hs; [|reflexivity].
    apply Hframe' in Hs. apply elem_of_union in Hl as [Hl|Hl];
      [assert (l = l1) by set_solver | assert (l = l2) by set_solver]; congruence. }
  split.
  { intros l o Hl. apply Hframe' in Hl.
    rewrite lookup_insert_ne by congruence. rewrite lookup_insert_ne by congruence. exact Hl. }
  intros result Hresult. injection Hresult as <-.
  exists l2, l1, first. rewrite Hall.
  split; [reflexivity|]. split; [set_solver|]. split; [apply lookup_insert_eq|].
  split; [set_solver|].
  split; [rewrite lookup_insert_ne by congruence; apply lookup_insert_eq|].
  assert (Hfirst : Forall (λ v, ∃ l fields, v = VRef l ∧ l ∈ allocated new ∧ l ≠ d
                                            ∧ objects s2 !! l = Some (ODict fields)) first).
  { unfold first, Py.slice_to. apply Forall_take. exact Hadded. }
  eapply Forall_impl; [exact Hfirst|].
  intros v (l & fields & -> & Hl & _ & Hobj). exists l, fields.
  split; [reflexivity|]. split; [set_solver|].
  rewrite lookup_insert_ne by congruence. rewrite lookup_insert_ne by congruence. exact Hobj.
Qed.

(** C8.  [get_deployments_for_project] never changes a payload.  When
    the imported functions leave the objects they find as they are,
    every object that is changed in place during a call is one that
    the call itself has created before (it is the list the records are
    appended to); the objects created are new ones, at addresses that
    were free when the call started; every object that was in the
    store then, a payload the caller or a cache holds among them, is in
    it unchanged when the call ends; and the result is a new
    dictionary holding a new list of new dictionaries, the records. *)
Theorem payloads_are_never_written (space_id project_name : string)
    (environment_names tenant_names : Names) (api_key octopus_url : string)
    (dates : option (list string)) (max_results : Z) (s s' : State) (r : exc + val) :
  get_deployments_for_project space_id project_name environment_names tenant_names
    api_key octopus_url dates max_results s = (s', r) →
  ∃ new,
    events s' = events s ++ new
    ∧ disciplined ∅ new
    ∧ (∀ l, l ∈ allocated new → objects s !! l = None)
    ∧ (∀ l o, objects s !! l = Some o → objects s' !! l = Some o)
    ∧ (∀ result, r = inr result → built_new (objects s') (allocated new) result).
Proof.
  revert s s' r.
  change (never_writes_payloads
            (get_deployments_for_project space_id project_name environment_names
               tenant_names api_key octopus_url dates max_results)).
  unfold get_deployments_for_project.
  do 4 (apply never_writes_after_quiet; [apply quiet_lift | intros _]).
  apply never_writes_after_quiet;
    [apply quiet_imported, get_project_preserves | intros project].
  apply never_writes_after_quiet; [apply quiet_read | intros project_id].
  apply never_writes_after_quiet;
    [apply quiet_imported, get_project_releases_preserves | intros releases].
  apply never_writes_after_quiet;
    [apply quiet_resolve_names, get_environment_cached_preserves | intros environments].
  apply never_writes_after_quiet;
    [apply quiet_resolve_names, get_tenant_cached_preserves | intros tenants].
  apply never_writes_from_the_list.
Qed.

End Whole.

(** The imported functions of the example leave the objects they find
    as they are: a lookup of a task adds a dictionary, the others add
    nothing. *)
Lemma demo_imports_preserve : Preserving (H := DemoHeap.imports).
Proof.
  split; try (intros; intros σ; reflexivity).
  intros space_id task_id σ. simpl.
  apply insert_subseteq, not_elem_of_dom, is_fresh.
Qed.

Lemma payloads_are_never_written_witness :
  ∃ new,
    events (DemoHeap.run ["Dev"] 1).1 = events DemoHeap.start ++ new
    ∧ disciplined ∅ new
    ∧ (∀ l, l ∈ allocated new → objects DemoHeap.start !! l = None)
    ∧ (∀ l o, objects DemoHeap.start !! l = Some o →
              objects (DemoHeap.run ["Dev"] 1).1 !! l = Some o)
    ∧ (∀ result, (DemoHeap.run ["Dev"] 1).2 = inr result →
                 built_new (objects (DemoHeap.run ["Dev"] 1).1) (allocated new) result).
Proof.
  apply (payloads_are_never_written (H := DemoHeap.imports) (H0 := demo_imports_preserve)
           "Spaces-1" "Web" ["Dev"] [] "API-KEY" "https://octopus.example" None 1
           DemoHeap.start).
  apply surjective_pairing.
Defined.

(** The example, run: the list of the records is created, then for each
    deployment that is kept a record is created and appended to that
    list, and at the end the slice and the dictionary that is returned
    are created.  Nothing else is written. *)
Example run_events :
  events (DemoHeap.run [] 5).1
  = [Allocated 15; Allocated 17; Wrote 15; Allocated 19; Wrote 15;
     Allocated 21; Wrote 15; Allocated 22; Allocated 23]%positive
  ∧ (DemoHeap.run [] 5).2 = inr (VRef 23%positive)
  ∧ events (DemoHeap.run ["Dev"] 1).1
    = [Allocated 15; Allocated 17; Wrote 15; Allocated 18; Allocated 19]%positive
  ∧ (DemoHeap.run ["Dev"] 1).2 = inr (VRef 19%positive).
Proof. vm_compute. repeat split; reflexivity. Qed.

(** The payloads of the example are the same objects after the run. *)
Example run_keeps_the_payloads :
  map (λ l, objects (DemoHeap.run [] 5).1 !! l) (map Pos.of_nat (seq 1 14))
  = map (λ l, DemoHeap.payloads !! l) (map Pos.of_nat (seq 1 14))
  ∧ Forall (λ l, is_Some (DemoHeap.payloads !! l)) (map Pos.of_nat (seq 1 14)).
Proof.
  split; [vm_compute; reflexivity|].
  repeat constructor; vm_compute; eexists; reflexivity.
Qed.

(** What the property excludes.  A function that appends to the list of
    a payload, or stores a key in a payload, changes an object it has
    not created: the property fails for it. *)
Example appending_to_a_payload_is_excluded :
  (bind (append (VRef 8%positive) VNone) (λ _, ret VNone) DemoHeap.start).1.(objects) !! 8%positive
  = Some (OList [VRef 9%positive; VRef 10%positive; VNone])
  ∧ ¬ never_writes_payloads (bind (append (VRef 8%positive) VNone) (λ _, ret VNone)).
Proof.
  split; [vm_compute; reflexivity|].
  intros Hclean.
  destruct (Hclean DemoHeap.start _ _ eq_refl) as (new & Hnew & Hdisc & _).
  vm_compute in Hnew. subst new.
  destruct Hdisc as [Hin _]. set_solver.
Qed.

Example storing_in_a_payload_is_excluded :
  ¬ never_writes_payloads
      (bind (setitem (VRef 9%positive) "EnvironmentName" (VStr "Dev")) (λ _, ret VNone)).
Proof.
  intros Hclean.
  destruct (Hclean DemoHeap.start _ _ eq_refl) as (new & Hnew & Hdisc & _).
  vm_compute in Hnew. subst new.
  destruct Hdisc as [Hin _]. set_solver.
Qed.

End DeploymentsHeapSpec.
